(** * PyAMF [pyamf/amf3.py]: the AMF3 encoder and decoder

    A shallow embedding of the variable-length 29-bit integer codec
    ([encode_int], [decode_int]), of the AMF3 [Context] and of the
    [Encoder] / [Decoder] methods that read and write strings, arrays, dates,
    byte arrays, XML documents and objects, followed by the properties that
    the specification states about them.

    Python integers are [Z]; a Python 2 [str] is a list of bytes; a raised
    exception is an outcome that keeps the state reached so far, since the
    stream and the context are mutated in place. *)

From Stdlib Require Import ZArith List Lia Bool.
From Stdlib Require Import Strings.Byte Strings.String DecimalString.
From stdpp Require Import base option list gmap sorting.
Import ListNotations.

Local Open Scope Z_scope.

(** ** Bytes and byte strings *)

(** A Python 2 [str]. *)
Definition pystr := list byte.

(** [ord(c)] for a one-character [str]. *)
Definition ord (b : byte) : Z := Z.of_N (Byte.to_N b).

(** ** Exceptions and outcomes *)

Inductive exn : Type :=
| OverflowError
| ValueError
| TypeError
| KeyError
| IndexError
| EOStream         (* the stream is exhausted *)
| EncodeError
| DecodeError
| ReferenceError
| ExternalError.   (* raised by a collaborator outside this module *)

(** The result of running a piece of code: a value, a raised exception, or
    [Timeout] when a fuel-bounded recursion of the model ran out of fuel. *)
Inductive outcome (A : Type) : Type :=
| Ok (a : A)
| Raise (e : exn)
| Timeout.

Arguments Ok {A} a.
Arguments Raise {A} e.
Arguments Timeout {A}.

(** Code without side effects (module-level helpers). *)
Definition obind {A B : Type} (m : outcome A) (f : A -> outcome B) : outcome B :=
  match m with
  | Ok a => f a
  | Raise e => Raise e
  | Timeout => Timeout
  end.

(** Code that mutates a state [S]: the state is returned also when an
    exception is raised. *)
Definition M (S A : Type) : Type := S -> outcome A * S.

Definition ret {S A : Type} (a : A) : M S A := fun s => (Ok a, s).

Definition bind {S A B : Type} (m : M S A) (f : A -> M S B) : M S B :=
  fun s =>
    match m s with
    | (Ok a, s') => f a s'
    | (Raise e, s') => (Raise e, s')
    | (Timeout, s') => (Timeout, s')
    end.

Definition raise {S A : Type} (e : exn) : M S A := fun s => (Raise e, s).

Definition timeout {S A : Type} : M S A := fun s => (Timeout, s).

Definition lift {S A : Type} (o : outcome A) : M S A := fun s => (o, s).

#[global] Instance outcome_bind : MBind outcome := fun A B f m => obind m f.
#[global] Instance outcome_ret : MRet outcome := fun A a => Ok a.
#[global] Instance M_bind {S : Type} : MBind (M S) := fun A B f m => bind m f.
#[global] Instance M_ret {S : Type} : MRet (M S) := fun A a => ret a.

(** A [for x in xs: body(x)] loop. *)
Fixpoint for_each {S A : Type} (xs : list A) (body : A -> M S unit) : M S unit :=
  match xs with
  | [] => ret tt
  | x :: xs' => body x;; for_each xs' body
  end.

(** ** Module constants *)

Definition TYPE_UNDEFINED : byte := x00.
Definition TYPE_NULL : byte := x01.
Definition TYPE_BOOL_FALSE : byte := x02.
Definition TYPE_BOOL_TRUE : byte := x03.
Definition TYPE_INTEGER : byte := x04.
Definition TYPE_NUMBER : byte := x05.
Definition TYPE_STRING : byte := x06.
Definition TYPE_XML : byte := x07.
Definition TYPE_DATE : byte := x08.
Definition TYPE_ARRAY : byte := x09.
Definition TYPE_OBJECT : byte := x0a.
Definition TYPE_XMLSTRING : byte := x0b.
Definition TYPE_BYTEARRAY : byte := x0c.

Definition REFERENCE_BIT : Z := 0x01.
Definition MAX_29B_INT : Z := 0x0FFFFFFF.
Definition MIN_29B_INT : Z := - 0x10000000.

(** [ENCODED_INT_CACHE = {}]: nothing in the module ever stores into it. *)
Definition ENCODED_INT_CACHE : gmap Z pystr := ∅.

(** ** The U29 codec *)

(** [chr(i)]: raises [ValueError] unless [i] is in [range(256)]. *)
Definition chr (i : Z) : outcome byte :=
  if (0 <=? i) && (i <? 256) then
    match Byte.of_N (Z.to_N i) with
    | Some b => Ok b
    | None => Raise ValueError
    end
  else Raise ValueError.

Definition encode_int (n : Z) : outcome pystr :=
  match ENCODED_INT_CACHE !! n with
  | Some cached => Ok cached
  | None =>
    if (n <? MIN_29B_INT) || (n >? MAX_29B_INT) then Raise OverflowError
    else
      let n := if n <? 0 then n + 0x20000000 else n in
      let bytes : pystr := [] in
      let real_value : option Z := None in
      '(real_value, n, bytes) ←
         (if n >? 0x1fffff then
            let real_value := Some n in
            let n := Z.shiftr n 1 in
            c ← chr (Z.lor 0x80 (Z.land (Z.shiftr n 21) 0xff));
            Ok (real_value, n, bytes ++ [c])
          else Ok (real_value, n, bytes));
      bytes ←
         (if n >? 0x3fff then
            c ← chr (Z.lor 0x80 (Z.land (Z.shiftr n 14) 0xff));
            Ok (bytes ++ [c])
          else Ok bytes);
      bytes ←
         (if n >? 0x7f then
            c ← chr (Z.lor 0x80 (Z.land (Z.shiftr n 7) 0xff));
            Ok (bytes ++ [c])
          else Ok bytes);
      let n := match real_value with Some r => r | None => n end in
      if n >? 0x1fffff then
        c ← chr (Z.land n 0xff); Ok (bytes ++ [c])
      else
        c ← chr (Z.land n 0x7f); Ok (bytes ++ [c])
  end.

(** The readable end of a [BufferedByteStream]: the bytes not yet read. *)
Definition istream := list byte.

(** [stream.read_uchar()]. *)
Definition read_uchar : M istream Z :=
  fun s =>
    match s with
    | [] => (Raise EOStream, s)
    | b :: s' => (Ok (ord b), s')
    end.

(** The [while b & 0x80 != 0 and n < 3] loop of [decode_int], on the loop
    variables [n], [result] and [b]. *)
Fixpoint decode_int_loop (fuel : nat) (n result b : Z) : M istream (Z * Z * Z) :=
  match fuel with
  | O => timeout
  | S fuel' =>
    if negb (Z.land b 0x80 =? 0) && (n <? 3) then
      let result := Z.shiftl result 7 in
      let result := Z.lor result (Z.land b 0x7f) in
      b ← read_uchar;
      let n := n + 1 in
      decode_int_loop fuel' n result b
    else ret (n, result, b)
  end.

(** Fuel for the loop: the guard is tested at most four times. *)
Definition decode_int_fuel : nat := 4.

Definition decode_int_with (fuel : nat) (signed : bool) : M istream Z :=
  let n := 0 in
  let result := 0 in
  b ← read_uchar;
  '(n, result, b) ← decode_int_loop fuel n result b;
  (if n <? 3 then
     let result := Z.shiftl result 7 in
     let result := Z.lor result b in
     ret result
   else
     let result := Z.shiftl result 8 in
     let result := Z.lor result b in
     if negb (Z.land result 0x10000000 =? 0) then
       if signed then ret (result - 0x20000000)
       else
         let result := Z.shiftl result 1 in
         ret (result + 1)
     else ret result).

Definition decode_int (signed : bool) : M istream Z :=
  decode_int_with decode_int_fuel signed.

(** ** The Python values the codec handles *)

(** A [unicode] object: its code points. *)
Definition pyunicode := list Z.

(** The identity of a Python object ([id(obj)]). *)
Definition addr := nat.

(** What this module takes from the standard library and from the rest of
    PyAMF ([struct], [datetime], [zlib], ElementTree, [pyamf.util], the class
    alias registry): the types are kept abstract and the functions are the
    pure parts of those collaborators. *)
Class Platform : Type := {
  pyfloat : Type;                        (* float *)
  pydate : Type;                         (* datetime.datetime, .date, .time *)
  timedelta : Type;                      (* datetime.timedelta *)
  xmldoc : Type;                         (* an ElementTree document *)
  pyinstance : Type;                     (* the state of a class instance *)
  class_tables : Type;                   (* Context.classes, class_ref, class_idx
                                            and the caches of codec.Context *)
  class_definition : Type;               (* ClassDefinition *)
  class_tables_init : class_tables;      (* as Context.__init__ leaves them *)
  float_of_int : Z -> option pyfloat;    (* float(n); None: OverflowError, the
                                            integer is beyond the doubles *)
  float_mul : pyfloat -> Z -> pyfloat;   (* x * 1000.0 *)
  float_div : pyfloat -> Z -> pyfloat;   (* x / 1000.0 *)
  pack_double : pyfloat -> pystr;        (* struct.pack('!d', x) *)
  unpack_double : pystr -> pyfloat;      (* struct.unpack('!d', s)[0] *)
  is_time : pydate -> bool;              (* isinstance(n, datetime.time) *)
  get_timestamp : pydate -> pyfloat;     (* util.get_timestamp *)
  get_datetime : pyfloat -> option pydate;   (* util.get_datetime; None: it
                                                raises, the timestamp is not a
                                                number, infinite or out of range *)
  date_add : pydate -> timedelta -> option pydate;   (* d + off; None: OverflowError *)
  date_sub : pydate -> timedelta -> option pydate;   (* d - off; None: OverflowError *)
  zlib_compress : pystr -> pystr;
  zlib_decompress : pystr -> option pystr;   (* None: zlib.error *)
  ET_tostring : xmldoc -> pystr;             (* util.ET.tostring(n, 'utf-8') *)
  ET_fromstring : pystr -> option xmldoc;    (* None: a parse error *)
  utf8_encode : pyunicode -> pystr;          (* u.encode('utf-8') *)
  utf8_decode : pystr -> option pyunicode;   (* None: UnicodeDecodeError *)
}.

(** A key of a [dict]: an [int] or [long], a [str], or any other hashable
    object (a float, a tuple, [None], ...), told apart by a tag. *)
Inductive key : Type :=
| KInt (n : Z)
| KStr (s : pystr)
| KOther (tag : nat).

#[global] Instance byte_eq_dec : EqDecision byte := Byte.byte_eq_dec.
#[global] Instance key_eq_dec : EqDecision key.
Proof. solve_decision. Defined.

(** [str(n)] for an [int]. *)
Definition str_of_int (n : Z) : pystr :=
  list_byte_of_string (NilZero.string_of_int (Z.to_int n)).

Section Codec.
Context `{P : Platform}.

(** Values: immediate ones, and references to objects that have an identity. *)
Inductive value : Type :=
| VUndefined                   (* pyamf.Undefined *)
| VNone
| VBool (b : bool)
| VInt (n : Z)
| VFloat (x : pyfloat)
| VStr (s : pystr)
| VUnicode (u : pyunicode)
| VRef (a : addr).

Inductive object : Type :=
| OList (items : list value)                         (* list, tuple *)
| ODict (mixed : bool) (items : list (key * value))  (* dict / pyamf.MixedArray,
                                                        in the order of keys() *)
| ODate (d : pydate)
| OByteArray (buf : pystr) (compressed : bool)
| OXML (doc : xmldoc)
| OInstance (inst : pyinstance).

(** [n[k]] on the items of a dict. *)
Fixpoint dict_get (items : list (key * value)) (k : key) : option value :=
  match items with
  | [] => None
  | (k', v) :: items' => if decide (k' = k) then Some v else dict_get items' k
  end.

(** [n[k] = v]. *)
Fixpoint dict_set (items : list (key * value)) (k : key) (v : value)
  : list (key * value) :=
  match items with
  | [] => [(k, v)]
  | (k', v') :: items' =>
    if decide (k' = k) then (k, v) :: items' else (k', v') :: dict_set items' k v
  end.

(** [k in n]. *)
Definition dict_contains (items : list (key * value)) (k : key) : bool :=
  bool_decide (k ∈ items.*1).

(** ** The context *)

(** Modelled from the spec: [codec.IndexedCollection], the reference table
    (section 4.2): [append(x)] returns the new index, [getReferenceTo(x)] the
    index of [x] or, as the callers in this module expect, [-1]; an index
    once assigned is stable. *)
Definition table_append {A : Type} (t : list A) (x : A) : Z * list A :=
  (Z.of_nat (length t), t ++ [x]).

(** [t.index(x)]: the position of the first occurrence. *)
Fixpoint list_index {A : Type} `{EqDecision A} (t : list A) (x : A) : option nat :=
  match t with
  | [] => None
  | y :: t' => if decide (y = x) then Some O else S <$> list_index t' x
  end.

Definition table_getReferenceTo {A : Type} `{EqDecision A} (t : list A) (x : A) : Z :=
  match list_index t x with
  | Some i => Z.of_nat i
  | None => -1
  end.

Definition table_getByReference {A : Type} (t : list A) (ref : Z) : option A :=
  if ref <? 0 then None else t !! Z.to_nat ref.

(** [amf3.Context], with the object table of [codec.Context]. *)
Record Context : Type := {
  objects : list addr;
  strings : list pystr;
  legacy_xml : list addr;
  classes : class_tables;
}.

(** The state of an [Encoder] or a [Decoder] (both are [codec._Codec]s)
    together with the objects of the program.  The stream is the
    [BufferedByteStream] seen as a queue: an encoder appends to it, a decoder
    consumes it from the front. *)
Record Codec : Type := {
  stream : list byte;
  context : Context;
  heap : list object;
  use_proxies : bool;
  string_references : bool;
  timezone_offset : option timedelta;
  strict : bool;
}.

Definition set_stream (s : list byte) (c : Codec) : Codec :=
  {| stream := s; context := context c; heap := heap c;
     use_proxies := use_proxies c; string_references := string_references c;
     timezone_offset := timezone_offset c; strict := strict c |}.

Definition set_context (x : Context) (c : Codec) : Codec :=
  {| stream := stream c; context := x; heap := heap c;
     use_proxies := use_proxies c; string_references := string_references c;
     timezone_offset := timezone_offset c; strict := strict c |}.

Definition set_heap (h : list object) (c : Codec) : Codec :=
  {| stream := stream c; context := context c; heap := h;
     use_proxies := use_proxies c; string_references := string_references c;
     timezone_offset := timezone_offset c; strict := strict c |}.

Definition set_objects (o : list addr) (x : Context) : Context :=
  {| objects := o; strings := strings x; legacy_xml := legacy_xml x;
     classes := classes x |}.

Definition set_strings (s : list pystr) (x : Context) : Context :=
  {| objects := objects x; strings := s; legacy_xml := legacy_xml x;
     classes := classes x |}.

Definition set_legacy_xml (l : list addr) (x : Context) : Context :=
  {| objects := objects x; strings := strings x; legacy_xml := l;
     classes := classes x |}.

(** A fresh context ([Context.__init__]) and a codec on it, with the default
    options of the module, over the objects in [h]. *)
Definition new_context : Context :=
  {| objects := []; strings := []; legacy_xml := [];
     classes := class_tables_init |}.

Definition new_codec (data : list byte) (h : list object) : Codec :=
  {| stream := data; context := new_context; heap := h;
     use_proxies := false; string_references := true;
     timezone_offset := None; strict := false |}.

(** Reading an attribute of [self]. *)
Definition gets {A : Type} (f : Codec -> A) : M Codec A := fun c => (Ok (f c), c).

(** Modelled from the spec: the object table of [codec.Context]
    ([getObject], [getObjectReference], [addObject]), by object identity. *)
Definition getObject (ref : Z) : M Codec (option addr) :=
  gets (fun c => table_getByReference (objects (context c)) ref).

Definition getObjectReference (a : addr) : M Codec Z :=
  gets (fun c => table_getReferenceTo (objects (context c)) a).

Definition addObject (a : addr) : M Codec Z :=
  fun c =>
    let '(idx, t) := table_append (objects (context c)) a in
    (Ok idx, set_context (set_objects t (context c)) c).

(** [Context.getString], [getStringReference], [addString]. *)
Definition getString (ref : Z) : M Codec (option pystr) :=
  gets (fun c => table_getByReference (strings (context c)) ref).

Definition getStringReference (s : pystr) : M Codec Z :=
  gets (fun c => table_getReferenceTo (strings (context c)) s).

Definition addString (s : pystr) : M Codec Z :=
  if (length s =? 0)%nat then mret (-1)
  else
    fun c =>
      let '(idx, t) := table_append (strings (context c)) s in
      (Ok idx, set_context (set_strings t (context c)) c).

(** [Context.getLegacyXMLReference], [addLegacyXML]. *)
Definition getLegacyXMLReference (a : addr) : M Codec Z :=
  gets (fun c => table_getReferenceTo (legacy_xml (context c)) a).

Definition addLegacyXML (a : addr) : M Codec Z :=
  fun c =>
    let '(idx, t) := table_append (legacy_xml (context c)) a in
    (Ok idx, set_context (set_legacy_xml t (context c)) c).

(** Modelled from the spec: [getStringForUnicode] and [getUnicodeForString]
    of [codec.Context], the UTF-8 form of a unicode object and back. *)
Definition getStringForUnicode (u : pyunicode) : M Codec pystr :=
  mret (utf8_encode u).

Definition getUnicodeForString (s : option pystr) : M Codec pyunicode :=
  match s with
  | None => raise TypeError
  | Some s =>
    match utf8_decode s with
    | Some u => mret u
    | None => raise ValueError
    end
  end.

(** Creating a Python object. *)
Definition alloc (o : object) : M Codec addr :=
  fun c => (Ok (length (heap c)), set_heap (heap c ++ [o]) c).

(** Mutating the object at [a] in place. *)
Definition update (a : addr) (f : object -> object) : M Codec unit :=
  fun c =>
    match heap c !! a with
    | Some o => (Ok tt, set_heap (<[a := f o]> (heap c)) c)
    | None => (Raise TypeError, c)
    end.

(** ** The byte stream *)

(** Modelled from the spec: the byte stream interface of section 6
    ([util.BufferedByteStream]); a read past the end signals the end of the
    stream and consumes nothing. *)
Definition stream_write (bs : pystr) : M Codec unit :=
  fun c => (Ok tt, set_stream (stream c ++ bs) c).

Definition write_uchar (n : Z) : M Codec unit :=
  b ← lift (chr n); stream_write [b].

Definition write_double (x : pyfloat) : M Codec unit :=
  stream_write (pack_double x).

Definition stream_read (n : Z) : M Codec pystr :=
  fun c =>
    if (Z.of_nat (length (stream c)) <? n) then (Raise EOStream, c)
    else (Ok (take (Z.to_nat n) (stream c)),
          set_stream (drop (Z.to_nat n) (stream c)) c).

Definition read_double : M Codec pyfloat :=
  bs ← stream_read 8; mret (unpack_double bs).

(** Running a function of the stream alone on [self.stream]. *)
Definition on_stream {A : Type} (m : M istream A) : M Codec A :=
  fun c => let '(r, s) := m (stream c) in (r, set_stream s c).

End Codec.

(** The parts of PyAMF outside this module that run code of their own on the
    codec: the proxy tables of [codec.Context] and the class alias registry,
    with the statements of [writeObject] and [readObject] that only consult
    them (the trait header and the attributes of an instance). *)
Class Callbacks `{P : Platform} : Type := {
  (* codec.Context.getProxyForObject, getObjectForProxy *)
  getProxyForObject : addr -> M Codec value;
  getObjectForProxy : value -> M Codec value;
  (* Encoder.writeObject from "object is not referenced, serialise it" on;
     the first argument is self.writeElement *)
  writeObject_serialise :
    (option bool -> value -> M Codec unit) -> addr -> pyinstance -> M Codec unit;
  (* Decoder._getClassDefinition *)
  _getClassDefinition : Z -> M Codec class_definition;
  (* class_def.alias.createInstance(codec=self) *)
  createInstance : class_definition -> M Codec addr;
  (* Decoder.readObject after self.context.addObject(obj); the first
     argument is self.readElement, the last one use_proxies *)
  readObject_attributes :
    M Codec value -> class_definition -> addr -> bool -> M Codec value;
}.

Section Encoder.
Context `{P : Platform} `{C : !Callbacks}.

(** [len(s)]. *)
Definition len {A : Type} (s : list A) : Z := Z.of_nat (length s).

(** [use_proxies] when the keyword argument is [None]. *)
Definition default_use_proxies (arg : option bool) : M Codec bool :=
  match arg with
  | None => gets use_proxies
  | Some b => mret b
  end.

Definition writeUndefined : M Codec unit := stream_write [TYPE_UNDEFINED].

Definition writeNull : M Codec unit := stream_write [TYPE_NULL].

Definition writeBoolean (n : bool) : M Codec unit :=
  let t := TYPE_BOOL_TRUE in
  let t := if negb n then TYPE_BOOL_FALSE else t in
  stream_write [t].

Definition _writeInteger (n : Z) : M Codec unit :=
  bs ← lift (encode_int n); stream_write bs.

Definition writeNumber (n : pyfloat) : M Codec unit :=
  stream_write [TYPE_NUMBER];;
  write_double n.

Definition writeInteger (n : Z) : M Codec unit :=
  if (n <? MIN_29B_INT) || (n >? MAX_29B_INT) then
    match float_of_int n with
    | Some x => writeNumber x
    | None => raise OverflowError
    end
  else
    stream_write [TYPE_INTEGER];;
    bs ← lift (encode_int n); stream_write bs.

Definition _writeString (s : pystr) : M Codec unit :=
  let inline : M Codec unit :=
    _writeInteger (Z.lor (Z.shiftl (len s) 1) REFERENCE_BIT);;
    stream_write s in
  refs ← gets string_references;
  if (refs : bool) then
    ref ← getStringReference s;
    if negb (ref =? -1) then _writeInteger (Z.shiftl ref 1)
    else addString s;; inline
  else inline.

Definition writeUnicode (u : pyunicode) (writeType : bool) : M Codec unit :=
  (if writeType then stream_write [TYPE_STRING] else mret tt);;
  match u with
  | [] => write_uchar REFERENCE_BIT
  | _ => s ← getStringForUnicode u; _writeString s
  end.

Definition writeString (s : pystr) (writeType : bool) : M Codec unit :=
  (if writeType then stream_write [TYPE_STRING] else mret tt);;
  _writeString s.

Definition writeLabel (s : pystr) : M Codec unit := _writeString s.

(** [writeDate] after [self.context.addObject(n)]. *)
Definition writeDate_value (n : pydate) : M Codec unit :=
  write_uchar REFERENCE_BIT;;
  tz ← gets timezone_offset;
  n ← match (tz : option timedelta) with
      | Some off =>
        match date_sub n off with
        | Some n' => mret n'
        | None => raise OverflowError
        end
      | None => mret n
      end;
  let ms := get_timestamp n in
  write_double (float_mul ms 1000).

Definition writeDate (a : addr) (n : pydate) : M Codec unit :=
  if is_time n then raise EncodeError
  else
    stream_write [TYPE_DATE];;
    ref ← getObjectReference a;
    if negb (ref =? -1) then _writeInteger (Z.shiftl ref 1)
    else
      addObject a;;
      writeDate_value n.

Definition writeProxy (writeElement : option bool -> value -> M Codec unit)
    (a : addr) : M Codec unit :=
  proxy ← getProxyForObject a;
  writeElement (Some false) proxy.

(** [writeList] after [self.context.addObject(n)]. *)
Definition writeList_items (writeElement : option bool -> value -> M Codec unit)
    (n : list value) : M Codec unit :=
  _writeInteger (Z.lor (Z.shiftl (len n) 1) REFERENCE_BIT);;
  write_uchar 0x01;;
  for_each n (writeElement None).

Definition writeList (writeElement : option bool -> value -> M Codec unit)
    (a : addr) (n : list value) (use_proxies : option bool) : M Codec unit :=
  use_proxies ← default_use_proxies use_proxies;
  if (use_proxies : bool) then writeProxy writeElement a
  else
    stream_write [TYPE_ARRAY];;
    ref ← getObjectReference a;
    if negb (ref =? -1) then _writeInteger (Z.shiftl ref 1)
    else
      addObject a;;
      writeList_items writeElement n.

(** The first loop of [writeDict]: the keys by type. *)
Fixpoint classify_keys (keys : list key) (int_keys : list Z) (str_keys : list key)
  : outcome (list Z * list key) :=
  match keys with
  | [] => Ok (int_keys, str_keys)
  | x :: keys' =>
    match x with
    | KInt i => classify_keys keys' (int_keys ++ [i]) str_keys
    | KStr _ => classify_keys keys' int_keys (str_keys ++ [x])
    | KOther _ => Raise ValueError
    end
  end.

(** [for x in int_keys: if test(x): str_keys.append(conv(x));
    del int_keys[int_keys.index(x)]]: the iterator of the loop is the index
    [i] into the list that the body shortens. *)
Fixpoint move_keys (fuel : nat) (test : Z -> bool) (conv : Z -> key) (i : nat)
    (int_keys : list Z) (str_keys : list key) : outcome (list Z * list key) :=
  match fuel with
  | O => Timeout
  | S fuel' =>
    match int_keys !! i with
    | None => Ok (int_keys, str_keys)
    | Some x =>
      if test x then
        let str_keys := str_keys ++ [conv x] in
        match list_index int_keys x with
        | Some j => move_keys fuel' test conv (S i) (delete j int_keys) str_keys
        | None => Raise ValueError
        end
      else move_keys fuel' test conv (S i) int_keys str_keys
    end
  end.

(** [n[k]]. *)
Definition dict_getitem (n : list (key * value)) (k : key) : M Codec value :=
  match dict_get n k with
  | Some v => mret v
  | None => raise KeyError
  end.

(** [writeDict] after [self.context.addObject(n)]. *)
Definition writeDict_items (writeElement : option bool -> value -> M Codec unit)
    (n : list (key * value)) : M Codec unit :=
  let keys := n.*1 in
  '(int_keys, str_keys) ← lift (classify_keys keys [] []);
  let l := len int_keys in
  '(int_keys, str_keys) ←
    lift (move_keys (S (length int_keys))
            (fun x => (l <? x) && (x <=? 0)) KInt 0 int_keys str_keys);
  let int_keys := merge_sort Z.le int_keys in
  '(int_keys, str_keys) ←
    (if (len int_keys >? 0) && negb (default 0 (head int_keys) =? 0) then
       lift (move_keys (S (length int_keys))
               (fun _ => true) (fun x => KStr (str_of_int x)) 0
               int_keys str_keys)
     else mret (int_keys, str_keys));
  _writeInteger (Z.lor (Z.shiftl (len int_keys) 1) REFERENCE_BIT);;
  for_each str_keys (fun x =>
    match x with
    | KStr s => _writeString s
    | _ => raise TypeError      (* len() of an int *)
    end;;
    v ← dict_getitem n x;
    writeElement None v);;
  write_uchar 0x01;;
  for_each int_keys (fun k =>
    v ← dict_getitem n (KInt k);
    writeElement None v).

Definition writeDict (writeElement : option bool -> value -> M Codec unit)
    (a : addr) (n : list (key * value)) (use_proxies : option bool) : M Codec unit :=
  if dict_contains n (KStr []) then raise EncodeError
  else
    use_proxies ← default_use_proxies use_proxies;
    if (use_proxies : bool) then writeProxy writeElement a
    else
      stream_write [TYPE_ARRAY];;
      ref ← getObjectReference a;
      if negb (ref =? -1) then _writeInteger (Z.shiftl ref 1)
      else
        addObject a;;
        writeDict_items writeElement n.

Definition writeObject (writeElement : option bool -> value -> M Codec unit)
    (a : addr) (obj : pyinstance) (use_proxies : option bool) : M Codec unit :=
  use_proxies ← default_use_proxies use_proxies;
  if (use_proxies : bool) then writeProxy writeElement a
  else
    stream_write [TYPE_OBJECT];;
    ref ← getObjectReference a;
    if negb (ref =? -1) then _writeInteger (Z.shiftl ref 1)
    else
      addObject a;;
      writeObject_serialise writeElement a obj.

(** [ByteArray.__str__]. *)
Definition ByteArray_str (buf : pystr) (compressed : bool) : outcome pystr :=
  if negb compressed then Ok buf
  else
    let buf := zlib_compress buf in
    match buf with
    | [] => Raise IndexError
    | b0 :: _ => Ok ([b0] ++ [xda] ++ drop 2 buf)
    end.

(** [writeByteArray] after [self.context.addObject(n)]. *)
Definition writeByteArray_bytes (n : pystr) (compressed : bool) : M Codec unit :=
  buf ← lift (ByteArray_str n compressed);
  let l := len buf in
  _writeInteger (Z.lor (Z.shiftl l 1) REFERENCE_BIT);;
  stream_write buf.

Definition writeByteArray (a : addr) (n : pystr) (compressed : bool) : M Codec unit :=
  stream_write [TYPE_BYTEARRAY];;
  ref ← getObjectReference a;
  if negb (ref =? -1) then _writeInteger (Z.shiftl ref 1)
  else
    addObject a;;
    writeByteArray_bytes n compressed.

Definition writeXML (a : addr) (n : xmldoc) : M Codec unit :=
  i ← getLegacyXMLReference a;
  (if i =? -1 then stream_write [TYPE_XMLSTRING] else stream_write [TYPE_XML]);;
  ref ← getObjectReference a;
  if negb (ref =? -1) then _writeInteger (Z.shiftl ref 1)
  else
    addObject a;;
    _writeString (ET_tostring n).

(** Modelled from the spec: [codec.Encoder.writeElement], the dispatch on the
    type of the value of section 4.5 (first match wins); [use_proxies] is the
    keyword argument that [writeProxy] passes on.  The recursion of the
    writers through [self.writeElement] is bounded by [fuel]. *)
Fixpoint writeElement (fuel : nat) (use_proxies : option bool) (data : value)
  : M Codec unit :=
  match fuel with
  | O => timeout
  | S fuel' =>
    match data with
    | VUndefined => writeUndefined
    | VNone => writeNull
    | VBool b => writeBoolean b
    | VInt n => writeInteger n
    | VFloat x => writeNumber x
    | VStr s => writeString s true
    | VUnicode u => writeUnicode u true
    | VRef a =>
      obj ← gets (fun c => heap c !! a);
      match (obj : option object) with
      | None => raise TypeError
      | Some (ODate d) => writeDate a d
      | Some (OList items) => writeList (writeElement fuel') a items use_proxies
      | Some (ODict _ items) => writeDict (writeElement fuel') a items use_proxies
      | Some (OByteArray buf compressed) => writeByteArray a buf compressed
      | Some (OXML doc) => writeXML a doc
      | Some (OInstance inst) => writeObject (writeElement fuel') a inst use_proxies
      end
    end
  end.

End Encoder.

Section Decoder.
Context `{P : Platform} `{C : !Callbacks}.

Definition readProxy (obj : value) : M Codec value := getObjectForProxy obj.

Definition readUndefined : M Codec value := mret VUndefined.

Definition readNull : M Codec value := mret VNone.

Definition readBoolFalse : M Codec value := mret (VBool false).

Definition readBoolTrue : M Codec value := mret (VBool true).

Definition readNumber : M Codec value := x ← read_double; mret (VFloat x).

Definition readInteger (signed : bool) : M Codec Z :=
  on_stream (decode_int signed).

Definition _readLength : M Codec (Z * bool) :=
  x ← on_stream (decode_int false);
  mret (Z.shiftr x 1, Z.land x REFERENCE_BIT =? 0).

Definition readUnicode : M Codec pyunicode :=
  '(length, is_reference) ← _readLength;
  if (is_reference : bool) then
    s ← getString length;
    getUnicodeForString s
  else if length =? 0 then mret []
  else
    result ← stream_read length;
    addString result;;
    getUnicodeForString (Some result).

(** The result is [None] when a reference has no string. *)
Definition readString : M Codec (option pystr) :=
  '(length, is_reference) ← _readLength;
  if (is_reference : bool) then getString length
  else if length =? 0 then mret (Some [])
  else
    result ← stream_read length;
    addString result;;
    mret (Some result).

(** What [context.getObject] returns, as a value. *)
Definition value_of_ref (o : option addr) : value :=
  match o with
  | Some a => VRef a
  | None => VNone
  end.

Definition readDate : M Codec value :=
  ref ← readInteger false;
  if Z.land ref REFERENCE_BIT =? 0 then
    o ← getObject (Z.shiftr ref 1); mret (value_of_ref o)
  else
    ms ← read_double;
    match get_datetime (float_div ms 1000) with
    | None => raise ExternalError
    | Some result =>
      tz ← gets timezone_offset;
      result ← match (tz : option timedelta) with
               | Some off =>
                 match date_add result off with
                 | Some result' => mret result'
                 | None => raise OverflowError
                 end
               | None => mret result
               end;
      result ← alloc (ODate result);
      addObject result;;
      mret (VRef result)
    end.

(** [result.append(x)] and [result[k] = x] on the object at [a]. *)
Definition list_append (x : value) (o : object) : object :=
  match o with
  | OList items => OList (items ++ [x])
  | _ => o
  end.

Definition dict_setitem (k : key) (x : value) (o : object) : object :=
  match o with
  | ODict mixed items => ODict mixed (dict_set items k x)
  | _ => o
  end.

(** The [while key:] loop of [readArray]. *)
Fixpoint readArray_assoc (fuel : nat) (readElement : M Codec value) (result : addr)
    (key : option pystr) : M Codec unit :=
  match fuel with
  | O => timeout
  | S fuel' =>
    match key with
    | Some (b :: k) =>
      el ← readElement;
      update result (dict_setitem (KStr (b :: k)) el);;
      key ← readString;
      readArray_assoc fuel' readElement result key
    | _ => mret tt
    end
  end.

(** [readArray] after [self.context.addObject(result)], for a list and for
    a [pyamf.MixedArray]. *)
Definition readArray_list (readElement : M Codec value) (size : Z) (result : addr)
  : M Codec value :=
  for_each (seqZ 0 size) (fun i =>
    el ← readElement;
    update result (list_append el));;
  mret (VRef result).

Definition readArray_mixed (fuel : nat) (readElement : M Codec value) (size : Z)
    (result : addr) (key : option pystr) : M Codec value :=
  readArray_assoc fuel readElement result key;;
  for_each (seqZ 0 size) (fun i =>
    el ← readElement;
    update result (dict_setitem (KInt i) el));;
  mret (VRef result).

Definition readArray (fuel : nat) (readElement : M Codec value) : M Codec value :=
  size ← readInteger false;
  if Z.land size REFERENCE_BIT =? 0 then
    o ← getObject (Z.shiftr size 1); mret (value_of_ref o)
  else
    let size := Z.shiftr size 1 in
    key ← readString;
    if bool_decide (key = Some []) then
      result ← alloc (OList []);
      addObject result;;
      readArray_list readElement size result
    else
      result ← alloc (ODict true []);
      addObject result;;
      readArray_mixed fuel readElement size result key.

Definition readObject (readElement : M Codec value) (use_proxies : option bool)
  : M Codec value :=
  use_proxies ← default_use_proxies use_proxies;
  ref ← readInteger false;
  if Z.land ref REFERENCE_BIT =? 0 then
    obj ← getObject (Z.shiftr ref 1);
    match (obj : option addr) with
    | None => raise ReferenceError
    | Some a =>
      if (use_proxies : bool) then readProxy (VRef a) else mret (VRef a)
    end
  else
    let ref := Z.shiftr ref 1 in
    class_def ← _getClassDefinition ref;
    obj ← createInstance class_def;
    addObject obj;;
    readObject_attributes readElement class_def obj use_proxies.

Definition _readXML (legacy : bool) : M Codec value :=
  ref ← readInteger false;
  if Z.land ref REFERENCE_BIT =? 0 then
    o ← getObject (Z.shiftr ref 1); mret (value_of_ref o)
  else
    xmlstring ← stream_read (Z.shiftr ref 1);
    match ET_fromstring xmlstring with
    | None => raise ExternalError
    | Some doc =>
      x ← alloc (OXML doc);
      addObject x;;
      (if legacy then addLegacyXML x;; mret tt else mret tt);;
      mret (VRef x)
    end.

Definition readXMLString : M Codec value := _readXML false.

Definition readXML : M Codec value := _readXML true.

Definition readByteArray : M Codec value :=
  ref ← readInteger false;
  if Z.land ref REFERENCE_BIT =? 0 then
    o ← getObject (Z.shiftr ref 1); mret (value_of_ref o)
  else
    buffer ← stream_read (Z.shiftr ref 1);
    let '(buffer, compressed) :=
      match zlib_decompress buffer with
      | Some inflated => (inflated, true)
      | None => (buffer, false)
      end in
    obj ← alloc (OByteArray buffer compressed);
    addObject obj;;
    mret (VRef obj).

(** Modelled from the spec: [codec.Decoder.readElement] (section 4.4): read
    the marker byte, signalling the end of the stream if there is none, and
    dispatch on it through [Decoder.type_map]; the recursion of the readers
    through [self.readElement] is bounded by [fuel]. *)
Fixpoint readElement (fuel : nat) : M Codec value :=
  match fuel with
  | O => timeout
  | S fuel' =>
    t ← stream_read 1;
    match (t : pystr) with
    | [t] =>
      if decide (t = TYPE_UNDEFINED) then readUndefined
      else if decide (t = TYPE_NULL) then readNull
      else if decide (t = TYPE_BOOL_FALSE) then readBoolFalse
      else if decide (t = TYPE_BOOL_TRUE) then readBoolTrue
      else if decide (t = TYPE_INTEGER) then n ← readInteger true; mret (VInt n)
      else if decide (t = TYPE_NUMBER) then readNumber
      else if decide (t = TYPE_STRING) then u ← readUnicode; mret (VUnicode u)
      else if decide (t = TYPE_XML) then readXML
      else if decide (t = TYPE_DATE) then readDate
      else if decide (t = TYPE_ARRAY) then readArray fuel' (readElement fuel')
      else if decide (t = TYPE_OBJECT) then readObject (readElement fuel') None
      else if decide (t = TYPE_XMLSTRING) then readXMLString
      else if decide (t = TYPE_BYTEARRAY) then readByteArray
      else raise DecodeError
    | _ => raise EOStream
    end
  end.

End Decoder.

(** ** Notions used to state the properties *)

(** The byte that [chr] returns on an argument in range. *)
Definition the_byte (i : Z) : byte :=
  match Byte.of_N (Z.to_N i) with Some b => b | None => x00 end.

(** The 29-bit unsigned representation of an [Integer] payload. *)
Definition u29 (n : Z) : Z := if n <? 0 then n + 2 ^ 29 else n.

(** The wire form of a 29-bit value, in arithmetic: seven payload bits under
    a continuation bit in each prefix byte, and all eight bits in a fourth
    byte. *)
Definition u29_wire (u : Z) : pystr :=
  if u <=? 0x7f then [the_byte u]
  else if u <=? 0x3fff then
    [the_byte (128 + u / 2 ^ 7); the_byte (u mod 128)]
  else if u <=? 0x1fffff then
    [the_byte (128 + u / 2 ^ 14); the_byte (128 + (u / 2 ^ 7) mod 128);
     the_byte (u mod 128)]
  else
    [the_byte (128 + u / 2 ^ 22); the_byte (128 + (u / 2 ^ 15) mod 128);
     the_byte (128 + (u / 2 ^ 8) mod 128); the_byte (u mod 256)].

(** The continuation flag of a byte read from the stream. *)
Definition continues (b : byte) : bool := negb (Z.land (ord b) 0x80 =? 0).

(** The value that a four-byte form accumulates. *)
Definition u29_value4 (b1 b2 b3 b4 : byte) : Z :=
  (ord b1 mod 128) * 2 ^ 22 + (ord b2 mod 128) * 2 ^ 15
  + (ord b3 mod 128) * 2 ^ 8 + ord b4.

(** The state in which the contents of a composite value are written: the
    marker is on the stream and the value is in the object table. *)
Definition registered `{P : Platform} (marker : byte) (a : addr) (c : Codec) : Codec :=
  set_context (set_objects (objects (context c) ++ [a]) (context c))
    (set_stream (stream c ++ [marker]) c).

(** The integer keys and the string keys of a mapping, in the order of
    [keys()]. *)
Definition int_keys_of (keys : list key) : list Z :=
  omap (fun x => match x with KInt i => Some i | _ => None end) keys.

Definition str_keys_of (keys : list key) : list pystr :=
  omap (fun x => match x with KStr s => Some s | _ => None end) keys.

(** The state in which a decoded object has been added to the object table. *)
Definition with_object `{P : Platform} (a : addr) (c : Codec) : Codec :=
  set_context (set_objects (objects (context c) ++ [a]) (context c)) c.

(** The date that [readDate] builds from the eight bytes of the payload, or
    the exception that building it raises. *)
Definition date_of_payload `{P : Platform} (payload : pystr) (tz : option timedelta)
  : outcome pydate :=
  match get_datetime (float_div (unpack_double payload) 1000) with
  | None => Raise ExternalError
  | Some result =>
    match tz with
    | Some off =>
      match date_add result off with
      | Some result' => Ok result'
      | None => Raise OverflowError
      end
    | None => Ok result
    end
  end.

(** A platform without floats, dates or documents, whose only class has no
    attributes and no traits to write: enough to run the codec on integers,
    strings, lists, dicts, byte arrays and plain instances.  As in Python,
    an integer of [2^1024] or more has no float, and a timestamp has no date
    when its first byte is [0x7f] or [0xff] (infinite, not a number or far out
    of range). *)
Definition bare_platform : Platform :=
  {| pyfloat := bool; pydate := unit; timedelta := unit; xmldoc := unit;
     pyinstance := unit; class_tables := unit; class_definition := unit;
     class_tables_init := tt;
     float_of_int := fun n => if Z.abs n <? 2 ^ 1024 then Some true else None;
     float_mul := fun x _ => x;
     float_div := fun x _ => x;
     pack_double := fun _ => [x00; x00; x00; x00; x00; x00; x00; x00];
     unpack_double := fun s =>
       match s with
       | b :: _ => negb (bool_decide (b = x7f) || bool_decide (b = xff))
       | [] => true
       end;
     is_time := fun _ => false;
     get_timestamp := fun _ => true;
     get_datetime := fun x => if x then Some tt else None;
     date_add := fun d _ => Some d; date_sub := fun d _ => Some d;
     zlib_compress := fun s => s; zlib_decompress := fun _ => None;
     ET_tostring := fun _ => []; ET_fromstring := fun _ => Some tt;
     utf8_encode := fun _ => []; utf8_decode := fun _ => None |}.

Definition bare_callbacks : @Callbacks bare_platform :=
  let P := bare_platform in
  {| getProxyForObject := fun _ => raise ExternalError;
     getObjectForProxy := fun _ => raise ExternalError;
     writeObject_serialise := fun _ _ _ => ret tt;
     _getClassDefinition := fun _ => ret (tt : @class_definition P);
     createInstance := fun _ => alloc (OInstance (tt : @pyinstance P));
     readObject_attributes := fun _ _ obj _ => ret (VRef obj) |}.

(** ** Notions used to state the further properties *)

(** What a writer leaves when the value is already in the object table at
    index [ref]: the marker and the U29 header [ref << 1]. *)
Definition reference_form `{P : Platform} (marker : byte) (ref : Z) (c : Codec) : outcome unit * Codec :=
  match encode_int (Z.shiftl ref 1) with
  | Ok hdr => (Ok tt, set_stream (stream c ++ marker :: hdr) c)
  | Raise e => (Raise e, set_stream (stream c ++ [marker]) c)
  | Timeout => (Timeout, set_stream (stream c ++ [marker]) c)
  end.

(** The bytes of a list of integers of the 29-bit range, each behind its
    marker. *)
Definition integers_wire (xs : list Z) : list byte :=
  concat ((fun x => x04 :: u29_wire (u29 x)) <$> xs).





Definition with_strings `{P : Platform} (st : list pystr) (c : Codec) : Codec :=
  set_context (set_strings st (context c)) c.

(** ** [DataOutput] and [DataInput] *)

Module DataOutput.
Section DataOutput.
Context `{P : Platform}.

Definition writeBoolean (value : value) : M Codec unit :=
  match value with
  | VBool true => write_uchar 1
  | VBool false => write_uchar 0
  | _ => raise ValueError
  end.

End DataOutput.
End DataOutput.

Module DataInput.
Section DataInput.
Context `{P : Platform}.

Definition readBoolean : M Codec bool :=
  byte ← stream_read 1;
  if decide ((byte : pystr) = [x00]) then mret false
  else if decide (byte = [x01]) then mret true
  else raise ValueError.

End DataInput.
End DataInput.

(** ** The class tables of [amf3.Context] *)

Module ClassTables.

(** [Context.classes], [class_ref] and [class_idx] on their own, together
    with the [reference] attribute of the class definitions; a class and a
    class definition are named by their identity. *)
Record tables : Type := {
  classes : gmap nat nat;
  class_ref : gmap Z nat;
  class_idx : Z;
  reference : gmap nat Z;
}.

Definition clear (x : tables) : tables :=
  {| classes := ∅; class_ref := ∅; class_idx := 0; reference := reference x |}.

Definition getClassByReference (ref : Z) (x : tables) : option nat :=
  class_ref x !! ref.

Definition getClass (klass : nat) (x : tables) : option nat :=
  classes x !! klass.

Definition addClass (alias klass : nat) (x : tables) : Z * tables :=
  let ref := class_idx x in
  (ref,
   {| classes := <[klass := alias]> (classes x);
      class_ref := <[ref := alias]> (class_ref x);
      class_idx := ref + 1;
      reference := <[alias := ref]> (reference x) |}).

(** A run of calls of [addClass], with the references they return. *)
Fixpoint addClasses (adds : list (nat * nat)) (x : tables) : list Z * tables :=
  match adds with
  | [] => ([], x)
  | (alias, klass) :: adds' =>
    let '(ref, x1) := addClass alias klass x in
    let '(refs, x2) := addClasses adds' x1 in
    (ref :: refs, x2)
  end.

(** What the tables keep between calls: the references in use are those
    below [class_idx], and the definition of a class is found under its
    own reference. *)
Definition consistent (x : tables) : Prop :=
  0 <= class_idx x
  /\ (forall r, is_Some (class_ref x !! r) -> 0 <= r < class_idx x)
  /\ (forall klass alias,
        classes x !! klass = Some alias ->
        exists r, reference x !! alias = Some r /\ class_ref x !! r = Some alias).

End ClassTables.

(** A platform as bare as [bare_platform], except that an XML document is
    its own text: enough to run the codec on documents. *)
Definition text_platform : Platform :=
  {| pyfloat := unit; pydate := unit; timedelta := unit; xmldoc := pystr;
     pyinstance := unit; class_tables := unit; class_definition := unit;
     class_tables_init := tt;
     float_of_int := fun _ => Some tt; float_mul := fun _ _ => tt;
     float_div := fun _ _ => tt;
     pack_double := fun _ => [x00; x00; x00; x00; x00; x00; x00; x00];
     unpack_double := fun _ => tt;
     is_time := fun _ => false;
     get_timestamp := fun _ => tt; get_datetime := fun _ => Some tt;
     date_add := fun d _ => Some d; date_sub := fun d _ => Some d;
     zlib_compress := fun s => s; zlib_decompress := fun _ => None;
     ET_tostring := fun doc => doc; ET_fromstring := fun s => Some s;
     utf8_encode := fun _ => []; utf8_decode := fun _ => None |}.

Definition text_callbacks : @Callbacks text_platform :=
  let P := text_platform in
  {| getProxyForObject := fun _ => raise ExternalError;
     getObjectForProxy := fun _ => raise ExternalError;
     writeObject_serialise := fun _ _ _ => ret tt;
     _getClassDefinition := fun _ => ret (tt : @class_definition P);
     createInstance := fun _ => alloc (OInstance (tt : @pyinstance P));
     readObject_attributes := fun _ _ obj _ => ret (VRef obj) |}.

(** * Properties *)

(** ** Bytes and bit arithmetic *)

Lemma ord_range (b : byte) : 0 <= ord b < 256.
Proof.
  unfold ord. pose proof (Byte.to_N_bounded b) as H. lia.
Qed.

Lemma chr_the_byte (i : Z) : 0 <= i < 256 -> chr i = Ok (the_byte i).
Proof.
  intros Hi. unfold chr, the_byte.
  replace ((0 <=? i) && (i <? 256)) with true
    by (symmetry; apply andb_true_intro; split; [apply Z.leb_le | apply Z.ltb_lt]; lia).
  destruct (Byte.of_N (Z.to_N i)) as [b|] eqn:E; [reflexivity|].
  apply Byte.of_N_None_iff in E. lia.
Qed.

Lemma ord_the_byte (i : Z) : 0 <= i < 256 -> ord (the_byte i) = i.
Proof.
  intros Hi. unfold ord, the_byte.
  destruct (Byte.of_N (Z.to_N i)) as [b|] eqn:E.
  - apply Byte.to_of_N in E. rewrite E. lia.
  - apply Byte.of_N_None_iff in E. lia.
Qed.

Lemma land_low_shiftl (a b k : Z) :
  0 <= k -> 0 <= b < 2 ^ k -> Z.land (Z.shiftl a k) b = 0.
Proof.
  intros Hk Hb. apply Z.bits_inj'. intros i Hi.
  rewrite Z.land_spec, Z.bits_0.
  destruct (Z.lt_ge_cases i k) as [Hlt|Hge].
  - rewrite Z.shiftl_spec_low by lia. reflexivity.
  - replace (Z.testbit b i) with false; [apply andb_false_r|].
    symmetry. apply (proj1 (Z.bounded_iff_bits_nonneg k b Hk (proj1 Hb)));
      [apply Hb | exact Hge].
Qed.

(** [(a << k) | b] puts [b] into the [k] low bits freed by the shift. *)
Lemma lor_shiftl_add (a b k : Z) :
  0 <= k -> 0 <= b < 2 ^ k -> Z.lor (Z.shiftl a k) b = a * 2 ^ k + b.
Proof.
  intros Hk Hb.
  pose proof (Z.add_lor_land (Z.shiftl a k) b) as H.
  rewrite land_low_shiftl in H by assumption.
  rewrite Z.shiftl_mul_pow2 in * by assumption. lia.
Qed.

Lemma land_127 (x : Z) : Z.land x 0x7f = x mod 128.
Proof. change 0x7f with (Z.ones 7). rewrite Z.land_ones by lia. reflexivity. Qed.

Lemma land_255 (x : Z) : Z.land x 0xff = x mod 256.
Proof. change 0xff with (Z.ones 8). rewrite Z.land_ones by lia. reflexivity. Qed.

(** [x & 2^k] isolates bit [k]. *)
Lemma land_pow2 (x k : Z) :
  0 <= k -> Z.land x (2 ^ k) = ((x / 2 ^ k) mod 2) * 2 ^ k.
Proof.
  intros Hk. rewrite <- Z.testbit_spec' by assumption.
  apply Z.bits_inj'. intros i Hi.
  rewrite Z.land_spec, Z.pow2_bits_eqb, Z.mul_pow2_bits by assumption.
  destruct (Z.eqb_spec k i) as [->|Hne].
  - rewrite Z.sub_diag, Z.b2z_bit0. apply andb_true_r.
  - rewrite andb_false_r. symmetry.
    destruct (Z.lt_ge_cases i k) as [Hlt|Hge].
    + apply Z.testbit_neg_r. lia.
    + destruct (Z.testbit x k); simpl.
      * replace 1 with (2 ^ 0) by reflexivity. apply Z.pow2_bits_false. lia.
      * apply Z.bits_0.
Qed.

Lemma land_128 (x : Z) : Z.land x 0x80 = ((x / 128) mod 2) * 128.
Proof. change 0x80 with (2 ^ 7). exact (land_pow2 x 7 ltac:(lia)). Qed.

(** [0x80 | y] on a byte value: the continuation bit on top of seven bits. *)
Lemma lor_128 (y : Z) : 0 <= y < 256 -> Z.lor 0x80 y = 128 + y mod 128.
Proof.
  intros Hy.
  assert (Hr : 0 <= y mod 128 < 2 ^ 7) by (apply Z.mod_pos_bound; lia).
  pose proof (lor_shiftl_add 1 (y mod 128) 7 ltac:(lia) Hr) as H1.
  change (Z.shiftl 1 7) with 0x80 in H1.
  destruct (Z.lt_ge_cases y 128) as [Hlt|Hge].
  - rewrite Z.mod_small in * by lia. rewrite H1. lia.
  - assert (Hy' : y = Z.lor 0x80 (y mod 128)).
    { rewrite H1. pose proof (Z.div_mod y 128 ltac:(lia)).
      assert (y / 128 = 1)
        by (symmetry; apply Z.div_unique with (r := y - 128); lia).
      lia. }
    rewrite Hy' at 1. rewrite Z.lor_assoc, Z.lor_diag, H1. lia.
Qed.

(** ** The U29 codec *)

Lemma chr_cont (x : Z) :
  chr (Z.lor 0x80 (Z.land x 0xff)) = Ok (the_byte (128 + x mod 128)).
Proof.
  rewrite land_255.
  assert (H : 0 <= x mod 256 < 256) by (apply Z.mod_pos_bound; lia).
  rewrite lor_128 by exact H.
  replace ((x mod 256) mod 128) with (x mod 128)
    by (clear H; Z.div_mod_to_equations; lia).
  apply chr_the_byte.
  pose proof (Z.mod_pos_bound x 128 ltac:(lia)). lia.
Qed.

Lemma chr_low7 (x : Z) : chr (Z.land x 0x7f) = Ok (the_byte (x mod 128)).
Proof.
  rewrite land_127. apply chr_the_byte.
  pose proof (Z.mod_pos_bound x 128 ltac:(lia)). lia.
Qed.

Lemma chr_low8 (x : Z) : chr (Z.land x 0xff) = Ok (the_byte (x mod 256)).
Proof. rewrite land_255. apply chr_the_byte, Z.mod_pos_bound. lia. Qed.

Lemma encode_int_overflow (n : Z) :
  n < MIN_29B_INT \/ MAX_29B_INT < n -> encode_int n = Raise OverflowError.
Proof.
  intros H. unfold encode_int, ENCODED_INT_CACHE. rewrite lookup_empty.
  destruct ((n <? MIN_29B_INT) || (n >? MAX_29B_INT)) eqn:E; [reflexivity|].
  apply orb_false_elim in E as [E1 E2].
  apply Z.ltb_ge in E1. rewrite Z.gtb_ltb in E2. apply Z.ltb_ge in E2. lia.
Qed.

Ltac gtb_case :=
  match goal with
  | |- context [?a >? ?b] =>
    rewrite (Z.gtb_ltb a b); destruct (Z.ltb_spec b a); try lia
  end.

Ltac encode_steps :=
  repeat first
    [ gtb_case
    | rewrite chr_cont | rewrite chr_low7 | rewrite chr_low8
    | progress cbn [mbind outcome_bind obind app] ].

Lemma encode_int_wire (n : Z) :
  MIN_29B_INT <= n <= MAX_29B_INT -> encode_int n = Ok (u29_wire (u29 n)).
Proof.
  unfold MIN_29B_INT, MAX_29B_INT. intros Hn.
  unfold encode_int, ENCODED_INT_CACHE. rewrite lookup_empty.
  unfold MIN_29B_INT, MAX_29B_INT.
  replace ((n <? - 0x10000000) || (n >? 0xFFFFFFF)) with false
    by (symmetry; apply orb_false_intro;
        [apply Z.ltb_ge | rewrite Z.gtb_ltb; apply Z.ltb_ge]; lia).
  change 0x20000000 with (2 ^ 29). fold (u29 n).
  assert (Hu : 0 <= u29 n < 2 ^ 29)
    by (unfold u29; destruct (Z.ltb_spec n 0); lia).
  generalize dependent (u29 n). clear n Hn. intros u Hu.
  unfold u29_wire.
  destruct (Z.leb_spec u 0x7f); [|destruct (Z.leb_spec u 0x3fff);
    [|destruct (Z.leb_spec u 0x1fffff)]].
  - encode_steps. rewrite Z.mod_small by lia. reflexivity.
  - encode_steps. rewrite Z.shiftr_div_pow2 by lia.
    replace ((u / 2 ^ 7) mod 128) with (u / 2 ^ 7)
      by (Z.div_mod_to_equations; lia).
    reflexivity.
  - encode_steps. rewrite !Z.shiftr_div_pow2 by lia.
    replace ((u / 2 ^ 14) mod 128) with (u / 2 ^ 14)
      by (Z.div_mod_to_equations; lia).
    reflexivity.
  - assert (H14 : 0x3fff < Z.shiftr u 1)
      by (rewrite Z.shiftr_div_pow2 by lia; Z.div_mod_to_equations; lia).
    encode_steps. rewrite !Z.shiftr_div_pow2 by lia.
    replace ((u / 2 ^ 1 / 2 ^ 21) mod 128) with (u / 2 ^ 22)
      by (Z.div_mod_to_equations; lia).
    replace ((u / 2 ^ 1 / 2 ^ 14) mod 128) with ((u / 2 ^ 15) mod 128)
      by (Z.div_mod_to_equations; lia).
    replace ((u / 2 ^ 1 / 2 ^ 7) mod 128) with ((u / 2 ^ 8) mod 128)
      by (Z.div_mod_to_equations; lia).
    reflexivity.
Qed.

Lemma bind_run {S A B : Type} (m : M S A) (f : A -> M S B) (s : S) :
  (m ≫= f) s
  = match m s with
    | (Ok a, s') => f a s'
    | (Raise e, s') => (Raise e, s')
    | (Timeout, s') => (Timeout, s')
    end.
Proof. reflexivity. Qed.

Lemma bind_ok {S A B : Type} (m : M S A) (f : A -> M S B) (s s' : S) (a : A) :
  m s = (Ok a, s') -> (m ≫= f) s = f a s'.
Proof. intros H. rewrite bind_run, H. reflexivity. Qed.

Lemma bind_raise {S A B : Type} (m : M S A) (f : A -> M S B) (s s' : S) (e : exn) :
  m s = (Raise e, s') -> (m ≫= f) s = (Raise e, s').
Proof. intros H. rewrite bind_run, H. reflexivity. Qed.

Lemma decode_int_loop_continue (fuel : nat) (n result : Z) (b b' : byte) (s : istream) :
  continues b = true -> n < 3 ->
  decode_int_loop (S fuel) n result (ord b) (b' :: s)
  = decode_int_loop fuel (n + 1) (result * 128 + ord b mod 128) (ord b') s.
Proof.
  unfold continues. intros Hb Hn. cbn [decode_int_loop].
  rewrite Hb. replace (n <? 3) with true by (symmetry; apply Z.ltb_lt; lia).
  cbn [andb]. rewrite bind_run. cbn [read_uchar].
  rewrite land_127, lor_shiftl_add; [reflexivity | lia |].
  apply (Z.mod_pos_bound (ord b) 128). lia.
Qed.

Lemma decode_int_loop_eof (fuel : nat) (n result : Z) (b : byte) :
  continues b = true -> n < 3 ->
  decode_int_loop (S fuel) n result (ord b) [] = (Raise EOStream, []).
Proof.
  unfold continues. intros Hb Hn. cbn [decode_int_loop].
  rewrite Hb. replace (n <? 3) with true by (symmetry; apply Z.ltb_lt; lia).
  reflexivity.
Qed.

Lemma decode_int_loop_last (fuel : nat) (n result : Z) (b : byte) (s : istream) :
  continues b = false ->
  decode_int_loop (S fuel) n result (ord b) s = (Ok (n, result, ord b), s).
Proof.
  unfold continues. intros Hb. cbn [decode_int_loop]. rewrite Hb. reflexivity.
Qed.

Lemma decode_int_loop_full (fuel : nat) (result b : Z) (s : istream) :
  decode_int_loop (S fuel) 3 result b s = (Ok (3, result, b), s).
Proof.
  cbn [decode_int_loop]. change (3 <? 3) with false.
  rewrite andb_false_r. reflexivity.
Qed.

Lemma continues_high (b : byte) : continues b = true <-> 128 <= ord b.
Proof.
  unfold continues. rewrite land_128. pose proof (ord_range b) as Hb.
  destruct (Z.eqb_spec ((ord b / 128) mod 2 * 128) 0) as [E|E]; cbn;
    split; intros H; try reflexivity; try discriminate;
    revert E; Z.div_mod_to_equations; lia.
Qed.

Lemma continues_low (b : byte) : continues b = false <-> ord b < 128.
Proof.
  pose proof (continues_high b) as [H1 H2].
  destruct (Z.lt_ge_cases (ord b) 128) as [Hlt|Hge].
  - split; [intros _; exact Hlt|]. intros _.
    destruct (continues b); [|reflexivity]. specialize (H1 eq_refl). lia.
  - rewrite (H2 Hge). split; [discriminate | lia].
Qed.

Ltac eval_count_test :=
  match goal with
  | |- context [?a <? 3] =>
    let v := eval vm_compute in (a <? 3) in change (a <? 3) with v
  end.

(** What [decode_int] does once the bytes of a form are known. *)
Lemma decode_int_1 (fuel : nat) (signed : bool) (b0 : byte) (s : istream) :
  continues b0 = false ->
  decode_int_with (S fuel) signed (b0 :: s) = (Ok (ord b0), s).
Proof.
  intros H0. unfold decode_int_with.
  rewrite bind_run. cbn [read_uchar]. rewrite bind_run.
  rewrite decode_int_loop_last by assumption.
  eval_count_test. cbv iota beta.
  rewrite lor_shiftl_add
    by (pose proof (ord_range b0); apply continues_low in H0; lia).
  unfold ret. repeat f_equal; lia.
Qed.

Lemma decode_int_2 (fuel : nat) (signed : bool) (b0 b1 : byte) (s : istream) :
  continues b0 = true -> continues b1 = false ->
  decode_int_with (S (S fuel)) signed (b0 :: b1 :: s)
  = (Ok ((ord b0 mod 128) * 2 ^ 7 + ord b1), s).
Proof.
  intros H0 H1. unfold decode_int_with.
  rewrite bind_run. cbn [read_uchar]. rewrite bind_run.
  rewrite decode_int_loop_continue by (assumption || lia).
  rewrite decode_int_loop_last by assumption.
  eval_count_test. cbv iota beta.
  rewrite lor_shiftl_add
    by (pose proof (ord_range b1); apply continues_low in H1; lia).
  unfold ret. repeat f_equal; lia.
Qed.

Lemma decode_int_3 (fuel : nat) (signed : bool) (b0 b1 b2 : byte) (s : istream) :
  continues b0 = true -> continues b1 = true -> continues b2 = false ->
  decode_int_with (S (S (S fuel))) signed (b0 :: b1 :: b2 :: s)
  = (Ok ((ord b0 mod 128) * 2 ^ 14 + (ord b1 mod 128) * 2 ^ 7 + ord b2), s).
Proof.
  intros H0 H1 H2. unfold decode_int_with.
  rewrite bind_run. cbn [read_uchar]. rewrite bind_run.
  rewrite !decode_int_loop_continue by (assumption || lia).
  rewrite decode_int_loop_last by assumption.
  eval_count_test. cbv iota beta.
  rewrite lor_shiftl_add
    by (pose proof (ord_range b2); apply continues_low in H2; lia).
  unfold ret. repeat f_equal; lia.
Qed.

(** The same value, as the shifts and masks of [decode_int] build it. *)
Lemma u29_value4_bits (b0 b1 b2 b3 : byte) :
  u29_value4 b0 b1 b2 b3
  = Z.lor
      (Z.shiftl
         (Z.lor
            (Z.shiftl
               (Z.lor (Z.shiftl (Z.land (ord b0) 0x7f) 7) (Z.land (ord b1) 0x7f))
               7)
            (Z.land (ord b2) 0x7f))
         8)
      (ord b3).
Proof.
  pose proof (Z.mod_pos_bound (ord b1) 128 ltac:(lia)).
  pose proof (Z.mod_pos_bound (ord b2) 128 ltac:(lia)).
  pose proof (ord_range b3).
  rewrite !land_127. rewrite !lor_shiftl_add by lia.
  unfold u29_value4. lia.
Qed.

Lemma u29_value4_range (b0 b1 b2 b3 : byte) :
  0 <= u29_value4 b0 b1 b2 b3 < 2 ^ 29.
Proof.
  unfold u29_value4.
  pose proof (Z.mod_pos_bound (ord b0) 128 ltac:(lia)).
  pose proof (Z.mod_pos_bound (ord b1) 128 ltac:(lia)).
  pose proof (Z.mod_pos_bound (ord b2) 128 ltac:(lia)).
  pose proof (ord_range b3). lia.
Qed.

Lemma bit28 (v : Z) :
  0 <= v < 2 ^ 29 ->
  negb (Z.land v 0x10000000 =? 0) = Z.testbit v 28
  /\ (Z.testbit v 28 = true <-> 2 ^ 28 <= v).
Proof.
  intros Hv. change 0x10000000 with (2 ^ 28).
  rewrite land_pow2 by lia. rewrite Z.testbit_eqb by lia.
  assert (H : (v / 2 ^ 28) mod 2 = 0 /\ v < 2 ^ 28
              \/ (v / 2 ^ 28) mod 2 = 1 /\ 2 ^ 28 <= v)
    by (Z.div_mod_to_equations; lia).
  destruct H as [[-> H]|[-> H]]; cbn; split; try reflexivity;
    split; intros; try discriminate; try lia; reflexivity.
Qed.

Lemma decode_int_4 (fuel : nat) (signed : bool) (b0 b1 b2 b3 : byte) (s : istream) :
  continues b0 = true -> continues b1 = true -> continues b2 = true ->
  decode_int_with (S (S (S (S fuel)))) signed (b0 :: b1 :: b2 :: b3 :: s)
  = (Ok (let v := u29_value4 b0 b1 b2 b3 in
         if Z.testbit v 28
         then if signed then v - 2 ^ 29 else Z.shiftl v 1 + 1
         else v), s).
Proof.
  intros H0 H1 H2. unfold decode_int_with.
  rewrite bind_run. cbn [read_uchar]. rewrite bind_run.
  rewrite !decode_int_loop_continue by (assumption || lia).
  rewrite decode_int_loop_full.
  eval_count_test. cbv iota beta.
  rewrite lor_shiftl_add by (pose proof (ord_range b3); lia).
  replace ((((0 * 128 + ord b0 mod 128) * 128 + ord b1 mod 128) * 128
            + ord b2 mod 128) * 2 ^ 8 + ord b3)
    with (u29_value4 b0 b1 b2 b3) by (unfold u29_value4; lia).
  cbv zeta.
  destruct (bit28 _ (u29_value4_range b0 b1 b2 b3)) as [-> _].
  destruct (Z.testbit (u29_value4 b0 b1 b2 b3) 28); [destruct signed|];
    reflexivity.
Qed.

Lemma continues_the_byte_high (y : Z) :
  0 <= y < 128 -> continues (the_byte (128 + y)) = true.
Proof. intros Hy. apply continues_high. rewrite ord_the_byte; lia. Qed.

Lemma continues_the_byte_low (y : Z) :
  0 <= y < 128 -> continues (the_byte y) = false.
Proof. intros Hy. apply continues_low. rewrite ord_the_byte; lia. Qed.

(** Decoding the wire form of a 29-bit value. *)
Lemma decode_int_wire (fuel : nat) (signed : bool) (u : Z) (rest : istream) :
  0 <= u < 2 ^ 29 ->
  decode_int_with (S (S (S (S fuel)))) signed (u29_wire u ++ rest)
  = (Ok (if u <? 2 ^ 28 then u
         else if signed then u - 2 ^ 29 else 2 * u + 1), rest).
Proof.
  intros Hu. unfold u29_wire.
  destruct (Z.leb_spec u 0x7f); [|destruct (Z.leb_spec u 0x3fff);
    [|destruct (Z.leb_spec u 0x1fffff)]]; cbn [app].
  - rewrite decode_int_1 by (apply continues_the_byte_low; lia).
    rewrite ord_the_byte by lia.
    destruct (Z.ltb_spec u (2 ^ 28)); [reflexivity | lia].
  - assert (0 <= u / 2 ^ 7 < 128) by (Z.div_mod_to_equations; lia).
    assert (0 <= u mod 128 < 128) by (apply Z.mod_pos_bound; lia).
    rewrite decode_int_2
      by (apply continues_the_byte_high || apply continues_the_byte_low; lia).
    rewrite !ord_the_byte by lia.
    destruct (Z.ltb_spec u (2 ^ 28)); [|lia].
    repeat f_equal. Z.div_mod_to_equations; lia.
  - assert (0 <= u / 2 ^ 14 < 128) by (Z.div_mod_to_equations; lia).
    assert (0 <= (u / 2 ^ 7) mod 128 < 128) by (apply Z.mod_pos_bound; lia).
    assert (0 <= u mod 128 < 128) by (apply Z.mod_pos_bound; lia).
    rewrite decode_int_3
      by (apply continues_the_byte_high || apply continues_the_byte_low; lia).
    rewrite !ord_the_byte by lia.
    destruct (Z.ltb_spec u (2 ^ 28)); [|lia].
    repeat f_equal. Z.div_mod_to_equations; lia.
  - assert (0 <= u / 2 ^ 22 < 128) by (Z.div_mod_to_equations; lia).
    assert (0 <= (u / 2 ^ 15) mod 128 < 128) by (apply Z.mod_pos_bound; lia).
    assert (0 <= (u / 2 ^ 8) mod 128 < 128) by (apply Z.mod_pos_bound; lia).
    assert (0 <= u mod 256 < 256) by (apply Z.mod_pos_bound; lia).
    rewrite decode_int_4 by (apply continues_the_byte_high; lia).
    assert (Hv : u29_value4 (the_byte (128 + u / 2 ^ 22))
                   (the_byte (128 + (u / 2 ^ 15) mod 128))
                   (the_byte (128 + (u / 2 ^ 8) mod 128))
                   (the_byte (u mod 256)) = u).
    { unfold u29_value4. rewrite !ord_the_byte by lia.
      Z.div_mod_to_equations; lia. }
    rewrite Hv. cbv zeta.
    destruct (bit28 u Hu) as [_ Hbit].
    destruct (Z.ltb_spec u (2 ^ 28)).
    + destruct (Z.testbit u 28); [|reflexivity].
      assert (2 ^ 28 <= u) by (apply Hbit; reflexivity). lia.
    + replace (Z.testbit u 28) with true by (symmetry; apply Hbit; lia).
      rewrite Z.shiftl_mul_pow2 by lia.
      destruct signed; [reflexivity|]. do 2 f_equal. lia.
Qed.

(** ** C1: the U29 round trip *)

(** C1, as amended: for every [n] in [-2^28, 2^28-1] the signed decoder
    returns [n] from the bytes of [encode_int n]; for every [n] in
    [0, 2^28-1] the unsigned decoder returns [n] as well; for [n] in
    [2^28, 2^29-1] [encode_int] raises [OverflowError], and the bytes that
    carry that 29-bit value (those of [encode_int (n - 2^29)]) make the
    unsigned decoder return [2 * n + 1]. *)
Theorem u29_round_trip (n : Z) (rest : istream) :
  (MIN_29B_INT <= n <= MAX_29B_INT ->
   exists bs, encode_int n = Ok bs
              /\ decode_int true (bs ++ rest) = (Ok n, rest))
  /\ (0 <= n <= MAX_29B_INT ->
      exists bs, encode_int n = Ok bs
                 /\ decode_int false (bs ++ rest) = (Ok n, rest))
  /\ (MAX_29B_INT < n <= 2 ^ 29 - 1 ->
      encode_int n = Raise OverflowError
      /\ exists bs, encode_int (n - 2 ^ 29) = Ok bs
                    /\ decode_int false (bs ++ rest) = (Ok (2 * n + 1), rest)).
Proof.
  unfold MIN_29B_INT, MAX_29B_INT, decode_int, decode_int_fuel.
  split; [|split]; intros Hn.
  - exists (u29_wire (u29 n)). split.
    + apply encode_int_wire. unfold MIN_29B_INT, MAX_29B_INT. lia.
    + rewrite decode_int_wire
        by (unfold u29; destruct (Z.ltb_spec n 0); lia).
      unfold u29. do 2 f_equal.
      destruct (Z.ltb_spec n 0);
        match goal with |- context [?a <? ?b] => destruct (Z.ltb_spec a b) end;
        lia.
  - exists (u29_wire (u29 n)). split.
    + apply encode_int_wire. unfold MIN_29B_INT, MAX_29B_INT. lia.
    + assert (Hu : u29 n = n) by (unfold u29; destruct (Z.ltb_spec n 0); lia).
      rewrite Hu, decode_int_wire by lia.
      destruct (Z.ltb_spec n (2 ^ 28)); [reflexivity | lia].
  - split; [apply encode_int_overflow; unfold MAX_29B_INT; lia|].
    exists (u29_wire n). split.
    + rewrite encode_int_wire by (unfold MIN_29B_INT, MAX_29B_INT; lia).
      f_equal. f_equal. unfold u29.
      destruct (Z.ltb_spec (n - 2 ^ 29) 0); lia.
    + rewrite decode_int_wire by lia.
      destruct (Z.ltb_spec n (2 ^ 28)); [lia | reflexivity].
Qed.

Lemma u29_round_trip_witness :
  (MIN_29B_INT <= -1 <= MAX_29B_INT
   /\ exists bs, encode_int (-1) = Ok bs
                 /\ decode_int true (bs ++ []) = (Ok (-1), []))
  /\ (0 <= 300 <= MAX_29B_INT
      /\ exists bs, encode_int 300 = Ok bs
                    /\ decode_int false (bs ++ []) = (Ok 300, []))
  /\ (MAX_29B_INT < 2 ^ 28 <= 2 ^ 29 - 1
      /\ encode_int (2 ^ 28) = Raise OverflowError
      /\ exists bs, encode_int (2 ^ 28 - 2 ^ 29) = Ok bs
                    /\ decode_int false (bs ++ []) = (Ok (2 * 2 ^ 28 + 1), [])).
Proof.
  assert (H1 : MIN_29B_INT <= -1 <= MAX_29B_INT)
    by (unfold MIN_29B_INT, MAX_29B_INT; lia).
  assert (H2 : 0 <= 300 <= MAX_29B_INT) by (unfold MAX_29B_INT; lia).
  assert (H3 : MAX_29B_INT < 2 ^ 28 <= 2 ^ 29 - 1) by (unfold MAX_29B_INT; lia).
  split; [|split].
  - split; [exact H1|]. exact (proj1 (u29_round_trip (-1) []) H1).
  - split; [exact H2|]. exact (proj1 (proj2 (u29_round_trip 300 [])) H2).
  - split; [exact H3|]. exact (proj2 (proj2 (u29_round_trip (2 ^ 28) [])) H3).
Defined.

(** C1 as stated fails for the unsigned variant: [2^28] lies in
    [0, 2^29-1], yet [encode_int] rejects it, and the four bytes
    [C0 80 80 00] that carry the 29-bit value [2^28] (emitted for [-2^28])
    decode, unsigned, to [2^29 + 1]. *)
Lemma u29_unsigned_round_trip_fails :
  0 <= 2 ^ 28 <= 2 ^ 29 - 1
  /\ encode_int (2 ^ 28) = Raise OverflowError
  /\ encode_int (- 2 ^ 28) = Ok [xc0; x80; x80; x00]
  /\ decode_int false [xc0; x80; x80; x00] = (Ok (2 ^ 29 + 1), [])
  /\ ~ (exists bs, encode_int (2 ^ 28) = Ok bs
                   /\ decode_int false bs = (Ok (2 ^ 28), [])).
Proof.
  split; [lia|]. split; [vm_compute; reflexivity|].
  split; [vm_compute; reflexivity|]. split; [vm_compute; reflexivity|].
  intros [bs [H _]]. vm_compute in H. discriminate.
Qed.

(** ** C2: the four-byte form *)

(** C2: when the first three bytes carry the continuation flag, the value
    accumulated from the four bytes is returned minus [2^29] (signed) or
    shifted left by one plus one (unsigned) if its bit 28 is set, and
    unchanged by both variants if bit 28 is clear. *)
Theorem decode_int_four_bytes (b1 b2 b3 b4 : byte) (rest : istream) :
  continues b1 = true -> continues b2 = true -> continues b3 = true ->
  let v := u29_value4 b1 b2 b3 b4 in
  (Z.testbit v 28 = true ->
   decode_int true (b1 :: b2 :: b3 :: b4 :: rest) = (Ok (v - 2 ^ 29), rest)
   /\ decode_int false (b1 :: b2 :: b3 :: b4 :: rest)
      = (Ok (Z.shiftl v 1 + 1), rest))
  /\ (Z.testbit v 28 = false ->
      decode_int true (b1 :: b2 :: b3 :: b4 :: rest) = (Ok v, rest)
      /\ decode_int false (b1 :: b2 :: b3 :: b4 :: rest) = (Ok v, rest)).
Proof.
  intros H1 H2 H3 v. unfold decode_int, decode_int_fuel.
  rewrite !decode_int_4 by assumption. fold v. cbv zeta.
  split; intros ->; split; reflexivity.
Qed.

Lemma decode_int_four_bytes_witness :
  continues xff = true /\ continues x80 = true /\ continues xc1 = true
  /\ u29_value4 xff x80 xc1 x07 = 0x1fc04107
  /\ decode_int true [xff; x80; xc1; x07; x2a] = (Ok (0x1fc04107 - 2 ^ 29), [x2a])
  /\ decode_int false [xff; x80; xc1; x07; x2a] = (Ok (2 * 0x1fc04107 + 1), [x2a]).
Proof.
  assert (H1 : continues xff = true) by reflexivity.
  assert (H2 : continues x80 = true) by reflexivity.
  assert (H3 : continues xc1 = true) by reflexivity.
  assert (Hv : Z.testbit (u29_value4 xff x80 xc1 x07) 28 = true) by reflexivity.
  split; [exact H1|]. split; [exact H2|]. split; [exact H3|].
  split; [reflexivity|].
  exact (proj1 (decode_int_four_bytes xff x80 xc1 x07 [x2a] H1 H2 H3) Hv).
Defined.

(** ** C5: the shortest form, and the range check *)

(** C5: inside [-2^28, 2^28-1] [encode_int] returns one byte iff the 29-bit
    value [u] is at most [0x7F], two iff it is above that and at most
    [0x3FFF], three iff above that and at most [0x1FFFFF], and four
    otherwise; outside the range it raises [OverflowError]. *)
Theorem encode_int_length (n : Z) :
  (MIN_29B_INT <= n <= MAX_29B_INT ->
   exists bs, encode_int n = Ok bs
     /\ let u := u29 n in
        length bs = (if u <=? 0x7F then 1%nat else if u <=? 0x3FFF then 2%nat
                     else if u <=? 0x1FFFFF then 3%nat else 4%nat)
        /\ (length bs = 1%nat <-> u <= 0x7F)
        /\ (length bs = 2%nat <-> 0x7F < u <= 0x3FFF)
        /\ (length bs = 3%nat <-> 0x3FFF < u <= 0x1FFFFF)
        /\ (length bs = 4%nat <-> 0x1FFFFF < u))
  /\ (n < MIN_29B_INT \/ MAX_29B_INT < n -> encode_int n = Raise OverflowError).
Proof.
  split; [|apply encode_int_overflow].
  intros Hn. exists (u29_wire (u29 n)). split; [apply encode_int_wire, Hn|].
  cbv zeta. unfold u29_wire.
  destruct (Z.leb_spec (u29 n) 0x7F); [|destruct (Z.leb_spec (u29 n) 0x3FFF);
    [|destruct (Z.leb_spec (u29 n) 0x1FFFFF)]]; cbn [length];
    repeat split; intros; try reflexivity; try discriminate; lia.
Qed.

Lemma encode_int_length_witness :
  (MIN_29B_INT <= 128 <= MAX_29B_INT
   /\ exists bs, encode_int 128 = Ok bs /\ length bs = 2%nat)
  /\ (MAX_29B_INT < 2 ^ 28 /\ encode_int (2 ^ 28) = Raise OverflowError).
Proof.
  assert (H1 : MIN_29B_INT <= 128 <= MAX_29B_INT)
    by (unfold MIN_29B_INT, MAX_29B_INT; lia).
  assert (H2 : MAX_29B_INT < 2 ^ 28) by (unfold MAX_29B_INT; lia).
  split.
  - split; [exact H1|].
    destruct (proj1 (encode_int_length 128) H1) as [bs [Hbs [Hlen _]]].
    exists bs. split; [exact Hbs | exact Hlen].
  - split; [exact H2|].
    exact (proj2 (encode_int_length (2 ^ 28)) (or_intror H2)).
Defined.

(** ** C9: [decode_int] reads at most four bytes *)

(** The loop counter only grows, stops at three, and counts the bytes that
    the loop has read. *)
Lemma decode_int_loop_count (fuel : nat) :
  forall (n result b : Z) (s : istream) (n' result' b' : Z) (s' : istream),
    decode_int_loop fuel n result b s = (Ok (n', result', b'), s') ->
    n <= 3 ->
    n <= n' <= 3 /\ length s = (Z.to_nat (n' - n) + length s')%nat.
Proof.
  induction fuel as [|fuel IH]; intros n result b s n' result' b' s' H Hn.
  - discriminate.
  - cbn [decode_int_loop] in H.
    destruct (negb (Z.land b 128 =? 0) && (n <? 3)) eqn:G.
    + apply andb_prop in G as [_ G]. apply Z.ltb_lt in G.
      rewrite bind_run in H. destruct s as [|c s]; cbn [read_uchar] in H;
        [discriminate|].
      apply IH in H; [|lia]. destruct H as [H1 H2]. split; [lia|].
      cbn [length]. rewrite H2. lia.
    + injection H as <- _ _ <-. split; [lia|].
      rewrite Z.sub_diag. reflexivity.
Qed.

(** The model never runs out of fuel, whatever the stream holds. *)
Lemma decode_int_no_timeout (signed : bool) (s : istream) :
  (decode_int signed s).1 <> Timeout.
Proof.
  unfold decode_int, decode_int_fuel.
  destruct s as [|b0 s]; [cbn; discriminate|].
  destruct (continues b0) eqn:C0;
    [|rewrite decode_int_1 by assumption; cbn; discriminate].
  destruct s as [|b1 s].
  { unfold decode_int_with. rewrite bind_run. cbn [read_uchar].
    rewrite bind_run, decode_int_loop_eof by (assumption || lia).
    cbn; discriminate. }
  destruct (continues b1) eqn:C1;
    [|rewrite decode_int_2 by assumption; cbn; discriminate].
  destruct s as [|b2 s].
  { unfold decode_int_with. rewrite bind_run. cbn [read_uchar].
    rewrite bind_run, decode_int_loop_continue by (assumption || lia).
    rewrite decode_int_loop_eof by (assumption || lia).
    cbn; discriminate. }
  destruct (continues b2) eqn:C2;
    [|rewrite decode_int_3 by assumption; cbn; discriminate].
  destruct s as [|b3 s].
  { unfold decode_int_with. rewrite bind_run. cbn [read_uchar].
    rewrite bind_run, !decode_int_loop_continue by (assumption || lia).
    rewrite decode_int_loop_eof by (assumption || lia).
    cbn; discriminate. }
  rewrite decode_int_4 by assumption. cbn; discriminate.
Qed.

(** C9: on a stream that holds at least four bytes [decode_int] returns a
    value; the loop has run [n <= 3] times and [n + 1 <= 4] bytes have been
    consumed, however many bytes carry the continuation flag; more fuel
    changes nothing. *)
Theorem decode_int_terminates (signed : bool) (s : istream) :
  (4 <= length s)%nat ->
  exists (b0 : byte) (tl : istream) (n result b v : Z) (rest : istream),
    s = b0 :: tl
    /\ decode_int_loop decode_int_fuel 0 0 (ord b0) tl = (Ok (n, result, b), rest)
    /\ 0 <= n <= 3
    /\ length s = (Z.to_nat n + 1 + length rest)%nat
    /\ decode_int signed s = (Ok v, rest)
    /\ forall k : nat,
         decode_int_with (decode_int_fuel + k) signed s = (Ok v, rest).
Proof.
  intros Hlen. unfold decode_int, decode_int_fuel.
  destruct s as [|b0 [|b1 [|b2 [|b3 s]]]]; cbn [length] in Hlen; try lia.
  clear Hlen. exists b0, (b1 :: b2 :: b3 :: s).
  destruct (continues b0) eqn:C0; [destruct (continues b1) eqn:C1;
    [destruct (continues b2) eqn:C2|]|].
  - eexists 3, _, _, _, s. split; [reflexivity|]. split.
    { rewrite !decode_int_loop_continue by (assumption || lia).
      apply decode_int_loop_full. }
    split; [lia|]. split; [reflexivity|].
    split; [|intros k]; apply decode_int_4; assumption.
  - eexists 2, _, _, _, (b3 :: s). split; [reflexivity|]. split.
    { rewrite !decode_int_loop_continue by (assumption || lia).
      apply decode_int_loop_last. assumption. }
    split; [lia|]. split; [reflexivity|].
    split; [|intros k]; apply decode_int_3; assumption.
  - eexists 1, _, _, _, (b2 :: b3 :: s). split; [reflexivity|]. split.
    { rewrite !decode_int_loop_continue by (assumption || lia).
      apply decode_int_loop_last. assumption. }
    split; [lia|]. split; [reflexivity|].
    split; [|intros k]; apply decode_int_2; assumption.
  - eexists 0, _, _, _, (b1 :: b2 :: b3 :: s). split; [reflexivity|]. split.
    { apply decode_int_loop_last. assumption. }
    split; [lia|]. split; [reflexivity|].
    split; [|intros k]; apply decode_int_1; assumption.
Qed.

Lemma decode_int_terminates_witness :
  (4 <= length [xff; xff; xff; xff; xff; xff])%nat
  /\ exists v rest, decode_int false [xff; xff; xff; xff; xff; xff] = (Ok v, rest)
                    /\ (2 <= length rest)%nat.
Proof.
  assert (H : (4 <= length [xff; xff; xff; xff; xff; xff])%nat)
    by (cbn [length]; lia).
  split; [exact H|].
  destruct (decode_int_terminates false [xff; xff; xff; xff; xff; xff] H)
    as (b0 & tl & n & result & b & v & rest & _ & _ & Hn & Hl & Hd & _).
  exists v, rest. split; [exact Hd|]. cbn [length] in Hl. lia.
Defined.

(** ** Running the codec *)

Section CodecProperties.
Context `{P : Platform} `{C : !Callbacks}.

Lemma bind_timeout {S A B : Type} (m : M S A) (f : A -> M S B) (s s' : S) :
  m s = (Timeout, s') -> (m ≫= f) s = (Timeout, s').
Proof. intros H. rewrite bind_run, H. reflexivity. Qed.

Lemma default_use_proxies_none (c : Codec) :
  default_use_proxies None c = (Ok (use_proxies c), c).
Proof. reflexivity. Qed.

Lemma getObjectReference_run (a : addr) (c : Codec) :
  getObjectReference a c
  = (Ok (table_getReferenceTo (objects (context c)) a), c).
Proof. reflexivity. Qed.

Lemma addObject_run (a : addr) (c : Codec) :
  addObject a c
  = (Ok (len (objects (context c))),
     set_context (set_objects (objects (context c) ++ [a]) (context c)) c).
Proof. reflexivity. Qed.

Lemma stream_write_run (bs : pystr) (c : Codec) :
  stream_write bs c = (Ok tt, set_stream (stream c ++ bs) c).
Proof. reflexivity. Qed.

(** Writing the marker and registering the value. *)
Lemma write_marker_register {A : Type} (marker : byte) (a : addr)
    (k : M Codec A) (c : Codec) :
  (stream_write [marker];; addObject a;; k) c = k (registered marker a c).
Proof. reflexivity. Qed.

Lemma dict_contains_spec (n : list (key * value)) (k : key) :
  dict_contains n k = true <-> k ∈ n.*1.
Proof. unfold dict_contains. apply bool_decide_eq_true. Qed.

Lemma classify_keys_other (keys : list key) :
  (exists tag, KOther tag ∈ keys) ->
  forall int_keys str_keys,
    classify_keys keys int_keys str_keys = Raise ValueError.
Proof.
  induction keys as [|x keys IH]; intros [tag Hin] int_keys str_keys.
  - inversion Hin.
  - cbn [classify_keys]. destruct x as [i|s|t]; [| |reflexivity];
      apply IH; exists tag; inversion Hin; subst; (discriminate || assumption).
Qed.

(** ** C7: a dict with an empty string key *)

(** C7: when the empty string is a key of the mapping, [writeDict] raises
    [EncodeError] and leaves the codec as it found it: nothing is written
    and the mapping is not registered; so does [writeElement] on such a
    dict. *)
Theorem writeDict_empty_key (rec : option bool -> value -> M Codec unit)
    (a : addr) (n : list (key * value)) (up : option bool) (c : Codec) :
  KStr [] ∈ n.*1 ->
  writeDict rec a n up c = (Raise EncodeError, c)
  /\ forall (fuel : nat) (mixed : bool),
       heap c !! a = Some (ODict mixed n) ->
       writeElement (S fuel) up (VRef a) c = (Raise EncodeError, c).
Proof.
  intros Hin. apply dict_contains_spec in Hin.
  assert (H : forall r, writeDict r a n up c = (Raise EncodeError, c))
    by (intros r; unfold writeDict; rewrite Hin; reflexivity).
  split; [apply H|].
  intros fuel mixed Hheap. cbn [writeElement].
  rewrite bind_run. unfold gets. rewrite Hheap. apply H.
Qed.

(** ** C10: a dict with a key that is neither an integer nor a string *)

(** C10: without an empty string key, with proxies disabled and the mapping
    not yet referenced, a key that is neither an integer nor a string makes
    [writeDict] raise [ValueError] in the state where the marker [0x09] has
    been written and the mapping has been added to the object table. *)
Theorem writeDict_bad_key (rec : option bool -> value -> M Codec unit)
    (a : addr) (n : list (key * value)) (c : Codec) :
  KStr [] ∉ n.*1 ->
  (exists tag, KOther tag ∈ n.*1) ->
  use_proxies c = false ->
  table_getReferenceTo (objects (context c)) a = -1 ->
  writeDict rec a n None c = (Raise ValueError, registered TYPE_ARRAY a c)
  /\ stream (registered TYPE_ARRAY a c) = stream c ++ [x09]
  /\ objects (context (registered TYPE_ARRAY a c)) = objects (context c) ++ [a].
Proof.
  intros Hempty Hother Hup Href.
  split; [|split; reflexivity].
  unfold writeDict.
  replace (dict_contains n (KStr [])) with false
    by (symmetry; apply not_true_is_false; intros H;
        apply dict_contains_spec in H; contradiction).
  rewrite (bind_ok _ _ _ _ _ (default_use_proxies_none c)), Hup.
  rewrite (bind_ok _ _ c (set_stream (stream c ++ [TYPE_ARRAY]) c) tt)
    by reflexivity.
  rewrite (bind_ok _ _ _ _ _ (getObjectReference_run a _)).
  cbn [context set_stream]. rewrite Href.
  change (negb (-1 =? -1)) with false. cbv iota.
  rewrite (bind_ok _ _ _ _ _ (addObject_run a _)).
  fold (registered TYPE_ARRAY a c).
  unfold writeDict_items. apply bind_raise.
  unfold lift. rewrite classify_keys_other by assumption. reflexivity.
Qed.

(** ** C3: registration in the object table *)

Ltac enter_writer c a Hup Href :=
  try (rewrite (bind_ok _ _ _ _ _ (default_use_proxies_none c)), Hup);
  match goal with
  | |- context [stream_write [?m]] =>
    rewrite (bind_ok _ _ c (set_stream (stream c ++ [m]) c) tt) by reflexivity;
    rewrite (bind_ok _ _ _ _ _ (getObjectReference_run a _));
    cbn [context set_stream]; rewrite Href;
    change (negb (-1 =? -1)) with false; cbv iota;
    rewrite (bind_ok _ _ _ _ _ (addObject_run a _));
    fold (registered m a c)
  end.

Lemma writeList_unreferenced (rec : option bool -> value -> M Codec unit)
    (a : addr) (n : list value) (c : Codec) :
  use_proxies c = false ->
  table_getReferenceTo (objects (context c)) a = -1 ->
  writeList rec a n None c = writeList_items rec n (registered TYPE_ARRAY a c).
Proof.
  intros Hup Href. unfold writeList. enter_writer c a Hup Href. reflexivity.
Qed.

Lemma writeDict_unreferenced (rec : option bool -> value -> M Codec unit)
    (a : addr) (n : list (key * value)) (c : Codec) :
  KStr [] ∉ n.*1 ->
  use_proxies c = false ->
  table_getReferenceTo (objects (context c)) a = -1 ->
  writeDict rec a n None c = writeDict_items rec n (registered TYPE_ARRAY a c).
Proof.
  intros Hempty Hup Href. unfold writeDict.
  replace (dict_contains n (KStr [])) with false
    by (symmetry; apply not_true_is_false; intros H;
        apply dict_contains_spec in H; contradiction).
  enter_writer c a Hup Href. reflexivity.
Qed.

Lemma writeObject_unreferenced (rec : option bool -> value -> M Codec unit)
    (a : addr) (obj : pyinstance) (c : Codec) :
  use_proxies c = false ->
  table_getReferenceTo (objects (context c)) a = -1 ->
  writeObject rec a obj None c
  = writeObject_serialise rec a obj (registered TYPE_OBJECT a c).
Proof.
  intros Hup Href. unfold writeObject. enter_writer c a Hup Href. reflexivity.
Qed.

Lemma writeDate_unreferenced (a : addr) (n : pydate) (c : Codec) :
  is_time n = false ->
  table_getReferenceTo (objects (context c)) a = -1 ->
  writeDate a n c = writeDate_value n (registered TYPE_DATE a c).
Proof.
  intros Htime Href. unfold writeDate. rewrite Htime.
  enter_writer c a Htime Href. reflexivity.
Qed.

Lemma writeByteArray_unreferenced (a : addr) (n : pystr) (compressed : bool)
    (c : Codec) :
  table_getReferenceTo (objects (context c)) a = -1 ->
  writeByteArray a n compressed c
  = writeByteArray_bytes n compressed (registered TYPE_BYTEARRAY a c).
Proof.
  intros Href. unfold writeByteArray. enter_writer c a Href Href. reflexivity.
Qed.

Lemma writeXML_unreferenced (a : addr) (n : xmldoc) (c : Codec) :
  table_getReferenceTo (objects (context c)) a = -1 ->
  writeXML a n c
  = _writeString (ET_tostring n)
      (registered
         (if table_getReferenceTo (legacy_xml (context c)) a =? -1
          then TYPE_XMLSTRING else TYPE_XML) a c).
Proof.
  intros Href. unfold writeXML.
  rewrite (bind_ok _ _ c c (table_getReferenceTo (legacy_xml (context c)) a))
    by reflexivity.
  destruct (table_getReferenceTo (legacy_xml (context c)) a =? -1);
    enter_writer c a Href Href; reflexivity.
Qed.

Lemma readInteger_context (signed : bool) (c c0 : Codec) (r : outcome Z) :
  readInteger signed c = (r, c0) ->
  context c0 = context c /\ heap c0 = heap c
  /\ timezone_offset c0 = timezone_offset c.
Proof.
  unfold readInteger, on_stream. destruct (decode_int signed (stream c)).
  intros [= _ <-]. repeat split.
Qed.

Lemma readDate_inline (c c0 : Codec) (ref : Z) :
  readInteger false c = (Ok ref, c0) ->
  (Z.land ref REFERENCE_BIT =? 0) = false ->
  readDate c
  = if len (stream c0) <? 8 then (Raise EOStream, c0)
    else
      let c1 := set_stream (drop 8 (stream c0)) c0 in
      match date_of_payload (take 8 (stream c0)) (timezone_offset c0) with
      | Ok d =>
        let a := length (heap c0) in
        (Ok (VRef a), with_object a (set_heap (heap c0 ++ [ODate d]) c1))
      | Raise e => (Raise e, c1)
      | Timeout => (Timeout, c1)
      end.
Proof.
  intros Hread Hinline. unfold readDate.
  rewrite (bind_ok _ _ _ _ _ Hread), Hinline.
  unfold read_double. rewrite !bind_run. unfold stream_read, len.
  destruct (Z.of_nat (length (stream c0)) <? 8); [reflexivity|].
  cbv zeta. unfold date_of_payload.
  change (Z.to_nat 8) with 8%nat.
  change ((mret (unpack_double (take 8 (stream c0))) : M Codec pyfloat)
            (set_stream (drop 8 (stream c0)) c0))
    with (Ok (unpack_double (take 8 (stream c0))),
          set_stream (drop 8 (stream c0)) c0).
  cbv iota beta.
  destruct (get_datetime (float_div (unpack_double (take 8 (stream c0))) 1000))
    as [result|]; [|reflexivity].
  rewrite bind_run. unfold gets. cbn [timezone_offset set_stream].
  destruct (timezone_offset c0) as [off|]; [|reflexivity].
  destruct (date_add result off); reflexivity.
Qed.

Lemma readByteArray_inline (c c0 : Codec) (ref : Z) :
  readInteger false c = (Ok ref, c0) ->
  (Z.land ref REFERENCE_BIT =? 0) = false ->
  readByteArray c
  = if len (stream c0) <? Z.shiftr ref 1 then (Raise EOStream, c0)
    else
      let a := length (heap c0) in
      let payload := take (Z.to_nat (Z.shiftr ref 1)) (stream c0) in
      let obj :=
        match zlib_decompress payload with
        | Some inflated => OByteArray inflated true
        | None => OByteArray payload false
        end in
      (Ok (VRef a),
       with_object a
         (set_heap (heap c0 ++ [obj])
            (set_stream (drop (Z.to_nat (Z.shiftr ref 1)) (stream c0)) c0))).
Proof.
  intros Hread Hinline. unfold readByteArray.
  rewrite (bind_ok _ _ _ _ _ Hread), Hinline.
  rewrite bind_run. unfold stream_read, len.
  destruct (Z.of_nat (length (stream c0)) <? Z.shiftr ref 1); [reflexivity|].
  cbv zeta. destruct (zlib_decompress _); reflexivity.
Qed.

Lemma readXML_inline (legacy : bool) (c c0 : Codec) (ref : Z) :
  readInteger false c = (Ok ref, c0) ->
  (Z.land ref REFERENCE_BIT =? 0) = false ->
  _readXML legacy c
  = if len (stream c0) <? Z.shiftr ref 1 then (Raise EOStream, c0)
    else
      let c1 := set_stream (drop (Z.to_nat (Z.shiftr ref 1)) (stream c0)) c0 in
      match ET_fromstring (take (Z.to_nat (Z.shiftr ref 1)) (stream c0)) with
      | None => (Raise ExternalError, c1)
      | Some doc =>
        let a := length (heap c0) in
        let c2 := with_object a (set_heap (heap c0 ++ [OXML doc]) c1) in
        (Ok (VRef a),
         if legacy
         then set_context
                (set_legacy_xml (legacy_xml (context c2) ++ [a]) (context c2)) c2
         else c2)
      end.
Proof.
  intros Hread Hinline. unfold _readXML.
  rewrite (bind_ok _ _ _ _ _ Hread), Hinline.
  rewrite bind_run. unfold stream_read, len.
  destruct (Z.of_nat (length (stream c0)) <? Z.shiftr ref 1); [reflexivity|].
  cbv zeta. destruct (ET_fromstring _); [|reflexivity].
  destruct legacy; reflexivity.
Qed.

Lemma readArray_inline (fuel : nat) (rec : M Codec value) (c c0 c1 : Codec)
    (size : Z) (key : option pystr) :
  readInteger false c = (Ok size, c0) ->
  (Z.land size REFERENCE_BIT =? 0) = false ->
  readString c0 = (Ok key, c1) ->
  readArray fuel rec c
  = let a := length (heap c1) in
    if bool_decide (key = Some [])
    then readArray_list rec (Z.shiftr size 1) a
           (with_object a (set_heap (heap c1 ++ [OList []]) c1))
    else readArray_mixed fuel rec (Z.shiftr size 1) a key
           (with_object a (set_heap (heap c1 ++ [ODict true []]) c1)).
Proof.
  intros Hread Hinline Hkey. unfold readArray.
  rewrite (bind_ok _ _ _ _ _ Hread), Hinline.
  rewrite (bind_ok _ _ _ _ _ Hkey).
  cbv zeta. destruct key as [[|b k]|]; reflexivity.
Qed.

Lemma readObject_inline (rec : M Codec value) (c c0 c1 c2 : Codec) (ref : Z)
    (class_def : class_definition) (obj : addr) :
  readInteger false c = (Ok ref, c0) ->
  (Z.land ref REFERENCE_BIT =? 0) = false ->
  _getClassDefinition (Z.shiftr ref 1) c0 = (Ok class_def, c1) ->
  createInstance class_def c1 = (Ok obj, c2) ->
  readObject rec None c
  = readObject_attributes rec class_def obj (use_proxies c) (with_object obj c2).
Proof.
  intros Hread Hinline Hclass Hnew. unfold readObject.
  rewrite (bind_ok _ _ _ _ _ (default_use_proxies_none c)).
  rewrite (bind_ok _ _ _ _ _ Hread), Hinline.
  cbv zeta. rewrite (bind_ok _ _ _ _ _ Hclass).
  rewrite (bind_ok _ _ _ _ _ Hnew).
  rewrite (bind_ok _ _ _ _ _ (addObject_run obj c2)). reflexivity.
Qed.

(** C3, as amended: the encoder adds every inline composite value (list,
    dict, object, date, byte array, XML document) to the object table right
    after the marker, before any of its contents is written; the decoder
    adds an inline array to the table before it reads the elements, and an
    inline object before it reads the attributes; but [readDate],
    [readByteArray] and [_readXML] read the payload from the stream first
    and add the result to the table afterwards, so that a payload that
    cannot be read, a timestamp that is no date or a text that is no
    document leaves the table as it was. *)
Theorem registration_order (c : Codec) (a : addr) :
  (* the encoder *)
  (table_getReferenceTo (objects (context c)) a = -1 ->
   (forall rec n, use_proxies c = false ->
      writeList rec a n None c
      = writeList_items rec n (registered TYPE_ARRAY a c))
   /\ (forall rec n, KStr [] ∉ n.*1 -> use_proxies c = false ->
        writeDict rec a n None c
        = writeDict_items rec n (registered TYPE_ARRAY a c))
   /\ (forall rec obj, use_proxies c = false ->
        writeObject rec a obj None c
        = writeObject_serialise rec a obj (registered TYPE_OBJECT a c))
   /\ (forall n, is_time n = false ->
        writeDate a n c = writeDate_value n (registered TYPE_DATE a c))
   /\ (forall n compressed,
        writeByteArray a n compressed c
        = writeByteArray_bytes n compressed (registered TYPE_BYTEARRAY a c))
   /\ (forall n,
        writeXML a n c
        = _writeString (ET_tostring n)
            (registered
               (if table_getReferenceTo (legacy_xml (context c)) a =? -1
                then TYPE_XMLSTRING else TYPE_XML) a c)))
  (* the decoder *)
  /\ (forall ref c0,
       readInteger false c = (Ok ref, c0) ->
       (Z.land ref REFERENCE_BIT =? 0) = false ->
       context c0 = context c
       /\ (forall fuel rec key c1,
            readString c0 = (Ok key, c1) ->
            readArray fuel rec c
            = let a := length (heap c1) in
              if bool_decide (key = Some [])
              then readArray_list rec (Z.shiftr ref 1) a
                     (with_object a (set_heap (heap c1 ++ [OList []]) c1))
              else readArray_mixed fuel rec (Z.shiftr ref 1) a key
                     (with_object a (set_heap (heap c1 ++ [ODict true []]) c1)))
       /\ (forall rec class_def obj c1 c2,
            _getClassDefinition (Z.shiftr ref 1) c0 = (Ok class_def, c1) ->
            createInstance class_def c1 = (Ok obj, c2) ->
            readObject rec None c
            = readObject_attributes rec class_def obj (use_proxies c)
                (with_object obj c2))
       /\ readDate c
          = (if len (stream c0) <? 8 then (Raise EOStream, c0)
             else
               let c1 := set_stream (drop 8 (stream c0)) c0 in
               match date_of_payload (take 8 (stream c0)) (timezone_offset c0) with
               | Ok d =>
                 let a := length (heap c0) in
                 (Ok (VRef a), with_object a (set_heap (heap c0 ++ [ODate d]) c1))
               | Raise e => (Raise e, c1)
               | Timeout => (Timeout, c1)
               end)
       /\ readByteArray c
          = (if len (stream c0) <? Z.shiftr ref 1 then (Raise EOStream, c0)
             else
               let a := length (heap c0) in
               let payload := take (Z.to_nat (Z.shiftr ref 1)) (stream c0) in
               let obj :=
                 match zlib_decompress payload with
                 | Some inflated => OByteArray inflated true
                 | None => OByteArray payload false
                 end in
               (Ok (VRef a),
                with_object a
                  (set_heap (heap c0 ++ [obj])
                     (set_stream (drop (Z.to_nat (Z.shiftr ref 1)) (stream c0))
                        c0))))
       /\ (forall legacy,
            _readXML legacy c
            = if len (stream c0) <? Z.shiftr ref 1 then (Raise EOStream, c0)
              else
                let c1 :=
                  set_stream (drop (Z.to_nat (Z.shiftr ref 1)) (stream c0)) c0 in
                match ET_fromstring (take (Z.to_nat (Z.shiftr ref 1)) (stream c0)) with
                | None => (Raise ExternalError, c1)
                | Some doc =>
                  let a := length (heap c0) in
                  let c2 := with_object a (set_heap (heap c0 ++ [OXML doc]) c1) in
                  (Ok (VRef a),
                   if legacy
                   then set_context
                          (set_legacy_xml (legacy_xml (context c2) ++ [a])
                             (context c2)) c2
                   else c2)
                end)).
Proof.
  split.
  - intros Href. repeat split; intros.
    + apply writeList_unreferenced; assumption.
    + apply writeDict_unreferenced; assumption.
    + apply writeObject_unreferenced; assumption.
    + apply writeDate_unreferenced; assumption.
    + apply writeByteArray_unreferenced; assumption.
    + apply writeXML_unreferenced; assumption.
  - intros ref c0 Hread Hinline.
    split; [apply (readInteger_context _ _ _ _ Hread)|].
    split; [intros; eapply readArray_inline; eassumption|].
    split; [intros; eapply readObject_inline; eassumption|].
    split; [eapply readDate_inline; eassumption|].
    split; [eapply readByteArray_inline; eassumption|].
    intros legacy. eapply readXML_inline; eassumption.
Qed.

(** A list that contains itself is written as one inline array whose element
    is a reference to it, and read back as a list that contains itself:
    both rest on the registration before the elements. *)
Lemma self_reference_round_trip (k : nat) :
  let h := [OList [VRef 0%nat]] in
  (writeElement (2 + k) None (VRef 0%nat) (new_codec [] h)).1 = Ok tt
  /\ stream (writeElement (2 + k) None (VRef 0%nat) (new_codec [] h)).2
     = [x09; x03; x01; x09; x00]
  /\ (readElement (2 + k) (new_codec [x09; x03; x01; x09; x00] [])).1
     = Ok (VRef 0%nat)
  /\ heap (readElement (2 + k) (new_codec [x09; x03; x01; x09; x00] [])).2 = h.
Proof. repeat split; vm_compute; reflexivity. Qed.

(** ** C8: the empty string is never interned *)

Lemma set_stream_set_stream (s1 s2 : list byte) (c : Codec) :
  set_stream s2 (set_stream s1 c) = set_stream s2 c.
Proof. reflexivity. Qed.

(** C8: [addString] on the empty string returns [-1] and leaves the codec
    as it is; [writeUnicode] on the empty unicode string writes the marker
    [0x06] and the byte [0x01], whatever the string table holds, and leaves
    the context as it is; the decoder, on an inline header of length zero,
    returns the empty string and leaves the string table as it is. *)
Theorem empty_string_not_interned (c : Codec) :
  addString [] c = (Ok (-1), c)
  /\ writeUnicode [] true c = (Ok tt, set_stream (stream c ++ [x06; x01]) c)
  /\ (forall x c0,
       on_stream (decode_int false) c = (Ok x, c0) ->
       (Z.land x REFERENCE_BIT =? 0) = false ->
       Z.shiftr x 1 = 0 ->
       readUnicode c = (Ok [], c0)
       /\ readString c = (Ok (Some []), c0)
       /\ context c0 = context c).
Proof.
  split; [reflexivity|]. split.
  - unfold writeUnicode. cbn [TYPE_STRING REFERENCE_BIT].
    rewrite (bind_ok _ _ c (set_stream (stream c ++ [x06]) c) tt) by reflexivity.
    unfold write_uchar. rewrite (bind_ok _ _ _ _ x01) by reflexivity.
    rewrite stream_write_run, set_stream_set_stream.
    cbn [stream set_stream]. rewrite <- app_assoc. reflexivity.
  - intros x c0 Hread Hinline Hlen.
    assert (Hl : _readLength c = (Ok (0, false), c0)).
    { unfold _readLength. rewrite (bind_ok _ _ _ _ _ Hread).
      rewrite Hinline, Hlen. reflexivity. }
    split; [|split].
    + unfold readUnicode. rewrite (bind_ok _ _ _ _ _ Hl). reflexivity.
    + unfold readString. rewrite (bind_ok _ _ _ _ _ Hl). reflexivity.
    + apply (readInteger_context false c c0 (Ok x) Hread).
Qed.

(** ** C6: string references *)

Lemma _writeInteger_run (n : Z) (c : Codec) :
  _writeInteger n c
  = match encode_int n with
    | Ok hdr => (Ok tt, set_stream (stream c ++ hdr) c)
    | Raise e => (Raise e, c)
    | Timeout => (Timeout, c)
    end.
Proof.
  unfold _writeInteger. rewrite bind_run. unfold lift.
  destruct (encode_int n); reflexivity.
Qed.

(** C6: with string references enabled, a string that the context already
    holds is written as the U29 header [ref << 1] alone; a non-empty string
    that it does not hold is added to the string table and written as the
    U29 header [(len << 1) | 1] followed by its bytes; and the list
    [["a", "a"]] is encoded as [09 05 01 06 03 61 06 00]. *)
Theorem string_reference_emission :
  (forall (c : Codec) (s : pystr),
     string_references c = true ->
     (forall ref,
        table_getReferenceTo (strings (context c)) s = ref -> ref <> -1 ->
        _writeString s c
        = match encode_int (Z.shiftl ref 1) with
          | Ok hdr => (Ok tt, set_stream (stream c ++ hdr) c)
          | Raise e => (Raise e, c)
          | Timeout => (Timeout, c)
          end)
     /\ (table_getReferenceTo (strings (context c)) s = -1 -> s <> [] ->
         let c1 :=
           set_context (set_strings (strings (context c) ++ [s]) (context c)) c in
         _writeString s c
         = match encode_int (Z.lor (Z.shiftl (len s) 1) 1) with
           | Ok hdr => (Ok tt, set_stream (stream c ++ hdr ++ s) c1)
           | Raise e => (Raise e, c1)
           | Timeout => (Timeout, c1)
           end))
  /\ (forall k : nat,
       let c := new_codec [] [OList [VStr [x61]; VStr [x61]]] in
       writeElement (2 + k) None (VRef 0%nat) c
       = (Ok tt,
          set_context
            (set_strings [[x61]] (set_objects [0%nat] (context c)))
            (set_stream [x09; x05; x01; x06; x03; x61; x06; x00] c))).
Proof.
  split; [|intros k; vm_compute; reflexivity].
  intros c s Hrefs. split.
  - intros ref Href Hne. unfold _writeString.
    rewrite (bind_ok _ _ c c true) by (unfold gets; rewrite Hrefs; reflexivity).
    rewrite (bind_ok _ _ c c ref) by (unfold getStringReference, gets; rewrite Href; reflexivity).
    replace (negb (ref =? -1)) with true
      by (symmetry; apply negb_true_iff, Z.eqb_neq, Hne).
    apply _writeInteger_run.
  - intros Href Hne c1. unfold _writeString.
    rewrite (bind_ok _ _ c c true) by (unfold gets; rewrite Hrefs; reflexivity).
    rewrite (bind_ok _ _ c c (-1)) by (unfold getStringReference, gets; rewrite Href; reflexivity).
    change (negb (-1 =? -1)) with false. cbv iota.
    rewrite (bind_ok _ _ c c1 (len (strings (context c)))).
    2:{ unfold addString. destruct s; [contradiction|]. reflexivity. }
    rewrite bind_run, _writeInteger_run.
    change REFERENCE_BIT with 1.
    destruct (encode_int _); [|reflexivity|reflexivity].
    rewrite stream_write_run, set_stream_set_stream.
    cbn [stream set_stream]. rewrite <- app_assoc. reflexivity.
Qed.

(** ** The keys of a mapping *)

Lemma classify_keys_ok (keys : list key) :
  (forall tag, KOther tag ∉ keys) ->
  forall int_keys str_keys,
    classify_keys keys int_keys str_keys
    = Ok (int_keys ++ int_keys_of keys, str_keys ++ (KStr <$> str_keys_of keys)).
Proof.
  induction keys as [|x keys IH]; intros Hother int_keys str_keys.
  - cbn. rewrite !app_nil_r. reflexivity.
  - assert (Hother' : forall tag, KOther tag ∉ keys)
      by (intros tag Hin; apply (Hother tag); right; exact Hin).
    cbn [classify_keys]. destruct x as [i|s0|t].
    + rewrite IH by assumption. cbn. rewrite <- app_assoc. reflexivity.
    + rewrite IH by assumption. cbn. rewrite <- app_assoc. reflexivity.
    + exfalso. apply (Hother t). left.
Qed.

(** A loop whose test never holds moves nothing. *)
Lemma move_keys_never (test : Z -> bool) (conv : Z -> key) (fuel : nat) :
  (forall x, test x = false) ->
  forall (i : nat) (int_keys : list Z) (str_keys : list key),
    (length int_keys <= i + fuel)%nat ->
    move_keys (S fuel) test conv i int_keys str_keys = Ok (int_keys, str_keys).
Proof.
  intros Htest. induction fuel as [|fuel IH]; intros i int_keys str_keys Hlen;
    cbn [move_keys]; destruct (int_keys !! i) as [x|] eqn:E;
    try reflexivity; rewrite Htest.
  - apply lookup_lt_Some in E. lia.
  - apply IH. lia.
Qed.

Lemma Sorted_seqZ (m n : Z) : Sorted Z.le (seqZ m n).
Proof.
  remember (Z.to_nat n) as k eqn:Hk. revert m n Hk.
  induction k as [|k IH]; intros m n Hk.
  - rewrite seqZ_nil by lia. constructor.
  - rewrite seqZ_cons by lia. constructor; [apply IH; lia|].
    destruct (Z.le_gt_cases (Z.pred n) 0) as [Hle|Hgt].
    + rewrite seqZ_nil by lia. constructor.
    + rewrite seqZ_cons by lia. constructor. lia.
Qed.

Lemma merge_sort_contiguous (int_keys : list Z) (k : Z) :
  int_keys ≡ₚ seqZ 0 k -> merge_sort Z.le int_keys = seqZ 0 k.
Proof.
  intros Hperm. apply (Sorted_unique Z.le).
  - apply (Sorted_merge_sort Z.le).
  - apply Sorted_seqZ.
  - rewrite merge_sort_Permutation. exact Hperm.
Qed.

Lemma contiguous_starts_at_zero (k : Z) :
  (len (seqZ 0 k) >? 0) && negb (default 0 (head (seqZ 0 k)) =? 0) = false.
Proof.
  destruct (Z.le_gt_cases k 0) as [Hle|Hgt].
  - rewrite seqZ_nil by lia. reflexivity.
  - rewrite seqZ_cons by lia. cbn [head default]. apply andb_false_r.
Qed.

Lemma for_each_fmap {S A B : Type} (f : A -> B) (l : list A) (body : B -> M S unit) :
  for_each (f <$> l) body = for_each l (fun x => body (f x)).
Proof.
  induction l as [|x l IH]; [reflexivity|].
  cbn [fmap list_fmap for_each]. f_equal. rewrite <- IH. reflexivity.
Qed.

(** X18: for a mapping without an empty string key whose keys are integers
    and strings and whose integer keys are exactly [0 .. k-1], with proxies
    disabled and the mapping not yet referenced,
    [writeDict] writes the marker [0x09], registers the mapping, and then
    writes the header [U29((k << 1) | 1)], every string key as a string
    body without a type marker followed by its value, the terminator
    [0x01], and the values of the keys [0 .. k-1] in ascending order; the
    mapping [{"a": 1, 0: "x"}] is encoded as
    [09 03 03 61 04 01 01 06 03 78]. *)
Theorem writeDict_contiguous_keys :
  (forall (rec : option bool -> value -> M Codec unit) (a : addr)
          (n : list (key * value)) (c : Codec),
     KStr [] ∉ n.*1 ->
     (forall tag, KOther tag ∉ n.*1) ->
     int_keys_of n.*1 ≡ₚ seqZ 0 (len (int_keys_of n.*1)) ->
     use_proxies c = false ->
     table_getReferenceTo (objects (context c)) a = -1 ->
     writeDict rec a n None c
     = (_writeInteger
          (Z.lor (Z.shiftl (len (int_keys_of n.*1)) 1) REFERENCE_BIT);;
        for_each (str_keys_of n.*1) (fun s =>
          _writeString s;;
          v ← dict_getitem n (KStr s);
          rec None v);;
        write_uchar 0x01;;
        for_each (seqZ 0 (len (int_keys_of n.*1))) (fun i =>
          v ← dict_getitem n (KInt i);
          rec None v))
         (registered TYPE_ARRAY a c))
  /\ (forall k : nat,
       let n := [(KStr [x61], VInt 1); (KInt 0, VStr [x78])] in
       let c := new_codec [] [ODict false n] in
       writeElement (2 + k) None (VRef 0%nat) c
       = (Ok tt,
          set_context
            (set_strings [[x61]; [x78]] (set_objects [0%nat] (context c)))
            (set_stream [x09; x03; x03; x61; x04; x01; x01; x06; x03; x78] c))).
Proof.
  split; [|intros k; vm_compute; reflexivity].
  intros rec a n c Hempty Hother Hperm Hup Href.
  rewrite writeDict_unreferenced by assumption.
  generalize (registered TYPE_ARRAY a c). intros c1.
  unfold writeDict_items.
  assert (Hnat : length (int_keys_of n.*1) = Z.to_nat (len (int_keys_of n.*1)))
    by (unfold len; lia).
  rewrite (bind_ok _ _ c1 c1 (int_keys_of n.*1, KStr <$> str_keys_of n.*1))
    by (unfold lift; rewrite classify_keys_ok by assumption; reflexivity).
  rewrite (bind_ok _ _ c1 c1 (int_keys_of n.*1, KStr <$> str_keys_of n.*1)).
  2:{ unfold lift. rewrite move_keys_never; [reflexivity| |lia].
      intros x. unfold len. apply andb_false_iff.
      destruct (Z.ltb_spec (Z.of_nat (length (int_keys_of n.*1))) x);
        [right; apply Z.leb_gt; lia | left; reflexivity]. }
  rewrite (merge_sort_contiguous _ _ Hperm).
  rewrite contiguous_starts_at_zero.
  rewrite (bind_ok _ _ c1 c1
             (seqZ 0 (len (int_keys_of n.*1)), KStr <$> str_keys_of n.*1))
    by reflexivity.
  rewrite for_each_fmap.
  replace (len (seqZ 0 (len (int_keys_of n.*1)))) with (len (int_keys_of n.*1))
    by (unfold len; rewrite length_seqZ; lia).
  reflexivity.
Qed.

End CodecProperties.

(** * Further properties *)

(** ** The U29 codec as a stream format *)

(** Every run of [decode_int] falls under one of five cases. *)
Lemma decode_int_cases (signed : bool) (s : istream) :
  (exists b0 rest, s = b0 :: rest /\ continues b0 = false
     /\ decode_int signed s = (Ok (ord b0), rest))
  \/ (exists b0 b1 rest, s = b0 :: b1 :: rest
        /\ continues b0 = true /\ continues b1 = false
        /\ decode_int signed s = (Ok ((ord b0 mod 128) * 2 ^ 7 + ord b1), rest))
  \/ (exists b0 b1 b2 rest, s = b0 :: b1 :: b2 :: rest
        /\ continues b0 = true /\ continues b1 = true /\ continues b2 = false
        /\ decode_int signed s
           = (Ok ((ord b0 mod 128) * 2 ^ 14 + (ord b1 mod 128) * 2 ^ 7 + ord b2),
              rest))
  \/ (exists b0 b1 b2 b3 rest, s = b0 :: b1 :: b2 :: b3 :: rest
        /\ continues b0 = true /\ continues b1 = true /\ continues b2 = true
        /\ decode_int signed s
           = (Ok (let v := u29_value4 b0 b1 b2 b3 in
                  if Z.testbit v 28
                  then if signed then v - 2 ^ 29 else Z.shiftl v 1 + 1
                  else v), rest))
  \/ ((length s < 4)%nat /\ Forall (fun b => continues b = true) s
      /\ decode_int signed s = (Raise EOStream, [])).
Proof.
  unfold decode_int, decode_int_fuel.
  destruct s as [|b0 s].
  { do 4 right. split; [cbn; lia|]. split; [constructor | reflexivity]. }
  destruct (continues b0) eqn:C0.
  2:{ left. exists b0, s. rewrite decode_int_1 by assumption. auto. }
  destruct s as [|b1 s].
  { do 4 right. split; [cbn; lia|]. split; [repeat constructor; assumption|].
    unfold decode_int_with. rewrite bind_run. cbn [read_uchar].
    rewrite bind_run, decode_int_loop_eof by (assumption || lia). reflexivity. }
  destruct (continues b1) eqn:C1.
  2:{ right; left. exists b0, b1, s. rewrite decode_int_2 by assumption. auto. }
  destruct s as [|b2 s].
  { do 4 right. split; [cbn; lia|]. split; [repeat constructor; assumption|].
    unfold decode_int_with. rewrite bind_run. cbn [read_uchar].
    rewrite bind_run, decode_int_loop_continue by (assumption || lia).
    rewrite decode_int_loop_eof by (assumption || lia). reflexivity. }
  destruct (continues b2) eqn:C2.
  2:{ do 2 right; left. exists b0, b1, b2, s.
      rewrite decode_int_3 by assumption. auto. }
  destruct s as [|b3 s].
  { do 4 right. split; [cbn; lia|]. split; [repeat constructor; assumption|].
    unfold decode_int_with. rewrite bind_run. cbn [read_uchar].
    rewrite bind_run, !decode_int_loop_continue by (assumption || lia).
    rewrite decode_int_loop_eof by (assumption || lia). reflexivity. }
  do 3 right; left. exists b0, b1, b2, b3, s.
  rewrite decode_int_4 by assumption. auto.
Qed.

Lemma Ok_pair_inj {A S : Type} (a b : A) (s t : S) :
  (Ok a, s) = (Ok b, t) -> a = b /\ s = t.
Proof. intros [= -> ->]. split; reflexivity. Qed.

Lemma encode_int_ok_range (n : Z) (bs : pystr) :
  encode_int n = Ok bs -> MIN_29B_INT <= n <= MAX_29B_INT.
Proof.
  intros H.
  destruct (Z.lt_ge_cases n MIN_29B_INT) as [Hlo|Hlo];
    [rewrite encode_int_overflow in H by (left; exact Hlo); discriminate|].
  destruct (Z.lt_ge_cases MAX_29B_INT n) as [Hhi|Hhi];
    [rewrite encode_int_overflow in H by (right; exact Hhi); discriminate|].
  lia.
Qed.

Lemma u29_range (n : Z) :
  MIN_29B_INT <= n <= MAX_29B_INT -> 0 <= u29 n < 2 ^ 29.
Proof.
  unfold MIN_29B_INT, MAX_29B_INT, u29. destruct (Z.ltb_spec n 0); lia.
Qed.

(** The signed decoder undoes [encode_int], whatever follows on the stream. *)
Lemma decode_encode_signed (n : Z) (bs : pystr) (rest : istream) :
  encode_int n = Ok bs -> decode_int true (bs ++ rest) = (Ok n, rest).
Proof.
  intros H. pose proof (encode_int_ok_range n bs H) as Hn.
  rewrite encode_int_wire in H by exact Hn. injection H as <-.
  unfold decode_int, decode_int_fuel.
  rewrite decode_int_wire by (apply u29_range, Hn).
  do 2 f_equal. revert Hn. unfold MIN_29B_INT, MAX_29B_INT, u29. intros Hn.
  destruct (Z.ltb_spec n 0);
    match goal with |- context [?a <? ?b] => destruct (Z.ltb_spec a b) end; lia.
Qed.

(** The unsigned decoder undoes [encode_int] on what the headers carry:
    a non-negative value of at most 28 bits. *)
Lemma decode_encode_unsigned (n : Z) (bs : pystr) (rest : istream) :
  0 <= n -> encode_int n = Ok bs -> decode_int false (bs ++ rest) = (Ok n, rest).
Proof.
  intros H0 H. pose proof (encode_int_ok_range n bs H) as Hn.
  rewrite encode_int_wire in H by exact Hn. injection H as <-.
  unfold decode_int, decode_int_fuel.
  assert (Hu : u29 n = n) by (unfold u29; destruct (Z.ltb_spec n 0); lia).
  rewrite Hu. unfold MAX_29B_INT in Hn.
  rewrite decode_int_wire by lia.
  destruct (Z.ltb_spec n (2 ^ 28)); [reflexivity | lia].
Qed.

(** X1: the encoding is self-delimiting: when two encoded integers, each
    followed by arbitrary bytes, give the same byte string, the integers,
    their encodings and the bytes that follow are the same. *)
Theorem encode_int_prefix_free (n m : Z) (bs bs' r r' : pystr) :
  encode_int n = Ok bs -> encode_int m = Ok bs' ->
  bs ++ r = bs' ++ r' ->
  n = m /\ bs = bs' /\ r = r'.
Proof.
  intros Hn Hm Heq.
  pose proof (decode_encode_signed n bs r Hn) as Dn.
  pose proof (decode_encode_signed m bs' r' Hm) as Dm.
  rewrite Heq, Dm in Dn. injection Dn as <- <-.
  split; [reflexivity|]. split; [congruence | reflexivity].
Qed.

(** X2: what [decode_int] can return: the signed variant stays within
    [-2^28, 2^28-1], so that [encode_int] accepts the result, and its
    encoding is never longer than the bytes that were consumed; the
    unsigned variant returns a value below [2^28], or else an odd value
    between [2^29] and [2^30]. *)
Theorem decode_int_range (signed : bool) (s s' : istream) (v : Z) :
  decode_int signed s = (Ok v, s') ->
  (signed = true ->
   MIN_29B_INT <= v <= MAX_29B_INT
   /\ exists bs, encode_int v = Ok bs
                 /\ (length bs + length s' <= length s)%nat)
  /\ (signed = false ->
      0 <= v < 2 ^ 28 \/ (2 ^ 29 < v < 2 ^ 30 /\ Z.odd v = true)).
Proof.
  intros H.
  assert (Henc : forall consumed : nat,
            MIN_29B_INT <= v <= MAX_29B_INT ->
            (consumed = 4%nat \/ 0 <= v < 2 ^ (7 * Z.of_nat consumed)
                                 /\ (1 <= consumed <= 3)%nat) ->
            (length s = consumed + length s')%nat ->
            MIN_29B_INT <= v <= MAX_29B_INT
            /\ exists bs, encode_int v = Ok bs
                          /\ (length bs + length s' <= length s)%nat).
  { intros consumed Hv Hc Hl. split; [exact Hv|].
    exists (u29_wire (u29 v)). split; [apply encode_int_wire, Hv|].
    rewrite Hl. apply Nat.add_le_mono_r.
    pose proof (u29_range v Hv) as Hu. revert Hu. unfold u29, u29_wire.
    destruct (Z.ltb_spec v 0); intros Hu;
      repeat match goal with
             | |- context [?a <=? ?b] => destruct (Z.leb_spec a b)
             end; cbn [length];
      destruct Hc as [->|[Hc1 Hc2]]; try lia;
      assert (Hc3 : (consumed = 1 \/ consumed = 2 \/ consumed = 3)%nat) by lia;
      destruct Hc3 as [Hc3|[Hc3|Hc3]]; subst consumed; cbn in Hc1; lia. }
  destruct (decode_int_cases signed s)
    as [(b0 & rest & -> & C0 & E)
       |[(b0 & b1 & rest & -> & C0 & C1 & E)
        |[(b0 & b1 & b2 & rest & -> & C0 & C1 & C2 & E)
         |[(b0 & b1 & b2 & b3 & rest & -> & C0 & C1 & C2 & E)
          |(_ & _ & E)]]]];
    rewrite E in H; [| | | |discriminate];
    apply Ok_pair_inj in H as [Hval <-].
  - subst v. apply continues_low in C0. pose proof (ord_range b0).
    split; intros _; [|left; lia].
    apply (Henc 1%nat); [unfold MIN_29B_INT, MAX_29B_INT; lia| |reflexivity].
    right. cbn. lia.
  - subst v. apply continues_low in C1. pose proof (ord_range b1).
    pose proof (Z.mod_pos_bound (ord b0) 128 ltac:(lia)).
    split; intros _; [|left; lia].
    apply (Henc 2%nat); [unfold MIN_29B_INT, MAX_29B_INT; lia| |reflexivity].
    right. cbn. lia.
  - subst v. apply continues_low in C2. pose proof (ord_range b2).
    pose proof (Z.mod_pos_bound (ord b0) 128 ltac:(lia)).
    pose proof (Z.mod_pos_bound (ord b1) 128 ltac:(lia)).
    split; intros _; [|left; lia].
    apply (Henc 3%nat); [unfold MIN_29B_INT, MAX_29B_INT; lia| |reflexivity].
    right. cbn. lia.
  - pose proof (u29_value4_range b0 b1 b2 b3) as Hv.
    destruct (bit28 _ Hv) as [_ Hbit]. cbv zeta in Hval.
    destruct (Z.testbit (u29_value4 b0 b1 b2 b3) 28) eqn:T.
    + assert (2 ^ 28 <= u29_value4 b0 b1 b2 b3) by (apply Hbit; reflexivity).
      destruct signed; subst v; (split; [intros Hs|intros Hs]);
        try discriminate Hs.
      * apply (Henc 4%nat); [unfold MIN_29B_INT, MAX_29B_INT; lia| |reflexivity].
        left; reflexivity.
      * right. rewrite Z.shiftl_mul_pow2 by lia. split; [lia|].
        apply Z.odd_spec. exists (u29_value4 b0 b1 b2 b3). lia.
    + assert (~ 2 ^ 28 <= u29_value4 b0 b1 b2 b3)
        by (intros Hge; apply Hbit in Hge; discriminate).
      subst v. split; intros _; [|left; lia].
      apply (Henc 4%nat); [unfold MIN_29B_INT, MAX_29B_INT; lia| |reflexivity].
      left; reflexivity.
Qed.

(** X3: [decode_int] fails in one way only: the stream ends, within its first
    three bytes, on a byte that carries the continuation flag (or is empty);
    the failure is the end-of-stream error and the bytes are consumed. *)
Theorem decode_int_failure (signed : bool) (s : istream) :
  ((length s < 4)%nat /\ Forall (fun b => continues b = true) s ->
   decode_int signed s = (Raise EOStream, []))
  /\ (forall e s', decode_int signed s = (Raise e, s') ->
        e = EOStream /\ s' = [] /\ (length s < 4)%nat
        /\ Forall (fun b => continues b = true) s).
Proof.
  destruct (decode_int_cases signed s)
    as [(b0 & rest & -> & C0 & E)
       |[(b0 & b1 & rest & -> & C0 & C1 & E)
        |[(b0 & b1 & b2 & rest & -> & C0 & C1 & C2 & E)
         |[(b0 & b1 & b2 & b3 & rest & -> & C0 & C1 & C2 & E)
          |(Hl & Hf & E)]]]]; rewrite E.
  1-4: split; [intros [Hl Hf]|intros e s' [=]]; exfalso;
    repeat match goal with
           | H : Forall _ (_ :: _) |- _ => apply Forall_cons_1 in H as [? H]
           end; try congruence; cbn [length] in Hl; lia.
  split; [reflexivity|]. intros e s' [= <- <-]. auto.
Qed.

(** ** Encoder and decoder, back to back *)

Section RoundTrips.
Context `{P : Platform} `{C : !Callbacks}.

Lemma stream_read_app (bs rest : list byte) (c : Codec) :
  stream_read (len bs) (set_stream (bs ++ rest) c) = (Ok bs, set_stream rest c).
Proof.
  unfold stream_read, len. cbn [stream set_stream].
  replace (Z.of_nat (length (bs ++ rest)) <? Z.of_nat (length bs)) with false
    by (symmetry; apply Z.ltb_ge; rewrite length_app; lia).
  rewrite Nat2Z.id, take_app_length, drop_app_length. reflexivity.
Qed.

Lemma readInteger_encoded (signed : bool) (n : Z) (bs rest : list byte) (c : Codec) :
  encode_int n = Ok bs -> (signed = false -> 0 <= n) ->
  readInteger signed (set_stream (bs ++ rest) c) = (Ok n, set_stream rest c).
Proof.
  intros Henc Hn. unfold readInteger, on_stream. cbn [stream set_stream].
  destruct signed.
  - rewrite (decode_encode_signed n bs rest Henc). reflexivity.
  - rewrite (decode_encode_unsigned n bs rest (Hn eq_refl) Henc). reflexivity.
Qed.

Lemma encode_int_header (x : Z) :
  0 <= x <= MAX_29B_INT -> encode_int x = Ok (u29_wire x).
Proof.
  intros Hx. rewrite encode_int_wire by (unfold MIN_29B_INT in *; unfold MAX_29B_INT in *; lia).
  unfold u29. destruct (Z.ltb_spec x 0); [lia | reflexivity].
Qed.

Lemma inline_header (l : Z) :
  Z.lor (Z.shiftl l 1) REFERENCE_BIT = 2 * l + 1
  /\ Z.shiftr (2 * l + 1) 1 = l
  /\ (Z.land (2 * l + 1) REFERENCE_BIT =? 0) = false.
Proof.
  unfold REFERENCE_BIT. split; [|split].
  - rewrite lor_shiftl_add by lia. lia.
  - rewrite Z.shiftr_div_pow2 by lia. Z.div_mod_to_equations; lia.
  - change 1 with (Z.ones 1) at 2. rewrite Z.land_ones by lia.
    apply Z.eqb_neq. Z.div_mod_to_equations; lia.
Qed.

Lemma reference_header (r : Z) :
  Z.shiftl r 1 = 2 * r
  /\ Z.shiftr (2 * r) 1 = r
  /\ (Z.land (2 * r) REFERENCE_BIT =? 0) = true.
Proof.
  unfold REFERENCE_BIT. split; [|split].
  - rewrite Z.shiftl_mul_pow2 by lia. lia.
  - rewrite Z.shiftr_div_pow2 by lia. Z.div_mod_to_equations; lia.
  - change 1 with (Z.ones 1). rewrite Z.land_ones by lia.
    apply Z.eqb_eq. Z.div_mod_to_equations; lia.
Qed.

Lemma writeInteger_run (n : Z) (c : Codec) :
  MIN_29B_INT <= n <= MAX_29B_INT ->
  writeInteger n c = (Ok tt, set_stream (stream c ++ x04 :: u29_wire (u29 n)) c).
Proof.
  intros Hn. unfold writeInteger.
  replace ((n <? MIN_29B_INT) || (n >? MAX_29B_INT)) with false
    by (symmetry; apply orb_false_intro;
        [apply Z.ltb_ge | rewrite Z.gtb_ltb; apply Z.ltb_ge]; lia).
  rewrite (bind_ok _ _ c (set_stream (stream c ++ [x04]) c) tt) by reflexivity.
  rewrite bind_run. unfold lift. rewrite encode_int_wire by lia.
  rewrite stream_write_run, set_stream_set_stream. cbn [stream set_stream].
  rewrite <- app_assoc. reflexivity.
Qed.

(** X4: [writeInteger] fails in one case only, and then writes nothing: an
    integer in the 29-bit range is written as the marker [0x04] and its U29
    form; any other integer is written as the marker [0x05] and the double
    that [float(n)] packs to, unless [float(n)] overflows, which raises
    [OverflowError] before the marker is written. *)
Theorem writeInteger_outcomes (n : Z) (c : Codec) :
  writeInteger n c
  = if (MIN_29B_INT <=? n) && (n <=? MAX_29B_INT)
    then (Ok tt, set_stream (stream c ++ x04 :: u29_wire (u29 n)) c)
    else
      match float_of_int n with
      | Some x => (Ok tt, set_stream (stream c ++ x05 :: pack_double x) c)
      | None => (Raise OverflowError, c)
      end.
Proof.
  assert (Hout : (n <? MIN_29B_INT) || (n >? MAX_29B_INT) = true ->
                 writeInteger n c
                 = match float_of_int n with
                   | Some x => (Ok tt, set_stream (stream c ++ x05 :: pack_double x) c)
                   | None => (Raise OverflowError, c)
                   end).
  { intros Htest. unfold writeInteger. rewrite Htest.
    destruct (float_of_int n) as [x|]; [|reflexivity].
    unfold writeNumber, write_double.
    rewrite (bind_ok _ _ c (set_stream (stream c ++ [x05]) c) tt) by reflexivity.
    rewrite stream_write_run, set_stream_set_stream. cbn [stream set_stream].
    rewrite <- app_assoc. reflexivity. }
  destruct (Z.leb_spec MIN_29B_INT n) as [Hlo|Hlo];
    [destruct (Z.leb_spec n MAX_29B_INT) as [Hhi|Hhi]|]; cbn [andb].
  - apply writeInteger_run. lia.
  - apply Hout, orb_true_intro. right. rewrite Z.gtb_ltb. apply Z.ltb_lt. lia.
  - apply Hout, orb_true_intro. left. apply Z.ltb_lt. lia.
Qed.

Lemma readElement_marker (t : byte) (s : list byte) (d : Codec) :
  stream_read 1 (set_stream (t :: s) d) = (Ok [t], set_stream s d).
Proof. exact (stream_read_app [t] s d). Qed.

Lemma readElement_integer (k : nat) (s : list byte) (d : Codec) :
  readElement (S k) (set_stream (x04 :: s) d)
  = (n ← readInteger true; mret (VInt n)) (set_stream s d).
Proof.
  cbn [readElement]. rewrite (bind_ok _ _ _ _ _ (readElement_marker x04 s d)).
  reflexivity.
Qed.

Lemma readElement_bytearray (k : nat) (s : list byte) (d : Codec) :
  readElement (S k) (set_stream (x0c :: s) d) = readByteArray (set_stream s d).
Proof.
  cbn [readElement]. rewrite (bind_ok _ _ _ _ _ (readElement_marker x0c s d)).
  reflexivity.
Qed.

Lemma readElement_array (k : nat) (s : list byte) (d : Codec) :
  readElement (S k) (set_stream (x09 :: s) d)
  = readArray k (readElement k) (set_stream s d).
Proof.
  cbn [readElement]. rewrite (bind_ok _ _ _ _ _ (readElement_marker x09 s d)).
  reflexivity.
Qed.

(** X5: an integer of the 29-bit range, written by [writeElement], is read back
    by [readElement] as the same integer, and the decoder stops right after
    its bytes. *)
Theorem integer_round_trip (n : Z) (e d : Codec) (rest : list byte)
    (k k' : nat) (up : option bool) :
  MIN_29B_INT <= n <= MAX_29B_INT ->
  exists bs,
    writeElement (S k) up (VInt n) e = (Ok tt, set_stream (stream e ++ bs) e)
    /\ readElement (S k') (set_stream (bs ++ rest) d)
       = (Ok (VInt n), set_stream rest d).
Proof.
  intros Hn. exists (x04 :: u29_wire (u29 n)). split.
  - cbn [writeElement]. apply writeInteger_run, Hn.
  - cbn [app]. rewrite readElement_integer.
    rewrite (bind_ok _ _ _ (set_stream rest d) n).
    + reflexivity.
    + apply readInteger_encoded; [apply encode_int_wire, Hn | discriminate].
Qed.

Lemma list_index_lookup {A : Type} `{EqDecision A} (t : list A) (x : A) (i : nat) :
  list_index t x = Some i -> t !! i = Some x.
Proof.
  revert i. induction t as [|y t IH]; intros i H; [discriminate|].
  cbn [list_index] in H. destruct (decide (y = x)) as [->|Hne].
  - injection H as <-. reflexivity.
  - destruct (list_index t x) as [j|]; [|discriminate].
    injection H as <-. cbn. apply IH. reflexivity.
Qed.

(** X6: a string body written by [_writeString] is read back by [readString]
    as the same string, whether it goes out inline or as a reference, and
    the string tables of the two contexts, equal before, are equal after.
    The string and the table must fit the 29-bit headers. *)
Theorem string_round_trip (e d : Codec) (s : pystr) (rest : list byte) :
  string_references e = true ->
  strings (context d) = strings (context e) ->
  len (strings (context e)) <= 2 ^ 27 ->
  len s < 2 ^ 27 ->
  exists bs e' d',
    _writeString s e = (Ok tt, e')
    /\ stream e' = stream e ++ bs
    /\ readString (set_stream (bs ++ rest) d) = (Ok (Some s), d')
    /\ stream d' = rest
    /\ strings (context d') = strings (context e').
Proof.
  intros Hrefs Hsync Htable Hlen.
  assert (Hlen0 : 0 <= len s) by (unfold len; lia).
  unfold _writeString.
  rewrite (bind_ok _ _ e e true) by (unfold gets; rewrite Hrefs; reflexivity).
  rewrite (bind_ok _ _ e e (table_getReferenceTo (strings (context e)) s))
    by reflexivity.
  unfold table_getReferenceTo.
  destruct (list_index (strings (context e)) s) as [i|] eqn:Hidx.
  - (* a reference *)
    pose proof (list_index_lookup _ _ _ Hidx) as Hlook.
    pose proof (lookup_lt_Some _ _ _ Hlook) as Hi.
    replace (negb (Z.of_nat i =? -1)) with true
      by (symmetry; apply negb_true_iff, Z.eqb_neq; lia).
    destruct (reference_header (Z.of_nat i)) as (Hshl & Hshr & Hbit).
    rewrite _writeInteger_run, Hshl.
    rewrite encode_int_header by (unfold MAX_29B_INT, len in *; lia).
    exists (u29_wire (2 * Z.of_nat i)), (set_stream (stream e ++ u29_wire (2 * Z.of_nat i)) e),
      (set_stream rest d).
    split; [reflexivity|]. split; [reflexivity|].
    split; [|split; [reflexivity | exact Hsync]].
    unfold readString, _readLength.
    rewrite (bind_ok _ _ _ (set_stream rest d) (Z.of_nat i, true)).
    + unfold getString, gets. cbn [context set_stream].
      rewrite Hsync. unfold table_getByReference.
      replace (Z.of_nat i <? 0) with false by (symmetry; apply Z.ltb_ge; lia).
      rewrite Nat2Z.id, Hlook. reflexivity.
    + rewrite (bind_ok _ _ _ (set_stream rest d) (2 * Z.of_nat i)).
      * rewrite Hshr, Hbit. reflexivity.
      * apply (readInteger_encoded false);
          [apply encode_int_header; unfold MAX_29B_INT, len in *; lia | lia].
  - (* inline *)
    change (negb (-1 =? -1)) with false. cbv iota.
    destruct (inline_header (len s)) as (Hlor & Hshr & Hbit).
    assert (Hhdr : encode_int (2 * len s + 1) = Ok (u29_wire (2 * len s + 1)))
      by (apply encode_int_header; unfold MAX_29B_INT; lia).
    assert (Hread : _readLength
                      (set_stream ((u29_wire (2 * len s + 1) ++ s) ++ rest) d)
                    = (Ok (len s, false), set_stream (s ++ rest) d)).
    { unfold _readLength.
      rewrite (bind_ok _ _ _ (set_stream (s ++ rest) d) (2 * len s + 1)).
      - rewrite Hshr, Hbit. reflexivity.
      - rewrite <- app_assoc. apply (readInteger_encoded false); [exact Hhdr | lia]. }
    destruct s as [|b s].
    + (* the empty string *)
      exists (u29_wire (2 * len (@nil byte) + 1) ++ []),
        (set_stream (stream e ++ u29_wire (2 * len (@nil byte) + 1) ++ []) e),
        (set_stream rest d).
      split.
      { rewrite (bind_ok _ _ e e (-1)) by reflexivity.
        rewrite bind_run, _writeInteger_run, Hlor, Hhdr.
        rewrite stream_write_run, set_stream_set_stream.
        cbn [stream set_stream]. rewrite <- app_assoc. reflexivity. }
      split; [reflexivity|].
      split; [|split; [reflexivity | exact Hsync]].
      unfold readString. rewrite (bind_ok _ _ _ _ _ Hread). reflexivity.
    + (* a string that is interned *)
      set (s' := b :: s) in *.
      set (e1 := set_context
                   (set_strings (strings (context e) ++ [s']) (context e)) e).
      exists (u29_wire (2 * len s' + 1) ++ s'),
        (set_stream (stream e ++ u29_wire (2 * len s' + 1) ++ s') e1),
        (set_context
           (set_strings (strings (context d) ++ [s']) (context d))
           (set_stream rest d)).
      split.
      { rewrite (bind_ok _ _ e e1 (len (strings (context e)))) by reflexivity.
        rewrite bind_run, _writeInteger_run, Hlor, Hhdr.
        rewrite stream_write_run, set_stream_set_stream.
        cbn [stream set_stream]. rewrite <- app_assoc. reflexivity. }
      split; [reflexivity|].
      split; [|split; [reflexivity | cbn; rewrite Hsync; reflexivity]].
      unfold readString. rewrite (bind_ok _ _ _ _ _ Hread).
      replace (len s' =? 0) with false
        by (symmetry; apply Z.eqb_neq; unfold len, s'; cbn [length]; lia).
      cbv iota.
      rewrite (bind_ok _ _ _ _ _ (stream_read_app s' rest d)).
      reflexivity.
Qed.

(** ** References to values seen before *)

Ltac enter_reference c a ref Href Hne :=
  try (rewrite (bind_ok _ _ _ _ _ (default_use_proxies_none c)));
  match goal with
  | |- context [stream_write [?m]] =>
    rewrite (bind_ok _ _ c (set_stream (stream c ++ [m]) c) tt) by reflexivity;
    rewrite (bind_ok _ _ _ _ _ (getObjectReference_run a _));
    cbn [context set_stream]; rewrite Href;
    replace (negb (ref =? -1)) with true
      by (symmetry; apply negb_true_iff, Z.eqb_neq, Hne);
    cbv iota; rewrite _writeInteger_run; unfold reference_form;
    destruct (encode_int (Z.shiftl ref 1)); try reflexivity;
    rewrite set_stream_set_stream; cbn [stream set_stream];
    rewrite <- app_assoc; reflexivity
  end.

(** X7: a composite value that the object table already holds is never written
    again: every writer emits its marker and the reference header, and
    leaves the context as it is. *)
Theorem composite_written_once (c : Codec) (a : addr) (ref : Z) :
  table_getReferenceTo (objects (context c)) a = ref ->
  ref <> -1 ->
  (forall rec n, use_proxies c = false ->
     writeList rec a n None c = reference_form TYPE_ARRAY ref c)
  /\ (forall rec n, KStr [] ∉ n.*1 -> use_proxies c = false ->
       writeDict rec a n None c = reference_form TYPE_ARRAY ref c)
  /\ (forall rec obj, use_proxies c = false ->
       writeObject rec a obj None c = reference_form TYPE_OBJECT ref c)
  /\ (forall n, is_time n = false ->
       writeDate a n c = reference_form TYPE_DATE ref c)
  /\ (forall n compressed,
       writeByteArray a n compressed c = reference_form TYPE_BYTEARRAY ref c)
  /\ (forall n,
       writeXML a n c
       = reference_form
           (if table_getReferenceTo (legacy_xml (context c)) a =? -1
            then TYPE_XMLSTRING else TYPE_XML) ref c).
Proof.
  intros Href Hne. repeat split.
  - intros rec n Hup. unfold writeList. rewrite (bind_ok _ _ _ _ _ (default_use_proxies_none c)), Hup.
    enter_reference c a ref Href Hne.
  - intros rec n Hempty Hup. unfold writeDict.
    replace (dict_contains n (KStr [])) with false
      by (symmetry; apply not_true_is_false; intros H;
          apply dict_contains_spec in H; contradiction).
    rewrite (bind_ok _ _ _ _ _ (default_use_proxies_none c)), Hup.
    enter_reference c a ref Href Hne.
  - intros rec obj Hup. unfold writeObject.
    rewrite (bind_ok _ _ _ _ _ (default_use_proxies_none c)), Hup.
    enter_reference c a ref Href Hne.
  - intros n Htime. unfold writeDate. rewrite Htime.
    enter_reference c a ref Href Hne.
  - intros n compressed. unfold writeByteArray.
    enter_reference c a ref Href Hne.
  - intros n. unfold writeXML.
    rewrite (bind_ok _ _ c c (table_getReferenceTo (legacy_xml (context c)) a))
      by reflexivity.
    destruct (table_getReferenceTo (legacy_xml (context c)) a =? -1);
      enter_reference c a ref Href Hne.
Qed.

(** X8: a reference header (low bit clear) is answered from the object table:
    [readDate], [readArray], [readByteArray] and [_readXML] return the
    object at that index, or [None] when the table has no such index;
    [readObject] raises [ReferenceError] in that case. *)
Theorem decoder_reference_headers (c c0 : Codec) (ref : Z) :
  readInteger false c = (Ok ref, c0) ->
  (Z.land ref REFERENCE_BIT =? 0) = true ->
  let found := table_getByReference (objects (context c)) (Z.shiftr ref 1) in
  readDate c = (Ok (value_of_ref found), c0)
  /\ (forall fuel rec, readArray fuel rec c = (Ok (value_of_ref found), c0))
  /\ readByteArray c = (Ok (value_of_ref found), c0)
  /\ (forall legacy, _readXML legacy c = (Ok (value_of_ref found), c0))
  /\ (forall rec,
       readObject rec None c
       = match found with
         | None => (Raise ReferenceError, c0)
         | Some a =>
           if use_proxies c then readProxy (VRef a) c0 else (Ok (VRef a), c0)
         end).
Proof.
  intros Hread Href found.
  destruct (readInteger_context _ _ _ _ Hread) as (Hctx & _ & _).
  assert (Hget : getObject (Z.shiftr ref 1) c0 = (Ok found, c0))
    by (unfold getObject, gets, found; rewrite Hctx; reflexivity).
  repeat split.
  - unfold readDate. rewrite (bind_ok _ _ _ _ _ Hread), Href.
    rewrite (bind_ok _ _ _ _ _ Hget). reflexivity.
  - intros fuel rec. unfold readArray. rewrite (bind_ok _ _ _ _ _ Hread), Href.
    rewrite (bind_ok _ _ _ _ _ Hget). reflexivity.
  - unfold readByteArray. rewrite (bind_ok _ _ _ _ _ Hread), Href.
    rewrite (bind_ok _ _ _ _ _ Hget). reflexivity.
  - intros legacy. unfold _readXML. rewrite (bind_ok _ _ _ _ _ Hread), Href.
    rewrite (bind_ok _ _ _ _ _ Hget). reflexivity.
  - intros rec. unfold readObject.
    rewrite (bind_ok _ _ _ _ _ (default_use_proxies_none c)).
    rewrite (bind_ok _ _ _ _ _ Hread), Href.
    rewrite (bind_ok _ _ _ _ _ Hget).
    destruct found; [destruct (use_proxies c)|]; reflexivity.
Qed.

(** ** Byte arrays and lists of integers *)

Lemma alloc_run (o : object) (c : Codec) :
  alloc o c = (Ok (length (heap c)), set_heap (heap c ++ [o]) c).
Proof. reflexivity. Qed.

(** X9: an uncompressed byte array that does not happen to be a zlib stream is
    written as the marker [0x0C], its length header and its bytes, and read
    back as a new byte array with the same bytes, registered in the
    decoder's object table as the encoder registered the original. *)
Theorem bytearray_round_trip (e d : Codec) (a : addr) (buf : pystr)
    (rest : list byte) (k k' : nat) (up : option bool) :
  heap e !! a = Some (OByteArray buf false) ->
  table_getReferenceTo (objects (context e)) a = -1 ->
  len buf < 2 ^ 27 ->
  zlib_decompress buf = None ->
  exists bs,
    writeElement (S k) up (VRef a) e
    = (Ok tt,
       set_context (set_objects (objects (context e) ++ [a]) (context e))
         (set_stream (stream e ++ bs) e))
    /\ readElement (S k') (set_stream (bs ++ rest) d)
       = (Ok (VRef (length (heap d))),
          with_object (length (heap d))
            (set_heap (heap d ++ [OByteArray buf false]) (set_stream rest d))).
Proof.
  intros Hheap Href Hlen Hzlib.
  assert (Hlen0 : 0 <= len buf) by (unfold len; lia).
  destruct (inline_header (len buf)) as (Hlor & Hshr & Hbit).
  assert (Hhdr : encode_int (2 * len buf + 1) = Ok (u29_wire (2 * len buf + 1)))
    by (apply encode_int_header; unfold MAX_29B_INT; lia).
  exists (x0c :: u29_wire (2 * len buf + 1) ++ buf). split.
  - cbn [writeElement]. rewrite (bind_ok _ _ e e (Some (OByteArray buf false)))
      by (unfold gets; rewrite Hheap; reflexivity).
    rewrite writeByteArray_unreferenced by exact Href.
    unfold writeByteArray_bytes, ByteArray_str. cbn [negb].
    rewrite (bind_ok _ _ _ _ buf) by reflexivity.
    rewrite bind_run, _writeInteger_run, Hlor, Hhdr.
    rewrite stream_write_run. unfold registered.
    cbn [stream set_stream set_context context].
    rewrite <- !app_assoc. reflexivity.
  - cbn [app]. rewrite readElement_bytearray, <- app_assoc.
    rewrite (readByteArray_inline _ (set_stream (buf ++ rest) d) (2 * len buf + 1));
      [|apply (readInteger_encoded false _ _ (buf ++ rest) d Hhdr); lia
       |exact Hbit].
    rewrite Hshr. cbn [stream set_stream].
    replace (len (buf ++ rest) <? len buf) with false
      by (symmetry; apply Z.ltb_ge; unfold len; rewrite length_app; lia).
    cbv zeta. unfold len. rewrite Nat2Z.id, take_app_length, drop_app_length.
    rewrite Hzlib. reflexivity.
Qed.

Lemma writeElement_integers (k : nat) (xs : list Z) (e : Codec) :
  Forall (fun x => MIN_29B_INT <= x <= MAX_29B_INT) xs ->
  for_each (VInt <$> xs) (writeElement (S k) None) e
  = (Ok tt, set_stream (stream e ++ integers_wire xs) e).
Proof.
  intros Hxs. revert e. induction Hxs as [|x xs Hx Hxs IH]; intros e.
  - unfold integers_wire. cbn. rewrite app_nil_r. destruct e; reflexivity.
  - cbn [fmap list_fmap for_each].
    rewrite (bind_ok _ _ e (set_stream (stream e ++ x04 :: u29_wire (u29 x)) e) tt).
    + rewrite IH. rewrite set_stream_set_stream. cbn [stream set_stream].
      unfold integers_wire. cbn [fmap list_fmap concat].
      rewrite <- app_assoc. reflexivity.
    + cbn [writeElement]. apply writeInteger_run, Hx.
Qed.

Lemma readElement_integers (k : nat) (a : addr) (xs : list Z) :
  Forall (fun x => MIN_29B_INT <= x <= MAX_29B_INT) xs ->
  forall (j : Z) (pre : list value) (rest : list byte) (d : Codec),
    heap d !! a = Some (OList pre) ->
    for_each (seqZ j (len xs)) (fun _ =>
      el ← readElement (S k);
      update a (list_append el))
      (set_stream (integers_wire xs ++ rest) d)
    = (Ok tt,
       set_heap (<[a := OList (pre ++ (VInt <$> xs))]> (heap d))
         (set_stream rest d)).
Proof.
  intros Hxs. induction Hxs as [|x xs Hx Hxs IH]; intros j pre rest d Hheap.
  - cbn. rewrite app_nil_r, list_insert_id by exact Hheap.
    destruct d; reflexivity.
  - replace (len (x :: xs)) with (Z.succ (len xs))
      by (unfold len; cbn [length]; lia).
    rewrite seqZ_cons by (unfold len; lia). rewrite Z.pred_succ.
    cbn [for_each]. unfold integers_wire. cbn [fmap list_fmap concat].
    fold (integers_wire xs). rewrite <- app_assoc. cbn [app].
    rewrite (bind_ok _ _ _
               (set_heap (<[a := OList (pre ++ [VInt x])]> (heap d))
                  (set_stream (integers_wire xs ++ rest) d)) tt).
    + etransitivity.
      * refine (IH (Z.succ j) (pre ++ [VInt x]) rest
                  (set_heap (<[a := OList (pre ++ [VInt x])]> (heap d)) d) _).
        cbn [heap set_heap]. apply list_lookup_insert_eq.
        apply (lookup_lt_Some _ _ _ Hheap).
      * cbn [heap set_heap]. rewrite list_insert_insert_eq, <- app_assoc.
        reflexivity.
    + rewrite (bind_ok _ _ _ (set_stream (integers_wire xs ++ rest) d) (VInt x)).
      * unfold update. cbn [heap set_stream]. rewrite Hheap. reflexivity.
      * rewrite readElement_integer.
        rewrite (bind_ok _ _ _ (set_stream (integers_wire xs ++ rest) d) x);
          [reflexivity|].
        apply readInteger_encoded; [apply encode_int_wire, Hx | discriminate].
Qed.

Lemma writeElement_list (k : nat) (up : option bool) (a : addr)
    (items : list value) (e : Codec) :
  heap e !! a = Some (OList items) ->
  writeElement (S k) up (VRef a) e = writeList (writeElement k) a items up e.
Proof.
  intros Hheap. cbn [writeElement].
  rewrite (bind_ok _ _ e e (Some (OList items)))
    by (unfold gets; rewrite Hheap; reflexivity).
  reflexivity.
Qed.

Lemma readString_empty (s : list byte) (d : Codec) :
  readString (set_stream (x01 :: s) d) = (Ok (Some []), set_stream s d).
Proof. reflexivity. Qed.

(** X10: a list of integers of the 29-bit range is written as the marker
    [0x09], the header of its length, the empty key [0x01] and the integers,
    and read back as a new list with the same integers, registered in the
    decoder's object table as the encoder registered the original. *)
Theorem integer_list_round_trip (e d : Codec) (a : addr) (xs : list Z)
    (rest : list byte) (k k' : nat) :
  heap e !! a = Some (OList (VInt <$> xs)) ->
  use_proxies e = false ->
  table_getReferenceTo (objects (context e)) a = -1 ->
  Forall (fun x => MIN_29B_INT <= x <= MAX_29B_INT) xs ->
  len xs < 2 ^ 27 ->
  exists bs,
    writeElement (S (S k)) None (VRef a) e
    = (Ok tt,
       set_context (set_objects (objects (context e) ++ [a]) (context e))
         (set_stream (stream e ++ bs) e))
    /\ readElement (S (S k')) (set_stream (bs ++ rest) d)
       = (Ok (VRef (length (heap d))),
          with_object (length (heap d))
            (set_heap (heap d ++ [OList (VInt <$> xs)]) (set_stream rest d))).
Proof.
  intros Hheap Hup Href Hxs Hlen.
  assert (Hlen0 : 0 <= len xs) by (unfold len; lia).
  assert (Hlenf : len (VInt <$> xs) = len xs)
    by (unfold len; rewrite length_fmap; reflexivity).
  destruct (inline_header (len xs)) as (Hlor & Hshr & Hbit).
  assert (Hhdr : encode_int (2 * len xs + 1) = Ok (u29_wire (2 * len xs + 1)))
    by (apply encode_int_header; unfold MAX_29B_INT; lia).
  exists (x09 :: u29_wire (2 * len xs + 1) ++ x01 :: integers_wire xs). split.
  - rewrite (writeElement_list _ _ _ _ _ Hheap).
    rewrite writeList_unreferenced by assumption.
    unfold writeList_items. rewrite Hlenf.
    rewrite bind_run, _writeInteger_run, Hlor, Hhdr.
    unfold write_uchar. rewrite bind_run. rewrite (bind_ok _ _ _ _ x01) by reflexivity.
    rewrite stream_write_run, writeElement_integers by assumption.
    unfold registered. cbn [stream set_stream set_context context].
    rewrite <- !app_assoc. reflexivity.
  - cbn [app]. rewrite readElement_array, <- app_assoc. cbn [app].
    rewrite (readArray_inline (S k') (readElement (S k')) _
               (set_stream (x01 :: integers_wire xs ++ rest) d)
               (set_stream (integers_wire xs ++ rest) d)
               (2 * len xs + 1) (Some []));
      [|apply (readInteger_encoded false _ _ _ d Hhdr); lia
       |exact Hbit
       |apply readString_empty].
    cbv zeta. rewrite Hshr.
    change (bool_decide (Some (@nil byte) = Some [])) with true. cbv iota.
    unfold readArray_list. cbn [heap set_stream].
    rewrite (bind_ok _ _ _
               (with_object (length (heap d))
                  (set_heap (heap d ++ [OList (VInt <$> xs)]) (set_stream rest d)))
               tt); [reflexivity|].
    etransitivity.
    + refine (readElement_integers k' (length (heap d)) xs Hxs 0 [] rest
                (with_object (length (heap d))
                   (set_heap (heap d ++ [OList []]) d)) _).
      cbn [heap with_object set_context set_heap].
      rewrite lookup_app_r by lia. rewrite Nat.sub_diag. reflexivity.
    + cbn [heap with_object set_context set_heap app].
      rewrite insert_app_r_alt by lia. rewrite Nat.sub_diag. reflexivity.
Qed.

(** ** Mappings with the keys of a list *)

Lemma dict_get_elem (n : list (key * value)) (k : key) (v : value) :
  NoDup n.*1 -> (k, v) ∈ n -> dict_get n k = Some v.
Proof.
  induction n as [|[k' v'] n IH]; intros Hnd Hin; [inversion Hin|].
  cbn [fmap list_fmap fst] in Hnd. apply NoDup_cons in Hnd as [Hk' Hnd].
  cbn [dict_get]. apply elem_of_cons in Hin as [Heq|Hin].
  - injection Heq as -> ->. rewrite decide_True by reflexivity. reflexivity.
  - destruct (decide (k' = k)) as [->|Hne]; [|apply IH; assumption].
    exfalso. apply Hk'. apply list_elem_of_fmap. exists (k, v). split; [reflexivity|exact Hin].
Qed.

Lemma for_each_values (rec : value -> M Codec unit) (n : list (key * value))
    (vs : list value) :
  forall (j : Z) (c : Codec),
    (forall (i : nat) (v : value),
       vs !! i = Some v -> dict_get n (KInt (j + Z.of_nat i)) = Some v) ->
    for_each (seqZ j (len vs)) (fun i => v ← dict_getitem n (KInt i); rec v) c
    = for_each vs rec c.
Proof.
  induction vs as [|v vs IH]; intros j c Hget; [reflexivity|].
  unfold len. rewrite seqZ_cons by (cbn [length]; lia).
  replace (Z.pred (Z.of_nat (length (v :: vs)))) with (len vs)
    by (unfold len; cbn [length]; lia).
  cbn [for_each]. rewrite !(bind_run _ _ c).
  assert (H0 : dict_get n (KInt j) = Some v)
    by (rewrite <- (Z.add_0_r j); apply (Hget 0%nat); reflexivity).
  unfold dict_getitem at 1. rewrite H0.
  change ((mret v : M Codec value) c) with (Ok v, c). cbv iota beta.
  destruct (rec v c) as [[[]| |] c']; try reflexivity.
  apply IH. intros i w Hi.
  replace (Z.succ j + Z.of_nat i) with (j + Z.of_nat (S i)) by lia.
  apply Hget. exact Hi.
Qed.

Lemma writeDict_items_contiguous (rec : option bool -> value -> M Codec unit)
    (n : list (key * value)) (c : Codec) :
  (forall tag, KOther tag ∉ n.*1) ->
  int_keys_of n.*1 ≡ₚ seqZ 0 (len (int_keys_of n.*1)) ->
  writeDict_items rec n c
  = (_writeInteger
       (Z.lor (Z.shiftl (len (int_keys_of n.*1)) 1) REFERENCE_BIT);;
     for_each (str_keys_of n.*1) (fun s =>
       _writeString s;;
       v ← dict_getitem n (KStr s);
       rec None v);;
     write_uchar 0x01;;
     for_each (seqZ 0 (len (int_keys_of n.*1))) (fun i =>
       v ← dict_getitem n (KInt i);
       rec None v)) c.
Proof.
  intros Hother Hperm. unfold writeDict_items.
  assert (Hnat : length (int_keys_of n.*1) = Z.to_nat (len (int_keys_of n.*1)))
    by (unfold len; lia).
  rewrite (bind_ok _ _ c c (int_keys_of n.*1, KStr <$> str_keys_of n.*1))
    by (unfold lift; rewrite classify_keys_ok by assumption; reflexivity).
  rewrite (bind_ok _ _ c c (int_keys_of n.*1, KStr <$> str_keys_of n.*1)).
  2:{ unfold lift. rewrite move_keys_never; [reflexivity| |lia].
      intros x. unfold len. apply andb_false_iff.
      destruct (Z.ltb_spec (Z.of_nat (length (int_keys_of n.*1))) x);
        [right; apply Z.leb_gt; lia | left; reflexivity]. }
  rewrite (merge_sort_contiguous _ _ Hperm).
  rewrite contiguous_starts_at_zero.
  rewrite (bind_ok _ _ c c
             (seqZ 0 (len (int_keys_of n.*1)), KStr <$> str_keys_of n.*1))
    by reflexivity.
  rewrite for_each_fmap.
  replace (len (seqZ 0 (len (int_keys_of n.*1)))) with (len (int_keys_of n.*1))
    by (unfold len; rewrite length_seqZ; lia).
  reflexivity.
Qed.

Lemma int_keys_of_KInt (l : list Z) : int_keys_of (KInt <$> l) = l.
Proof.
  induction l as [|x l IH]; [reflexivity|].
  cbn. unfold int_keys_of in IH. rewrite IH. reflexivity.
Qed.

Lemma str_keys_of_KInt (l : list Z) : str_keys_of (KInt <$> l) = [].
Proof. induction l as [|x l IH]; [reflexivity|exact IH]. Qed.

(** X11: a mapping whose keys are exactly the integers [0 .. k-1], in whatever
    order it iterates, is written byte for byte as the list of its values in
    the order of the keys, and leaves the encoder in the same state: on the
    wire the two cannot be told apart (so the empty mapping is the empty
    list). *)
Theorem writeDict_dense_as_list (rec : option bool -> value -> M Codec unit)
    (a : addr) (n : list (key * value)) (vs : list value) (c : Codec) :
  n ≡ₚ zip (KInt <$> seqZ 0 (len vs)) vs ->
  use_proxies c = false ->
  table_getReferenceTo (objects (context c)) a = -1 ->
  writeDict rec a n None c = writeList rec a vs None c.
Proof.
  intros Hn Hup Href.
  assert (Hkeys : n.*1 ≡ₚ KInt <$> seqZ 0 (len vs)).
  { rewrite Hn. rewrite fst_zip; [reflexivity|].
    rewrite length_fmap, length_seqZ. unfold len. lia. }
  assert (Hint : int_keys_of n.*1 ≡ₚ seqZ 0 (len vs)).
  { unfold int_keys_of. rewrite Hkeys. fold (int_keys_of (KInt <$> seqZ 0 (len vs))).
    rewrite int_keys_of_KInt. reflexivity. }
  assert (Hstr : str_keys_of n.*1 = []).
  { apply Permutation_nil_r. unfold str_keys_of. rewrite Hkeys.
    fold (str_keys_of (KInt <$> seqZ 0 (len vs))).
    rewrite str_keys_of_KInt. reflexivity. }
  assert (Hlen : len (int_keys_of n.*1) = len vs).
  { unfold len at 1. rewrite Hint, length_seqZ. unfold len. lia. }
  assert (Hnot : forall k, (forall i, k <> KInt i) -> k ∉ n.*1).
  { intros k Hk Hin. rewrite Hkeys in Hin.
    apply list_elem_of_fmap in Hin as (i & -> & _). exact (Hk i eq_refl). }
  assert (Hnd : NoDup n.*1).
  { rewrite Hkeys. apply NoDup_fmap_2; [|apply NoDup_seqZ].
    intros x y Heq. injection Heq as ->. reflexivity. }
  rewrite writeDict_unreferenced; [|apply Hnot; discriminate|assumption..].
  rewrite writeList_unreferenced by assumption.
  rewrite writeDict_items_contiguous;
    [|intros tag; apply Hnot; discriminate|rewrite Hlen; exact Hint].
  rewrite Hstr, Hlen. unfold writeList_items.
  generalize (registered TYPE_ARRAY a c). intros c1.
  rewrite !(bind_run _ _ c1).
  destruct (_writeInteger _ c1) as [[[]| |] c2]; try reflexivity.
  change ((for_each [] _;; write_uchar 1;; ?k) c2)
    with ((write_uchar 1;; k) c2).
  rewrite !(bind_run _ _ c2).
  destruct (write_uchar 1 c2) as [[[]| |] c3]; try reflexivity.
  apply for_each_values. intros i v Hi.
  apply dict_get_elem; [exact Hnd|]. rewrite Hn.
  apply list_elem_of_lookup. exists i. apply lookup_zip_Some. split; [|exact Hi].
  rewrite list_lookup_fmap, lookup_seqZ_lt; [reflexivity|].
  apply lookup_lt_Some in Hi. unfold len. lia.
Qed.

(** ** Mappings from strings to integers *)















(** ** Mappings whose integer keys do not start at zero *)










(** ** XML documents *)

Lemma _writeString_reference (e : Codec) (s : pystr) (i : nat) :
  string_references e = true ->
  list_index (strings (context e)) s = Some i ->
  Z.of_nat i < 2 ^ 27 ->
  _writeString s e = (Ok tt, set_stream (stream e ++ u29_wire (2 * Z.of_nat i)) e).
Proof.
  intros Hrefs Hidx Hi. unfold _writeString.
  rewrite (bind_ok _ _ e e true) by (unfold gets; rewrite Hrefs; reflexivity).
  rewrite (bind_ok _ _ e e (table_getReferenceTo (strings (context e)) s))
    by reflexivity.
  unfold table_getReferenceTo. rewrite Hidx.
  replace (negb (Z.of_nat i =? -1)) with true
    by (symmetry; apply negb_true_iff, Z.eqb_neq; lia).
  destruct (reference_header (Z.of_nat i)) as (Hshl & _ & _).
  rewrite _writeInteger_run, Hshl.
  rewrite encode_int_header by (unfold MAX_29B_INT; lia). reflexivity.
Qed.

Lemma _writeString_inline (e : Codec) (b : byte) (s : pystr) :
  string_references e = true ->
  list_index (strings (context e)) (b :: s) = None ->
  len (b :: s) < 2 ^ 27 ->
  _writeString (b :: s) e
  = (Ok tt,
     with_strings (strings (context e) ++ [b :: s])
       (set_stream (stream e ++ u29_wire (2 * len (b :: s) + 1) ++ b :: s) e)).
Proof.
  intros Hrefs Hidx Hlen.
  assert (Hlen0 : 0 <= len (b :: s)) by (unfold len; lia).
  unfold _writeString.
  rewrite (bind_ok _ _ e e true) by (unfold gets; rewrite Hrefs; reflexivity).
  rewrite (bind_ok _ _ e e (table_getReferenceTo (strings (context e)) (b :: s)))
    by reflexivity.
  unfold table_getReferenceTo. rewrite Hidx.
  change (negb (-1 =? -1)) with false. cbv iota.
  destruct (inline_header (len (b :: s))) as (Hlor & _ & _).
  rewrite (bind_ok _ _ e (with_strings (strings (context e) ++ [b :: s]) e)
             (len (strings (context e)))) by reflexivity.
  rewrite bind_run, _writeInteger_run, Hlor.
  rewrite encode_int_header by (unfold MAX_29B_INT; lia).
  rewrite stream_write_run, set_stream_set_stream.
  cbn [stream set_stream]. rewrite <- app_assoc. reflexivity.
Qed.

Lemma readElement_xml (k : nat) (s : list byte) (d : Codec) :
  readElement (S k) (set_stream (x0b :: s) d) = _readXML false (set_stream s d)
  /\ readElement (S k) (set_stream (x07 :: s) d) = _readXML true (set_stream s d).
Proof.
  split; cbn [readElement].
  - rewrite (bind_ok _ _ _ _ _ (readElement_marker x0b s d)). reflexivity.
  - rewrite (bind_ok _ _ _ _ _ (readElement_marker x07 s d)). reflexivity.
Qed.

Lemma writeElement_xml (k : nat) (up : option bool) (a : addr) (doc : xmldoc)
    (e : Codec) :
  heap e !! a = Some (OXML doc) ->
  writeElement (S k) up (VRef a) e = writeXML a doc e.
Proof.
  intros Hheap. cbn [writeElement].
  rewrite (bind_ok _ _ e e (Some (OXML doc)))
    by (unfold gets; rewrite Hheap; reflexivity).
  reflexivity.
Qed.

(** X14: an XML document whose text is new to the string table is written as its
    marker, the length header and the text, and is read back as the document
    that the text parses to.  The encoder, which writes the text with
    [_writeString], adds it to its string table; the decoder, which reads
    the bytes off the stream, does not: string tables that were equal before
    differ by this entry after. *)
Theorem xml_round_trip (e d : Codec) (a : addr) (doc doc' : xmldoc)
    (rest : list byte) (k k' : nat) :
  heap e !! a = Some (OXML doc) ->
  ET_fromstring (ET_tostring doc) = Some doc' ->
  ET_tostring doc <> [] ->
  len (ET_tostring doc) < 2 ^ 27 ->
  string_references e = true ->
  list_index (strings (context e)) (ET_tostring doc) = None ->
  table_getReferenceTo (objects (context e)) a = -1 ->
  strings (context d) = strings (context e) ->
  let s := ET_tostring doc in
  let legacy := negb (table_getReferenceTo (legacy_xml (context e)) a =? -1) in
  let bs := (if legacy then x07 else x0b) :: u29_wire (2 * len s + 1) ++ s in
  exists e' d',
    writeElement (S k) None (VRef a) e = (Ok tt, e')
    /\ stream e' = stream e ++ bs
    /\ objects (context e') = objects (context e) ++ [a]
    /\ readElement (S k') (set_stream (bs ++ rest) d)
       = (Ok (VRef (length (heap d))), d')
    /\ stream d' = rest
    /\ heap d' = heap d ++ [OXML doc']
    /\ objects (context d') = objects (context d) ++ [length (heap d)]
    /\ legacy_xml (context d')
       = (if legacy then legacy_xml (context d) ++ [length (heap d)]
          else legacy_xml (context d))
    /\ strings (context d') = strings (context d)
    /\ strings (context e') = strings (context d') ++ [s].
Proof.
  intros Hheap Hparse Hne Hlen Hrefs Hidx Href Hsync. cbv zeta.
  rewrite (writeElement_xml _ _ _ _ _ Hheap).
  rewrite writeXML_unreferenced by exact Href.
  remember (ET_tostring doc) as s eqn:Es.
  assert (Hlen0 : 0 <= len s) by (unfold len; lia).
  destruct (inline_header (len s)) as (Hlor & Hshr & Hbit).
  assert (Hhdr : encode_int (2 * len s + 1) = Ok (u29_wire (2 * len s + 1)))
    by (apply encode_int_header; unfold MAX_29B_INT; lia).
  assert (Hread : forall lg, _readXML lg (set_stream ((u29_wire (2 * len s + 1) ++ s) ++ rest) d)
            = (Ok (VRef (length (heap d))),
               let c2 := with_object (length (heap d))
                           (set_heap (heap d ++ [OXML doc']) (set_stream rest d)) in
               if lg
               then set_context
                      (set_legacy_xml (legacy_xml (context c2) ++ [length (heap d)])
                         (context c2)) c2
               else c2)).
  { intros lg.
    rewrite (readXML_inline lg _ (set_stream (s ++ rest) d) (2 * len s + 1));
      [|rewrite <- app_assoc; apply (readInteger_encoded false); [exact Hhdr|lia]
       |exact Hbit].
    rewrite Hshr. cbn [stream set_stream].
    replace (len (s ++ rest) <? len s) with false
      by (symmetry; apply Z.ltb_ge; unfold len; rewrite length_app; lia).
    cbv zeta. unfold len. rewrite !Nat2Z.id, take_app_length, !drop_app_length.
    rewrite Hparse. destruct lg; reflexivity. }
  destruct s as [|b s0]; [congruence|].
  rewrite _writeString_inline; [|exact Hrefs|exact Hidx|exact Hlen].
  cbn [app].
  destruct (table_getReferenceTo (legacy_xml (context e)) a =? -1); cbn [negb];
    eexists; eexists; (split; [reflexivity|]).
  - split; [cbn; rewrite <- app_assoc; reflexivity|]. split; [reflexivity|].
    rewrite (proj1 (readElement_xml k' _ d)), Hread.
    split; [reflexivity|]. repeat split. cbn. rewrite Hsync. reflexivity.
  - split; [cbn; rewrite <- app_assoc; reflexivity|]. split; [reflexivity|].
    rewrite (proj2 (readElement_xml k' _ d)), Hread.
    split; [reflexivity|]. repeat split. cbn. rewrite Hsync. reflexivity.
Qed.

(** X15: an XML document whose text is already in the encoder's string table is
    written as its marker and the reference header of that string.  The
    decoder takes the header for a reference into its object table: it
    returns the object at the index of the string, or [None], builds no
    document and adds nothing to its object table, while the encoder has
    added the document to its own. *)
Theorem xml_string_reference_misread (e d : Codec) (a : addr) (doc : xmldoc)
    (i : nat) (rest : list byte) (k k' : nat) :
  heap e !! a = Some (OXML doc) ->
  string_references e = true ->
  list_index (strings (context e)) (ET_tostring doc) = Some i ->
  Z.of_nat i < 2 ^ 27 ->
  table_getReferenceTo (objects (context e)) a = -1 ->
  let marker :=
    if table_getReferenceTo (legacy_xml (context e)) a =? -1 then x0b else x07 in
  let bs := marker :: u29_wire (2 * Z.of_nat i) in
  writeElement (S k) None (VRef a) e
  = (Ok tt,
     set_context (set_objects (objects (context e) ++ [a]) (context e))
       (set_stream (stream e ++ bs) e))
  /\ readElement (S k') (set_stream (bs ++ rest) d)
     = (Ok (value_of_ref (table_getByReference (objects (context d)) (Z.of_nat i))),
        set_stream rest d).
Proof.
  intros Hheap Hrefs Hidx Hi Href marker bs.
  destruct (reference_header (Z.of_nat i)) as (Hshl & Hshr & Hbit).
  assert (Hhdr : encode_int (2 * Z.of_nat i) = Ok (u29_wire (2 * Z.of_nat i)))
    by (apply encode_int_header; unfold MAX_29B_INT; lia).
  assert (Hread : forall lg,
            _readXML lg (set_stream (u29_wire (2 * Z.of_nat i) ++ rest) d)
            = (Ok (value_of_ref
                     (table_getByReference (objects (context d)) (Z.of_nat i))),
               set_stream rest d)).
  { intros lg. unfold _readXML.
    rewrite (bind_ok _ _ _ (set_stream rest d) (2 * Z.of_nat i))
      by (apply (readInteger_encoded false); [exact Hhdr|lia]).
    rewrite Hbit, Hshr.
    rewrite (bind_ok _ _ _ (set_stream rest d)
               (table_getByReference (objects (context d)) (Z.of_nat i)))
      by reflexivity.
    reflexivity. }
  split.
  - rewrite (writeElement_xml _ _ _ _ _ Hheap).
    rewrite writeXML_unreferenced by exact Href.
    rewrite (_writeString_reference _ _ i); [|exact Hrefs|exact Hidx|exact Hi].
    subst bs marker. unfold registered.
    destruct (table_getReferenceTo (legacy_xml (context e)) a =? -1);
      cbn [stream set_stream set_context context]; rewrite <- app_assoc; reflexivity.
  - subst bs marker. cbn [app].
    destruct (table_getReferenceTo (legacy_xml (context e)) a =? -1).
    + rewrite (proj1 (readElement_xml k' _ d)). apply Hread.
    + rewrite (proj2 (readElement_xml k' _ d)). apply Hread.
Qed.

End RoundTrips.

(** ** [DataOutput.writeBoolean] and [DataInput.readBoolean] *)

Section DataStreams.
Context `{P : Platform}.

(** X16: [DataInput.readBoolean] accepts exactly the two bytes that
    [DataOutput.writeBoolean] writes, and gives back the value written; any
    other byte is consumed and raises [ValueError], as does writing a value
    that is not a boolean, which leaves the stream as it was. *)
Theorem boolean_round_trip (e d : Codec) (rest : list byte) :
  (forall b : bool,
     DataOutput.writeBoolean (VBool b) e
     = (Ok tt, set_stream (stream e ++ [if b then x01 else x00]) e)
     /\ DataInput.readBoolean
          (set_stream ((if b then x01 else x00) :: rest) d)
        = (Ok b, set_stream rest d))
  /\ (forall t : byte,
        t <> x00 -> t <> x01 ->
        DataInput.readBoolean (set_stream (t :: rest) d)
        = (Raise ValueError, set_stream rest d))
  /\ (forall v : value,
        (forall b, v <> VBool b) ->
        DataOutput.writeBoolean v e = (Raise ValueError, e)).
Proof.
  split; [|split].
  - intros b; split; [destruct b; reflexivity|].
    unfold DataInput.readBoolean.
    rewrite (bind_ok _ _ _ _ _ (readElement_marker _ rest d)).
    destruct b; reflexivity.
  - intros t H0 H1. unfold DataInput.readBoolean.
    rewrite (bind_ok _ _ _ _ _ (readElement_marker t rest d)).
    rewrite decide_False by congruence. rewrite decide_False by congruence.
    reflexivity.
  - intros v Hv. destruct v as [| |b| | | | |]; try reflexivity.
    exfalso. exact (Hv b eq_refl).
Qed.

End DataStreams.

(** ** The class tables *)

Lemma addClass_consistent (alias klass : nat) (x : ClassTables.tables) :
  ClassTables.consistent x ->
  ClassTables.consistent (ClassTables.addClass alias klass x).2.
Proof.
  intros (Hidx & Hdom & Hcls). split; [|split]; cbn.
  - lia.
  - intros r Hr. destruct (decide (r = ClassTables.class_idx x)) as [->|Hne].
    + lia.
    + rewrite lookup_insert_ne in Hr by congruence.
      specialize (Hdom r Hr). lia.
  - assert (Hfresh : ClassTables.class_ref x !! ClassTables.class_idx x = None).
    { destruct (ClassTables.class_ref x !! ClassTables.class_idx x) eqn:E;
        [|reflexivity].
      assert (Hs : is_Some (ClassTables.class_ref x !! ClassTables.class_idx x))
        by (rewrite E; eexists; reflexivity).
      specialize (Hdom _ Hs). lia. }
    intros k a Hk. destruct (decide (a = alias)) as [->|Ha].
    + exists (ClassTables.class_idx x). rewrite !lookup_insert_eq. split; reflexivity.
    + destruct (decide (k = klass)) as [->|Hkk].
      * rewrite lookup_insert_eq in Hk. congruence.
      * rewrite lookup_insert_ne in Hk by congruence.
        destruct (Hcls k a Hk) as (r & Hr & Hra).
        exists r. rewrite lookup_insert_ne by congruence. split; [exact Hr|].
        rewrite lookup_insert_ne; [exact Hra|]. intros <-. congruence.
Qed.

Lemma clear_consistent (x : ClassTables.tables) :
  ClassTables.consistent (ClassTables.clear x).
Proof.
  split; [|split]; cbn.
  - lia.
  - intros r [a Hr]. rewrite lookup_empty in Hr. discriminate.
  - intros k a Hk. rewrite lookup_empty in Hk. discriminate.
Qed.

Lemma addClasses_run (adds : list (nat * nat)) :
  forall x : ClassTables.tables,
    ClassTables.consistent x ->
    let r := ClassTables.addClasses adds x in
    r.1 = seqZ (ClassTables.class_idx x) (len adds)
    /\ ClassTables.class_idx r.2 = ClassTables.class_idx x + len adds
    /\ ClassTables.consistent r.2
    /\ (forall ref, ref < ClassTables.class_idx x ->
          ClassTables.getClassByReference ref r.2
          = ClassTables.getClassByReference ref x)
    /\ (forall (i : nat) alias klass,
          adds !! i = Some (alias, klass) ->
          ClassTables.getClassByReference (ClassTables.class_idx x + Z.of_nat i) r.2
          = Some alias).
Proof.
  induction adds as [|[alias klass] adds IH]; intros x Hx r.
  - subst r. cbn. split; [reflexivity|]. split; [unfold len; cbn; lia|].
    split; [exact Hx|]. split; [reflexivity|]. intros i a k Hi. discriminate.
  - pose proof (addClass_consistent alias klass x Hx) as Hx1.
    specialize (IH _ Hx1). cbv zeta in IH.
    destruct IH as (Hrefs & Hidx & Hcons & Hbelow & Hadded).
    subst r. cbn [ClassTables.addClasses].
    change (ClassTables.addClass alias klass x)
      with (ClassTables.class_idx x, (ClassTables.addClass alias klass x).2).
    cbv iota beta.
    destruct (ClassTables.addClasses adds (ClassTables.addClass alias klass x).2)
      as [refs x2] eqn:Hrun.
    cbn [fst snd] in *.
    change (ClassTables.class_idx (ClassTables.addClass alias klass x).2)
      with (ClassTables.class_idx x + 1) in *.
    assert (Hlen : len ((alias, klass) :: adds) = len adds + 1)
      by (unfold len; cbn [length]; lia).
    assert (Hlen0 : 0 <= len adds) by (unfold len; lia).
    split.
    { rewrite Hlen. rewrite (seqZ_cons _ (len adds + 1)) by lia.
      rewrite Hrefs. do 2 f_equal; lia. }
    split; [rewrite Hidx; lia|]. split; [exact Hcons|]. split.
    { intros ref Href. rewrite Hbelow by lia.
      unfold ClassTables.getClassByReference. cbn.
      apply lookup_insert_ne. lia. }
    intros [|i] a k Hi.
    + injection Hi as -> ->. rewrite Z.add_0_r, Hbelow by lia.
      unfold ClassTables.getClassByReference. cbn. apply lookup_insert_eq.
    + replace (ClassTables.class_idx x + Z.of_nat (S i))
        with (ClassTables.class_idx x + 1 + Z.of_nat i) by lia.
      apply (Hadded i a k). exact Hi.
Qed.

(** X17: from a cleared context, [addClass] hands out the references
    [0, 1, 2, ...] in the order of the calls; afterwards
    [getClassByReference] gives for each of them the definition added under
    it and nothing for any other reference, and the definition that
    [getClass] finds for a class is the one filed under its own
    [reference]. *)
Theorem addClass_references (adds : list (nat * nat)) (x : ClassTables.tables) :
  let r := ClassTables.addClasses adds (ClassTables.clear x) in
  r.1 = seqZ 0 (len adds)
  /\ (forall (i : nat) alias klass,
        adds !! i = Some (alias, klass) ->
        ClassTables.getClassByReference (Z.of_nat i) r.2 = Some alias)
  /\ (forall ref, ref < 0 \/ len adds <= ref ->
        ClassTables.getClassByReference ref r.2 = None)
  /\ (forall klass alias,
        ClassTables.getClass klass r.2 = Some alias ->
        exists ref,
          ClassTables.reference r.2 !! alias = Some ref
          /\ ClassTables.getClassByReference ref r.2 = Some alias).
Proof.
  intros r.
  destruct (addClasses_run adds (ClassTables.clear x) (clear_consistent x))
    as (Hrefs & Hidx & (Hpos & Hdom & Hcls) & _ & Hadded).
  fold r in Hrefs, Hidx, Hpos, Hdom, Hcls, Hadded.
  change (ClassTables.class_idx (ClassTables.clear x)) with 0 in *.
  split; [exact Hrefs|]. split; [|split].
  - intros i a k Hi. rewrite <- (Hadded i a k Hi). f_equal.
  - intros ref Href. unfold ClassTables.getClassByReference.
    destruct (ClassTables.class_ref r.2 !! ref) as [a|] eqn:E; [|reflexivity].
    assert (Hs : is_Some (ClassTables.class_ref r.2 !! ref))
      by (rewrite E; eexists; reflexivity).
    specialize (Hdom _ Hs). lia.
  - exact Hcls.
Qed.
(** ** The theorems at concrete inputs *)

#[local] Existing Instance bare_platform.
#[local] Existing Instance bare_callbacks.

Lemma writeDict_empty_key_witness :
  let n : list (key * value) := [(KStr [], VInt 1)] in
  let c := new_codec [] [ODict false n] in
  KStr [] ∈ n.*1
  /\ writeDict (writeElement 0) 0%nat n None c
     = (Raise EncodeError, c).
Proof.
  intros n c.
  assert (H : KStr [] ∈ n.*1) by (apply list_elem_of_here).
  split; [exact H|].
  exact (proj1 (writeDict_empty_key (writeElement 0) 0%nat n None c H)).
Defined.

Lemma writeDict_bad_key_witness :
  let n : list (key * value) :=
    [(KStr [x61], VInt 1); (KOther 0, VInt 2)] in
  let c := new_codec [] [ODict false n] in
  (KStr [] ∉ n.*1)
  /\ (exists tag, KOther tag ∈ n.*1)
  /\ use_proxies c = false
  /\ table_getReferenceTo (objects (context c)) 0%nat = -1
  /\ writeDict (writeElement 0) 0%nat n None c
     = (Raise ValueError, registered TYPE_ARRAY 0%nat c).
Proof.
  intros n c.
  assert (H1 : KStr [] ∉ n.*1).
  { intros H. apply (bool_decide_pack (KStr [] ∈ n.*1)) in H.
    vm_compute in H. exact H. }
  assert (H2 : exists tag, KOther tag ∈ n.*1)
    by (exists 0%nat; apply list_elem_of_further, list_elem_of_here).
  assert (H3 : use_proxies c = false) by reflexivity.
  assert (H4 : table_getReferenceTo (objects (context c)) 0%nat = -1)
    by reflexivity.
  split; [exact H1|]. split; [exact H2|]. split; [exact H3|].
  split; [exact H4|].
  exact (proj1 (writeDict_bad_key (writeElement 0) 0%nat n c H1 H2 H3 H4)).
Defined.

Lemma registration_order_witness :
  let c := new_codec [] [OList [VInt 1]] in
  let d := new_codec [x01; x01; x00; x00; x00; x00; x00; x00; x00] [] in
  let d0 := set_stream [x01; x00; x00; x00; x00; x00; x00; x00] d in
  let d1 := set_stream [x00; x00; x00; x00; x00; x00; x00] d in
  (table_getReferenceTo (objects (context c)) 0%nat = -1
   /\ use_proxies c = false
   /\ writeList (writeElement 1) 0%nat [VInt 1] None c
      = writeList_items (writeElement 1) [VInt 1] (registered TYPE_ARRAY 0%nat c)
   /\ ((KStr [] ∉ [(KStr [x61], VInt 1)].*1)
       /\ writeDict (writeElement 1) 0%nat [(KStr [x61], VInt 1)] None c
          = writeDict_items (writeElement 1) [(KStr [x61], VInt 1)]
              (registered TYPE_ARRAY 0%nat c))
   /\ (is_time tt = false
       /\ writeDate 0%nat tt c = writeDate_value tt (registered TYPE_DATE 0%nat c)))
  /\ (readInteger false d = (Ok 1, d0)
      /\ (Z.land 1 REFERENCE_BIT =? 0) = false
      /\ (readString d0 = (Ok (Some []), d1)
          /\ readArray 1 (readElement 1) d
             = readArray_list (readElement 1) 0 0%nat
                 (with_object 0%nat (set_heap [OList []] d1)))
      /\ (_getClassDefinition 0 d0 = (Ok tt, d0)
          /\ createInstance tt d0 = (Ok 0%nat, set_heap [OInstance tt] d0)
          /\ readObject (readElement 1) None d
             = (Ok (VRef 0%nat), with_object 0%nat (set_heap [OInstance tt] d0)))
      /\ readDate d
         = (Ok (VRef 0%nat),
            with_object 0%nat (set_heap [ODate tt] (set_stream [] d)))).
Proof.
  intros c d d0 d1.
  assert (Href : table_getReferenceTo (objects (context c)) 0%nat = -1)
    by reflexivity.
  assert (Hup : use_proxies c = false) by reflexivity.
  assert (Hkey : KStr [] ∉ [(KStr [x61], @VInt bare_platform 1)].*1).
  { intros H. apply (bool_decide_pack _) in H. vm_compute in H. exact H. }
  assert (Htime : is_time tt = false) by reflexivity.
  assert (Hread : readInteger false d = (Ok 1, d0)) by reflexivity.
  assert (Hinline : (Z.land 1 REFERENCE_BIT =? 0) = false) by reflexivity.
  assert (Hstr : readString d0 = (Ok (Some []), d1)) by reflexivity.
  assert (Hclass : _getClassDefinition 0 d0 = (Ok tt, d0)) by reflexivity.
  assert (Hnew : createInstance tt d0 = (Ok 0%nat, set_heap [OInstance tt] d0))
    by reflexivity.
  destruct (registration_order c 0%nat) as [Henc _].
  destruct (Henc Href) as (Hlist & Hdict & _ & Hdate & _).
  destruct (registration_order d 0%nat) as [_ Hdec].
  destruct (Hdec 1 d0 Hread Hinline) as (_ & Harr & Hobj & Hrd & _).
  split.
  - split; [exact Href|]. split; [exact Hup|].
    split; [exact (Hlist (writeElement 1) [VInt 1] Hup)|].
    split; [split; [exact Hkey | exact (Hdict (writeElement 1) _ Hkey Hup)]|].
    split; [exact Htime | exact (Hdate tt Htime)].
  - split; [exact Hread|]. split; [exact Hinline|].
    split; [split; [exact Hstr | exact (Harr 1%nat (readElement 1) _ _ Hstr)]|].
    split; [split; [exact Hclass|split;
      [exact Hnew | exact (Hobj (readElement 1) tt 0%nat d0 _ Hclass Hnew)]]|].
    exact Hrd.
Defined.

(** C3 as stated fails in the decoder: when the stream ends inside the
    payload, [readDate] and [readByteArray] fail with nothing in the object
    table, so the payload is read before the result is registered; so does
    [readDate] on a timestamp that is not a number, which is read and then
    refused; after a payload that can be read, the table holds the result. *)
Lemma decoder_registers_after_payload :
  let d := new_codec [x01; x00; x00; x00; x00; x00; x00; x00] [] in
  let b := new_codec [x05; x00] [] in
  let d' := new_codec [x01; x00; x00; x00; x00; x00; x00; x00; x00] [] in
  let nan := new_codec [x01; x7f; xf8; x00; x00; x00; x00; x00; x00] [] in
  readDate d = (Raise EOStream, set_stream [x00; x00; x00; x00; x00; x00; x00] d)
  /\ objects (context (readDate d).2) = []
  /\ readByteArray b = (Raise EOStream, set_stream [x00] b)
  /\ objects (context (readByteArray b).2) = []
  /\ (readDate d').1 = Ok (VRef 0%nat)
  /\ objects (context (readDate d').2) = [0%nat]
  /\ readDate nan = (Raise ExternalError, set_stream [] nan)
  /\ objects (context (readDate nan).2) = [].
Proof. repeat split; vm_compute; reflexivity. Qed.

Lemma string_reference_emission_witness :
  let c := set_context (set_strings [[x61]] new_context) (new_codec [] []) in
  string_references c = true
  /\ (table_getReferenceTo (strings (context c)) [x61] = 0
      /\ 0 <> -1
      /\ _writeString [x61] c = (Ok tt, set_stream [x00] c))
  /\ (table_getReferenceTo (strings (context c)) [x62] = -1
      /\ [x62] <> []
      /\ _writeString [x62] c
         = (Ok tt,
            set_stream [x03; x62]
              (set_context (set_strings [[x61]; [x62]] (context c)) c))).
Proof.
  intros c.
  assert (Hrefs : string_references c = true) by reflexivity.
  assert (H0 : table_getReferenceTo (strings (context c)) [x61] = 0)
    by reflexivity.
  assert (Hne : 0 <> -1) by discriminate.
  assert (H1 : table_getReferenceTo (strings (context c)) [x62] = -1)
    by reflexivity.
  assert (Hs : [x62] <> @nil byte) by discriminate.
  destruct (proj1 string_reference_emission c [x61] Hrefs) as [Href _].
  destruct (proj1 string_reference_emission c [x62] Hrefs) as [_ Hnew].
  split; [exact Hrefs|]. split.
  - split; [exact H0|]. split; [exact Hne|]. exact (Href 0 H0 Hne).
  - split; [exact H1|]. split; [exact Hs|]. exact (Hnew H1 Hs).
Defined.

Lemma empty_string_not_interned_witness :
  let c := new_codec [x01; x2a] [] in
  on_stream (decode_int false) c = (Ok 1, set_stream [x2a] c)
  /\ (Z.land 1 REFERENCE_BIT =? 0) = false
  /\ Z.shiftr 1 1 = 0
  /\ readUnicode c = (Ok [], set_stream [x2a] c)
  /\ readString c = (Ok (Some []), set_stream [x2a] c).
Proof.
  intros c.
  assert (H1 : on_stream (decode_int false) c = (Ok 1, set_stream [x2a] c))
    by reflexivity.
  assert (H2 : (Z.land 1 REFERENCE_BIT =? 0) = false) by reflexivity.
  assert (H3 : Z.shiftr 1 1 = 0) by reflexivity.
  destruct (proj2 (proj2 (empty_string_not_interned c)) 1 _ H1 H2 H3)
    as (Hu & Hs & _).
  split; [exact H1|]. split; [exact H2|]. split; [exact H3|].
  split; [exact Hu | exact Hs].
Defined.

Lemma writeDict_contiguous_keys_witness :
  let n : list (key * value) := [(KStr [x61], VInt 1); (KInt 0, VStr [x78])] in
  let c := new_codec [] [ODict false n] in
  (KStr [] ∉ n.*1)
  /\ (forall tag, KOther tag ∉ n.*1)
  /\ int_keys_of n.*1 ≡ₚ seqZ 0 (len (int_keys_of n.*1))
  /\ use_proxies c = false
  /\ table_getReferenceTo (objects (context c)) 0%nat = -1
  /\ writeDict (writeElement 1) 0%nat n None c
     = (Ok tt,
        set_context
          (set_strings [[x61]; [x78]] (set_objects [0%nat] (context c)))
          (set_stream [x09; x03; x03; x61; x04; x01; x01; x06; x03; x78] c)).
Proof.
  intros n c.
  assert (H1 : KStr [] ∉ n.*1).
  { intros H. apply (bool_decide_pack _) in H. vm_compute in H. exact H. }
  assert (H2 : forall tag, KOther tag ∉ n.*1).
  { intros tag H. apply elem_of_cons in H as [H|H]; [discriminate H|].
    apply elem_of_cons in H as [H|H]; [discriminate H|].
    apply elem_of_nil in H. exact H. }
  assert (H3 : int_keys_of n.*1 ≡ₚ seqZ 0 (len (int_keys_of n.*1)))
    by (change ([0] ≡ₚ [0]); reflexivity).
  assert (H4 : use_proxies c = false) by reflexivity.
  assert (H5 : table_getReferenceTo (objects (context c)) 0%nat = -1)
    by reflexivity.
  split; [exact H1|]. split; [exact H2|]. split; [exact H3|].
  split; [exact H4|]. split; [exact H5|].
  rewrite (proj1 writeDict_contiguous_keys (writeElement 1) 0%nat n c
             H1 H2 H3 H4 H5).
  reflexivity.
Defined.

(** C4, the code against the claim: for [{"a": 1, 2: "x"}] the label ["a"]
    is written as [03 61] without a type marker, and after the label ["2"]
    the value is looked up under the string ["2"], which is not a key:
    [KeyError], with [09 01 03 61 04 01 03 32] on the stream, not the bytes
    of the claim; and for [{0: 1, 5: 2}] the key [5], outside the zero-based
    contiguous prefix, stays in the dense part. *)
Lemma writeDict_reclassification_fails :
  let n : list (key * value) := [(KStr [x61], VInt 1); (KInt 2, VStr [x78])] in
  let c := new_codec [] [ODict false n] in
  let m : list (key * value) := [(KInt 0, VInt 1); (KInt 5, VInt 2)] in
  let c' := new_codec [] [ODict false m] in
  (writeElement 5 None (VRef 0%nat) c).1 = Raise KeyError
  /\ stream (writeElement 5 None (VRef 0%nat) c).2
     = [x09; x01; x03; x61; x04; x01; x03; x32]
  /\ stream (writeElement 5 None (VRef 0%nat) c).2
     <> [x09; x01; x06; x03; x61; x04; x01; x06; x03; x32; x06; x03; x78; x01]
  /\ (writeElement 5 None (VRef 0%nat) c').1 = Ok tt
  /\ stream (writeElement 5 None (VRef 0%nat) c').2
     = [x09; x05; x01; x04; x01; x04; x02].
Proof.
  intros n c m c'.
  split; [vm_compute; reflexivity|]. split; [vm_compute; reflexivity|].
  split; [vm_compute; discriminate|].
  split; vm_compute; reflexivity.
Qed.

(** ** The further properties at concrete inputs *)

Lemma encode_int_prefix_free_witness :
  encode_int 300 = Ok [x82; x2c]
  /\ encode_int 300 = Ok [x82; x2c]
  /\ [x82; x2c] ++ [x07] = [x82; x2c] ++ [x07]
  /\ (300 = 300 /\ [x82; x2c] = [x82; x2c] /\ [x07] = [x07]).
Proof.
  assert (H : encode_int 300 = Ok [x82; x2c]) by (vm_compute; reflexivity).
  split; [exact H|]. split; [exact H|]. split; [reflexivity|].
  exact (encode_int_prefix_free 300 300 [x82; x2c] [x82; x2c] [x07] [x07]
           H H eq_refl).
Defined.

Lemma decode_int_range_witness :
  decode_int true [x7f; x05] = (Ok 127, [x05])
  /\ MIN_29B_INT <= 127 <= MAX_29B_INT.
Proof.
  assert (H : decode_int true [x7f; x05] = (Ok 127, [x05]))
    by (vm_compute; reflexivity).
  split; [exact H|].
  exact (proj1 (proj1 (decode_int_range true [x7f; x05] [x05] 127 H) eq_refl)).
Defined.

Lemma decode_int_failure_witness :
  ((length [x81; x82] < 4)%nat /\ Forall (fun b => continues b = true) [x81; x82])
  /\ decode_int true [x81; x82] = (Raise EOStream, []).
Proof.
  assert (H : (length [x81; x82] < 4)%nat
              /\ Forall (fun b => continues b = true) [x81; x82]).
  { split; [cbn; lia|]. repeat constructor. }
  split; [exact H|].
  exact (proj1 (decode_int_failure true [x81; x82]) H).
Defined.

Lemma writeInteger_outcomes_witness :
  writeInteger (2 ^ 1024) (new_codec [] [])
  = (Raise OverflowError, new_codec [] [])
  /\ writeInteger (2 ^ 28) (new_codec [] [])
     = (Ok tt,
        set_stream [x05; x00; x00; x00; x00; x00; x00; x00; x00] (new_codec [] []))
  /\ writeInteger (-1) (new_codec [] [])
     = (Ok tt, set_stream [x04; xff; xff; xff; xff] (new_codec [] [])).
Proof.
  split; [|split].
  - exact (writeInteger_outcomes (2 ^ 1024) (new_codec [] [])).
  - exact (writeInteger_outcomes (2 ^ 28) (new_codec [] [])).
  - exact (writeInteger_outcomes (-1) (new_codec [] [])).
Defined.

Lemma integer_round_trip_witness :
  MIN_29B_INT <= 5 <= MAX_29B_INT
  /\ exists bs,
       writeElement 1 None (VInt 5) (new_codec [] [])
       = (Ok tt, set_stream (stream (new_codec [] []) ++ bs) (new_codec [] []))
       /\ readElement 1 (set_stream (bs ++ [x00]) (new_codec [] []))
          = (Ok (VInt 5), set_stream [x00] (new_codec [] [])).
Proof.
  assert (H : MIN_29B_INT <= 5 <= MAX_29B_INT)
    by (unfold MIN_29B_INT, MAX_29B_INT; lia).
  split; [exact H|].
  exact (integer_round_trip 5 (new_codec [] []) (new_codec [] []) [x00]
           0%nat 0%nat None H).
Defined.

Lemma string_round_trip_witness :
  let e := new_codec [] [] in
  let d := new_codec [] [] in
  string_references e = true
  /\ strings (context d) = strings (context e)
  /\ len (strings (context e)) <= 2 ^ 27
  /\ len [x61; x62] < 2 ^ 27
  /\ exists bs e' d',
       _writeString [x61; x62] e = (Ok tt, e')
       /\ stream e' = stream e ++ bs
       /\ readString (set_stream (bs ++ [x00]) d) = (Ok (Some [x61; x62]), d')
       /\ stream d' = [x00]
       /\ strings (context d') = strings (context e').
Proof.
  intros e d.
  assert (H1 : string_references e = true) by reflexivity.
  assert (H2 : strings (context d) = strings (context e)) by reflexivity.
  assert (H3 : len (strings (context e)) <= 2 ^ 27) by (unfold len; cbn; lia).
  assert (H4 : len [x61; x62] < 2 ^ 27) by (unfold len; cbn; lia).
  split; [exact H1|]. split; [exact H2|]. split; [exact H3|]. split; [exact H4|].
  exact (string_round_trip e d [x61; x62] [x00] H1 H2 H3 H4).
Defined.

Lemma composite_written_once_witness :
  let c := set_context (set_objects [0%nat] new_context)
             (new_codec [] [OByteArray [x01] false]) in
  table_getReferenceTo (objects (context c)) 0%nat = 0
  /\ 0 <> -1
  /\ writeByteArray 0%nat [x01] false c = reference_form TYPE_BYTEARRAY 0 c.
Proof.
  intros c.
  assert (H1 : table_getReferenceTo (objects (context c)) 0%nat = 0)
    by reflexivity.
  assert (H2 : 0 <> -1) by lia.
  split; [exact H1|]. split; [exact H2|].
  exact (proj1 (proj2 (proj2 (proj2 (proj2
           (composite_written_once c 0%nat 0 H1 H2))))) [x01] false).
Defined.

Lemma decoder_reference_headers_witness :
  let c := set_context (set_objects [0%nat] new_context)
             (new_codec [x00; x07] [OByteArray [x01] false]) in
  let c0 := set_stream [x07] c in
  readInteger false c = (Ok 0, c0)
  /\ (Z.land 0 REFERENCE_BIT =? 0) = true
  /\ readByteArray c = (Ok (VRef 0%nat), c0).
Proof.
  intros c c0.
  assert (H1 : readInteger false c = (Ok 0, c0)) by reflexivity.
  assert (H2 : (Z.land 0 REFERENCE_BIT =? 0) = true) by reflexivity.
  split; [exact H1|]. split; [exact H2|].
  exact (proj1 (proj2 (proj2 (decoder_reference_headers c c0 0 H1 H2)))).
Defined.

Lemma bytearray_round_trip_witness :
  let e := new_codec [] [OByteArray [x01; x02] false] in
  let d := new_codec [] [] in
  heap e !! 0%nat = Some (OByteArray [x01; x02] false)
  /\ table_getReferenceTo (objects (context e)) 0%nat = -1
  /\ len [x01; x02] < 2 ^ 27
  /\ zlib_decompress [x01; x02] = None
  /\ exists bs,
       writeElement 1 None (VRef 0%nat) e
       = (Ok tt,
          set_context (set_objects (objects (context e) ++ [0%nat]) (context e))
            (set_stream (stream e ++ bs) e))
       /\ readElement 1 (set_stream (bs ++ [x00]) d)
          = (Ok (VRef (length (heap d))),
             with_object (length (heap d))
               (set_heap (heap d ++ [OByteArray [x01; x02] false])
                  (set_stream [x00] d))).
Proof.
  intros e d.
  assert (H1 : heap e !! 0%nat = Some (OByteArray [x01; x02] false))
    by reflexivity.
  assert (H2 : table_getReferenceTo (objects (context e)) 0%nat = -1)
    by reflexivity.
  assert (H3 : len [x01; x02] < 2 ^ 27) by (unfold len; cbn; lia).
  assert (H4 : zlib_decompress [x01; x02] = None) by reflexivity.
  split; [exact H1|]. split; [exact H2|]. split; [exact H3|]. split; [exact H4|].
  exact (bytearray_round_trip e d 0%nat [x01; x02] [x00] 0%nat 0%nat None
           H1 H2 H3 H4).
Defined.

Lemma integer_list_round_trip_witness :
  let e := new_codec [] [OList (VInt <$> [1; -2])] in
  let d := new_codec [] [] in
  heap e !! 0%nat = Some (OList (VInt <$> [1; -2]))
  /\ use_proxies e = false
  /\ table_getReferenceTo (objects (context e)) 0%nat = -1
  /\ Forall (fun x => MIN_29B_INT <= x <= MAX_29B_INT) [1; -2]
  /\ len [1; -2] < 2 ^ 27
  /\ exists bs,
       writeElement 2 None (VRef 0%nat) e
       = (Ok tt,
          set_context (set_objects (objects (context e) ++ [0%nat]) (context e))
            (set_stream (stream e ++ bs) e))
       /\ readElement 2 (set_stream (bs ++ [x00]) d)
          = (Ok (VRef (length (heap d))),
             with_object (length (heap d))
               (set_heap (heap d ++ [OList (VInt <$> [1; -2])])
                  (set_stream [x00] d))).
Proof.
  intros e d.
  assert (H1 : heap e !! 0%nat = Some (OList (VInt <$> [1; -2]))) by reflexivity.
  assert (H2 : use_proxies e = false) by reflexivity.
  assert (H3 : table_getReferenceTo (objects (context e)) 0%nat = -1)
    by reflexivity.
  assert (H4 : Forall (fun x => MIN_29B_INT <= x <= MAX_29B_INT) [1; -2])
    by (repeat constructor; unfold MIN_29B_INT, MAX_29B_INT; lia).
  assert (H5 : len [1; -2] < 2 ^ 27) by (unfold len; cbn; lia).
  split; [exact H1|]. split; [exact H2|]. split; [exact H3|]. split; [exact H4|].
  split; [exact H5|].
  exact (integer_list_round_trip e d 0%nat [1; -2] [x00] 0%nat 0%nat
           H1 H2 H3 H4 H5).
Defined.

Lemma writeDict_dense_as_list_witness :
  let n : list (key * value) := [(KInt 1, VInt 7); (KInt 0, VInt 5)] in
  let vs := [VInt 5; VInt 7] in
  let c := new_codec [] [ODict false n] in
  n ≡ₚ zip (KInt <$> seqZ 0 (len vs)) vs
  /\ use_proxies c = false
  /\ table_getReferenceTo (objects (context c)) 0%nat = -1
  /\ writeDict (writeElement 1) 0%nat n None c
     = writeList (writeElement 1) 0%nat vs None c.
Proof.
  intros n vs c.
  assert (H1 : n ≡ₚ zip (KInt <$> seqZ 0 (len vs)) vs)
    by (exact (Permutation_swap (KInt 0, VInt 5) (KInt 1, VInt 7) [])).
  assert (H2 : use_proxies c = false) by reflexivity.
  assert (H3 : table_getReferenceTo (objects (context c)) 0%nat = -1)
    by reflexivity.
  split; [exact H1|]. split; [exact H2|]. split; [exact H3|].
  exact (writeDict_dense_as_list (writeElement 1) 0%nat n vs c H1 H2 H3).
Defined.



Lemma boolean_round_trip_witness :
  x02 <> x00 /\ x02 <> x01
  /\ DataInput.readBoolean (set_stream [x02; x01] (new_codec [] []))
     = (Raise ValueError, set_stream [x01] (new_codec [] [])).
Proof.
  assert (H1 : x02 <> x00) by discriminate.
  assert (H2 : x02 <> x01) by discriminate.
  split; [exact H1|]. split; [exact H2|].
  exact (proj1 (proj2 (boolean_round_trip (new_codec [] []) (new_codec [] []) [x01]))
           x02 H1 H2).
Defined.

Lemma addClass_references_witness :
  let x := {| ClassTables.classes := ∅; ClassTables.class_ref := ∅;
              ClassTables.class_idx := 7; ClassTables.reference := ∅ |} in
  let adds := [(10%nat, 20%nat); (11%nat, 21%nat)] in
  adds !! 1%nat = Some (11%nat, 21%nat)
  /\ ClassTables.getClassByReference 1
       (ClassTables.addClasses adds (ClassTables.clear x)).2
     = Some 11%nat.
Proof.
  intros x adds.
  assert (H : adds !! 1%nat = Some (11%nat, 21%nat)) by reflexivity.
  split; [exact H|].
  exact (proj1 (proj2 (addClass_references adds x)) 1%nat 11%nat 21%nat H).
Defined.

Lemma xml_round_trip_witness :
  let P := text_platform in
  let C := text_callbacks in
  let doc : @xmldoc P := [x3c; x61; x2f; x3e] in
  let e := @new_codec P [] [@OXML P doc] in
  let d := @new_codec P [] [] in
  heap e !! 0%nat = Some (@OXML P doc)
  /\ @ET_fromstring P (@ET_tostring P doc) = Some doc
  /\ @ET_tostring P doc <> []
  /\ len (@ET_tostring P doc) < 2 ^ 27
  /\ string_references e = true
  /\ list_index (strings (context e)) (@ET_tostring P doc) = None
  /\ table_getReferenceTo (objects (context e)) 0%nat = -1
  /\ strings (context d) = strings (context e)
  /\ exists e' d',
       @writeElement P C 1 None (VRef 0%nat) e = (Ok tt, e')
       /\ stream e' = [x0b; x09; x3c; x61; x2f; x3e]
       /\ @readElement P C 1
            (set_stream ([x0b; x09; x3c; x61; x2f; x3e] ++ [x00]) d)
          = (Ok (VRef 0%nat), d')
       /\ strings (context d') = []
       /\ strings (context e') = [[x3c; x61; x2f; x3e]].
Proof.
  intros P C doc e d.
  assert (H1 : heap e !! 0%nat = Some (@OXML P doc)) by reflexivity.
  assert (H2 : @ET_fromstring P (@ET_tostring P doc) = Some doc) by reflexivity.
  assert (H3 : @ET_tostring P doc <> []) by discriminate.
  assert (H4 : len (@ET_tostring P doc) < 2 ^ 27) by (unfold len; cbn; lia).
  assert (H5 : string_references e = true) by reflexivity.
  assert (H6 : list_index (strings (context e)) (@ET_tostring P doc) = None)
    by reflexivity.
  assert (H7 : table_getReferenceTo (objects (context e)) 0%nat = -1)
    by reflexivity.
  assert (H8 : strings (context d) = strings (context e)) by reflexivity.
  split; [exact H1|]. split; [exact H2|]. split; [exact H3|]. split; [exact H4|].
  split; [exact H5|]. split; [exact H6|]. split; [exact H7|]. split; [exact H8|].
  destruct (@xml_round_trip P C e d 0%nat doc doc [x00] 0%nat 0%nat
              H1 H2 H3 H4 H5 H6 H7 H8)
    as (e' & d' & Hw & Hs & _ & Hr & _ & _ & _ & _ & Hd & He).
  exists e', d'. split; [exact Hw|]. split; [exact Hs|]. split; [exact Hr|].
  split; [exact Hd|]. rewrite He, Hd. reflexivity.
Defined.

Lemma xml_string_reference_misread_witness :
  let P := text_platform in
  let C := text_callbacks in
  let doc : @xmldoc P := [x3c; x61; x2f; x3e] in
  let e := set_context (set_strings [doc] (@new_context P))
             (@new_codec P [] [@OXML P doc]) in
  let d := set_context (set_strings [doc] (@new_context P))
             (@new_codec P [] []) in
  heap e !! 0%nat = Some (@OXML P doc)
  /\ string_references e = true
  /\ list_index (strings (context e)) (@ET_tostring P doc) = Some 0%nat
  /\ Z.of_nat 0 < 2 ^ 27
  /\ table_getReferenceTo (objects (context e)) 0%nat = -1
  /\ @writeElement P C 1 None (VRef 0%nat) e
     = (Ok tt,
        set_context (set_objects [0%nat] (context e)) (set_stream [x0b; x00] e))
  /\ @readElement P C 1 (set_stream ([x0b; x00] ++ [x00]) d)
     = (Ok VNone, set_stream [x00] d).
Proof.
  intros P C doc e d.
  assert (H1 : heap e !! 0%nat = Some (@OXML P doc)) by reflexivity.
  assert (H2 : string_references e = true) by reflexivity.
  assert (H3 : list_index (strings (context e)) (@ET_tostring P doc) = Some 0%nat)
    by reflexivity.
  assert (H4 : Z.of_nat 0 < 2 ^ 27) by (cbn; lia).
  assert (H5 : table_getReferenceTo (objects (context e)) 0%nat = -1)
    by reflexivity.
  split; [exact H1|]. split; [exact H2|]. split; [exact H3|]. split; [exact H4|].
  split; [exact H5|].
  exact (@xml_string_reference_misread P C e d 0%nat doc 0%nat [x00] 0%nat 0%nat
           H1 H2 H3 H4 H5).
Defined.
